(** * SuperStore streaming analysis: grouped aggregates and derived queries

    A shallow embedding of [grouping_aggregation_helpers.py], [orders.py],
    [queries.py] and [queries_run.py], followed by the properties of the
    aggregation primitives, of the composite queries and of the printed
    reports.

    Conventions of the embedding.
    - A Python [float] is an IEEE 754 binary64 number, the primitive [float]
      of the prover: every operation rounds to the nearest double, ties to
      even, and may return an infinity or NaN.  [x =? y] and [x <? y] are
      the comparisons [==] and [<] of Python: [0.0 == -0.0], and every
      comparison with NaN is false.  A Python [int] is a [Z].
    - A Python [dict] is an association list with unique keys, kept in
      insertion order (the order in which [items()] yields the entries).
    - Code that can raise returns a [result]: true division raises
      [ZeroDivisionError] on a zero divisor, [math.sqrt] raises [ValueError]
      on a negative argument, list indexing raises [IndexError] out of range,
      arithmetic on [None] and the difference of an offset-aware and a naive
      [datetime] raise [TypeError].
    - The record source [stream_orders(path)] is the list of orders it yields;
      every call on the same path yields the same list.
    - [sorted] and [heapq] are the ones of the Python standard library,
      embedded here from their definition.
    - A function that prints returns the arguments of its calls of [print]
      next to its result.  A string is a sequence of characters and its
      length is their number.  The text that Python writes for a number
      ([str] of an integer, [format] of a float) is a parameter of the
      reports. *)

From Stdlib Require Import ZArith Lia Floats QArith OrderedTypeEx.
From stdpp Require Import base decidable option list sorting strings.

#[local] Set Warnings "-inexact-float".
Open Scope float_scope.

(** ** Exceptions *)

Inductive exn : Set :=
| ZeroDivisionError
| ValueError
| IndexError
| TypeError.

Inductive result (A : Type) : Type :=
| Ok (a : A)
| Raise (e : exn).

Arguments Ok {A} a.
Arguments Raise {A} e.

Definition rbind {A B : Type} (m : result A) (k : A -> result B) : result B :=
  match m with
  | Ok a => k a
  | Raise e => Raise e
  end.

Notation "'do' x <- m ; k" := (rbind m (fun x => k))
  (at level 10, x name, m at level 100, k at level 200).
Notation "'do' ' p <- m ; k" := (rbind m (fun x => match x with p => k end))
  (at level 10, p pattern, m at level 100, k at level 200).

(** A [for] loop whose body may raise: the state is threaded through the
    elements in order and the first exception ends the loop. *)
Fixpoint for_each {A S : Type} (body : S -> A -> result S) (xs : list A) (s : S)
  : result S :=
  match xs with
  | [] => Ok s
  | x :: xs' => do s' <- body s x; for_each body xs' s'
  end.

(** ** Python numbers *)

(** [float(n)] on an integer, the conversion that the arithmetic applies to
    an [int] operand: the nearest double, ties to even.  (Python raises
    [OverflowError] on an integer beyond the range of a double, which a
    count of records does not reach; the conversion here is total.) *)
Definition float_of_int (n : Z) : float :=
  SF2Prim (binary_normalize prec emax n 0 false).

(** [a / b] on two floats. *)
Definition py_truediv (a b : float) : result float :=
  if b =? 0 then Raise ZeroDivisionError else Ok (a / b).

(** [a / n] on a float and an integer: [n] is converted to a float, which is
    zero exactly when [n] is. *)
Definition py_truediv_int (a : float) (n : Z) : result float :=
  if decide (n = 0%Z) then Raise ZeroDivisionError else Ok (a / float_of_int n).

(** [a / b] on two integers, [b] nonzero: the quotient rounded once to the
    nearest double. *)
Definition Z2SF (n : Z) : spec_float :=
  match n with
  | Z0 => S754_zero false
  | Zpos p => S754_finite false p 0
  | Zneg p => S754_finite true p 0
  end.

Definition int_truediv (a b : Z) : float :=
  SF2Prim (SFdiv prec emax (Z2SF a) (Z2SF b)).

(** [math.sqrt]: a negative argument, [-inf] included, is a domain error;
    the square root of NaN is NaN. *)
Definition py_sqrt (x : float) : result float :=
  if x <? 0 then Raise ValueError else Ok (sqrt x).

(** The truth value of a float: [x != 0.0]. *)
Definition truthy (x : float) : bool := negb (x =? 0).

(** ** Python lists used as arrays *)

Definition getitem {A : Type} (l : list A) (i : nat) : result A :=
  match l !! i with
  | Some x => Ok x
  | None => Raise IndexError
  end.

Definition setitem {A : Type} (l : list A) (i : nat) (x : A) : result (list A) :=
  if decide (i < length l)%nat then Ok (<[i := x]> l) else Raise IndexError.

(** ** Python dictionaries *)

Abbreviation dict K V := (list (K * V)).

Section dict.
Context {K V : Type} `{EqDecision K}.

(** [d.get(k)] *)
Fixpoint dict_get (d : dict K V) (k : K) : option V :=
  match d with
  | [] => None
  | (k', v) :: d' => if decide (k' = k) then Some v else dict_get d' k
  end.

(** [d.get(k, dflt)], and [d[k]] on a [defaultdict] whose factory
    returns [dflt]. *)
Definition dd_get (d : dict K V) (k : K) (dflt : V) : V :=
  default dflt (dict_get d k).

(** [d[k] = v]: an existing key keeps its place, a new key goes last. *)
Fixpoint dict_set (d : dict K V) (k : K) (v : V) : dict K V :=
  match d with
  | [] => [(k, v)]
  | (k', v') :: d' =>
      if decide (k' = k) then (k', v) :: d' else (k', v') :: dict_set d' k v
  end.

(** The keys in iteration order. *)
Definition dict_keys (d : dict K V) : list K := d.*1.
End dict.

(** ** [sorted]

    [sorted(l, key=..., reverse=...)] is a stable sort that compares keys
    with [<] only.  Where [<] orders the keys (integers, strings, floats
    without NaN) its result is the one of the stable insertion sort below;
    with a NaN key the result is still a rearrangement of the list, in an
    order that the sorting algorithm decides.  [lt x y] stands for
    [key(x) < key(y)].  With [reverse=True] the order is descending and
    elements with equal keys still keep their original order. *)
Fixpoint insort {A : Type} (before : A -> A -> bool) (x : A) (l : list A) : list A :=
  match l with
  | [] => [x]
  | y :: l' => if before y x then y :: insort before x l' else x :: l
  end.

Definition py_sorted {A : Type} (lt : A -> A -> bool) (reverse : bool) (l : list A)
  : list A :=
  foldr (insort (if reverse then (fun y x => lt x y) else lt)) [] l.

(** ** [heapq]

    The array heap of the standard library, on a list and with the
    comparison [lt] of the elements.  The loops are bounded by a fuel that
    the callers set to the number of iterations the loop can make at most. *)
Section heapq.
Context {A : Type} (lt : A -> A -> bool).

(** The [while pos > startpos] loop of [_siftdown]. *)
Fixpoint siftdown_loop (fuel : nat) (heap : list A) (startpos pos : nat)
    (newitem : A) : result (list A) :=
  match fuel with
  | O => setitem heap pos newitem
  | S fuel' =>
      if decide (startpos < pos)%nat then
        let parentpos := ((pos - 1) / 2)%nat in
        do parent <- getitem heap parentpos;
        if lt newitem parent then
          do heap' <- setitem heap pos parent;
          siftdown_loop fuel' heap' startpos parentpos newitem
        else setitem heap pos newitem
      else setitem heap pos newitem
  end.

Definition siftdown (heap : list A) (startpos pos : nat) : result (list A) :=
  do newitem <- getitem heap pos;
  siftdown_loop pos heap startpos pos newitem.

(** The [while childpos < endpos] loop of [_siftup]: the smaller child
    moves up until a leaf is reached. *)
Fixpoint siftup_loop (fuel : nat) (heap : list A) (endpos pos : nat)
  : result (list A * nat) :=
  match fuel with
  | O => Ok (heap, pos)
  | S fuel' =>
      let childpos := (2 * pos + 1)%nat in
      if decide (childpos < endpos)%nat then
        let rightpos := (childpos + 1)%nat in
        do childpos' <-
          (if decide (rightpos < endpos)%nat then
             do c <- getitem heap childpos;
             do r <- getitem heap rightpos;
             Ok (if lt c r then childpos else rightpos)
           else Ok childpos);
        do child <- getitem heap childpos';
        do heap' <- setitem heap pos child;
        siftup_loop fuel' heap' endpos childpos'
      else Ok (heap, pos)
  end.

Definition siftup (heap : list A) (pos : nat) : result (list A) :=
  let endpos := length heap in
  let startpos := pos in
  do newitem <- getitem heap pos;
  do '(heap', pos') <- siftup_loop endpos heap endpos pos;
  do heap'' <- setitem heap' pos' newitem;
  siftdown heap'' startpos pos'.

Definition heappush (heap : list A) (item : A) : result (list A) :=
  let heap' := heap ++ [item] in
  siftdown heap' 0 (length heap' - 1).

Definition heappop (heap : list A) : result (A * list A) :=
  match last heap with
  | None => Raise IndexError
  | Some lastelt =>
      let heap' := take (length heap - 1) heap in
      match heap' with
      | [] => Ok (lastelt, heap')
      | _ :: _ =>
          do returnitem <- getitem heap' 0;
          do heap'' <- setitem heap' 0 lastelt;
          do heap''' <- siftup heap'' 0;
          Ok (returnitem, heap''')
      end
  end.
End heapq.

(** ** [orders.py]: the order record *)

(** A [datetime] is its wall-clock time, the number of microseconds since
    the start of the calendar, and its offset from UTC in microseconds when
    it is offset-aware ([None] when it is naive).  [datetime.fromisoformat]
    returns an aware value for a text with an offset and a naive one
    otherwise.  The difference of two of them is a [timedelta], a number
    of microseconds. *)
Record datetime : Type := mkDatetime {
  wall : Z;
  utcoffset : option Z
}.

Definition timedelta : Type := Z.

(** [a - b] on two datetimes: the difference of the wall-clock times of two
    naive values, the difference of the UTC times of two aware values. *)
Definition datetime_sub (a b : datetime) : result timedelta :=
  match utcoffset a, utcoffset b with
  | None, None => Ok (wall a - wall b)%Z
  | Some oa, Some ob => Ok ((wall a - oa) - (wall b - ob))%Z
  | _, _ => Raise TypeError
  end.

(** [td.total_seconds()]: the microseconds divided by [10**6], as
    integers. *)
Definition total_seconds (td : timedelta) : float := int_truediv td 1000000.

Record Order : Type := mkOrder {
  category : string;
  sub_category : string;
  state : string;
  country : string;
  customer_id : string;
  customer_name : string;
  year : Z;
  market : string;
  sales : float;
  profit : float;
  discount : float;
  quantity : Z;
  shipping_cost : float;
  product_id : option string;
  product_name : option string;
  order_date : option datetime;
  ship_date : option datetime
}.

(** ** [grouping_aggregation_helpers.py] *)

(** The helpers are generic in the records [A] and in the keys [K], which
    are compared with [==].  A key function returns a key; a value
    function returns a float or raises. *)
Section grouping_aggregation_helpers.
Context {A K : Type} `{EqDecision K}.

(** [map(lambda o: (key_fn(o), value_fn(o)), orders)], one element. *)
Definition key_value (key_fn : A -> K) (value_fn : A -> result float) (o : A)
  : result (K * float) :=
  do value <- value_fn o; Ok (key_fn o, value).

Definition aggregate_sum_by_key (orders : list A) (key_fn : A -> K)
    (value_fn : A -> result float) : result (dict K float) :=
  for_each (fun totals o =>
              do '(key, value) <- key_value key_fn value_fn o;
              Ok (dict_set totals key (dd_get totals key 0 + value)))
           orders [].

(** The dictionary comprehension that ends [aggregate_mean_by_key]. *)
Definition mean_of_totals (total : dict K float) (count : dict K Z)
  : result (dict K float) :=
  for_each (fun means key =>
              if decide (0 < dd_get count key 0)%Z then
                do q <- py_truediv_int (dd_get total key 0)
                                       (dd_get count key 0%Z);
                Ok (dict_set means key q)
              else Ok means)
           (dict_keys total) [].

Definition mean_totals (orders : list A) (key_fn : A -> K)
    (value_fn : A -> result float) : result (dict K float * dict K Z) :=
  for_each (fun '(total, count) o =>
              do '(key, value) <- key_value key_fn value_fn o;
              Ok (dict_set total key (dd_get total key 0 + value),
                  dict_set count key (dd_get count key 0 + 1)%Z))
           orders ([], []).

Definition aggregate_mean_by_key (orders : list A) (key_fn : A -> K)
    (value_fn : A -> result float) : result (dict K float) :=
  do '(total, count) <- mean_totals orders key_fn value_fn;
  mean_of_totals total count.

(** The body of the first loop of [aggregate_stddev_by_key], on the
    statistics [(count, mean, m2)] of one key. *)
Definition stddev_update (st : Z * float * float) (value : float)
  : result (Z * float * float) :=
  let '(count, mean, m2) := st in
  let count := (count + 1)%Z in
  let delta := value - mean in
  do q <- py_truediv_int delta count;
  let mean := mean + q in
  let delta2 := value - mean in
  let m2 := m2 + delta * delta2 in
  Ok (count, mean, m2).

(** The first loop: the statistics of every key. *)
Definition stddev_stats (orders : list A) (key_fn : A -> K)
    (value_fn : A -> result float) : result (dict K (Z * float * float)) :=
  for_each (fun stats o =>
              do '(key, value) <- key_value key_fn value_fn o;
              do st <- stddev_update (dd_get stats key (0%Z, 0, 0)) value;
              Ok (dict_set stats key st))
           orders [].

(** The divisor of the variance. *)
Definition stddev_denom (sample : bool) (count : Z) : Z :=
  if sample && bool_decide (1 < count)%Z then (count - 1)%Z else count.

(** The second loop: the standard deviation of every key. *)
Definition stddev_finalize (sample : bool) (stats : dict K (Z * float * float))
  : result (dict K float) :=
  for_each (fun res '(key, (count, _, m2)) =>
              if decide (count = 0%Z) then Ok res
              else
                let denom := stddev_denom sample count in
                if decide (denom = 0%Z) then Ok res
                else
                  do variance <- py_truediv_int m2 denom;
                  do sd <- py_sqrt variance;
                  Ok (dict_set res key sd))
           stats [].

Definition aggregate_stddev_by_key (orders : list A) (key_fn : A -> K)
    (value_fn : A -> result float) (sample : bool) : result (dict K float) :=
  do stats <- stddev_stats orders key_fn value_fn;
  stddev_finalize sample stats.

(** [min(a, b)] and [max(a, b)] of two floats: the first argument unless
    the second is smaller, respectively greater. *)
Definition py_min (a b : float) : float := if b <? a then b else a.
Definition py_max (a b : float) : float := if a <? b then b else a.

Definition aggregate_min_max_count_by_key (orders : list A) (key_fn : A -> K)
    (value_fn : A -> result float) : result (dict K (float * float * Z)) :=
  for_each (fun stats o =>
              do '(key, value) <- key_value key_fn value_fn o;
              match dict_get stats key with
              | None => Ok (dict_set stats key (value, value, 1%Z))
              | Some (current_min, current_max, count) =>
                  Ok (dict_set stats key
                        (py_min current_min value,
                         py_max current_max value,
                         (count + 1)%Z))
              end)
           orders [].
End grouping_aggregation_helpers.

(** ** [queries.py] *)

(** A value function that reads a numeric attribute never raises. *)
Definition attr (f : Order -> float) : Order -> result float := fun o => Ok (f o).

Definition sales_by_year_region_category (source : list Order)
  : result (dict (Z * string * string) float) :=
  aggregate_sum_by_key source
    (fun o => (year o, market o, category o))
    (attr sales).

(** One row of a trend: [(year, sales, prev_year_sales, yoy_change)]. *)
Definition yoy_row : Type := Z * float * option float * option float.

(** Step 2 of [yoy_category_sales_trends]: the totals regrouped by
    [(region, category)]. *)
Definition yoy_grouped (totals : dict (Z * string * string) float)
  : dict (string * string) (list (Z * float)) :=
  fold_left (fun grouped '((year, region, category), sales) =>
               dict_set grouped (region, category)
                 (dd_get grouped (region, category) [] ++ [(year, sales)]))
            totals [].

(** The body of the inner loop of step 3, on the state
    [(trends, prev_sales)]. *)
Definition yoy_step (st : list yoy_row * option float) (entry : Z * float)
  : result (list yoy_row * option float) :=
  let '(trends, prev_sales) := st in
  let '(year, sales) := entry in
  do trends' <-
    match prev_sales with
    | None => Ok (trends ++ [(year, sales, None, None)])
    | Some prev =>
        do yoy_change <-
          (if negb (prev =? 0) then
             do q <- py_truediv (sales - prev) prev; Ok (Some q)
           else Ok None);
        Ok (trends ++ [(year, sales, Some prev, yoy_change)])
    end;
  Ok (trends', Some sales).

(** The trend of one group: its entries sorted by year, then walked. *)
Definition yoy_trends (entries : list (Z * float)) : result (list yoy_row) :=
  let entries' := py_sorted (fun x y => (x.1 <? y.1)%Z) false entries in
  do '(trends, _) <- for_each yoy_step entries' ([], None);
  Ok trends.

Definition yoy_category_sales_trends (source : list Order)
  : result (dict (string * string) (list yoy_row)) :=
  do totals <- sales_by_year_region_category source;
  let grouped := yoy_grouped totals in
  for_each (fun yoy_results '(key, entries) =>
              do trends <- yoy_trends entries;
              Ok (dict_set yoy_results key trends))
           grouped [].

Definition cat_subcat (o : Order) : string * string :=
  (category o, sub_category o).

Definition profit_margin_by_category_subcategory (source : list Order)
  : result (dict (string * string) (option float)) :=
  do total_sales <- aggregate_sum_by_key source cat_subcat (attr sales);
  do total_profit <- aggregate_sum_by_key source cat_subcat (attr profit);
  for_each (fun margins '(key, sales) =>
              let profit := dd_get total_profit key 0 in
              do margin <-
                (if truthy sales then
                   do q <- py_truediv profit sales; Ok (Some q)
                 else Ok None);
              Ok (dict_set margins key margin))
           total_sales [].

(** [a < b] on strings: lexicographic on the code points. *)
Definition str_lt (a b : string) : bool := String.ltb a b.

(** [a < b] on the heap's tuples [(margin, category, sub_category)]: the
    first component on which the tuples are not [==] decides.  (The
    margins of two tuples are distinct float objects, so they are compared
    by value.) *)
Definition margin_tuple : Type := float * string * string.

Definition tuple_lt (a b : margin_tuple) : bool :=
  let '(m1, c1, s1) := a in
  let '(m2, c2, s2) := b in
  if m1 =? m2 then
    if decide (c1 = c2) then str_lt s1 s2 else str_lt c1 c2
  else m1 <? m2.

(** The body of the loop of [top_categories_by_margin]. *)
Definition top_step (total_profit : dict (string * string) float) (n : Z)
    (heap : list margin_tuple) (item : string * string * float)
  : result (list margin_tuple) :=
  let '((category, sub_category), sales) := item in
  if negb (truthy sales) then Ok heap
  else
    do margin <- py_truediv (dd_get total_profit (category, sub_category) 0) sales;
    do heap' <- heappush tuple_lt heap (margin, category, sub_category);
    if decide (n < Z.of_nat (length heap'))%Z then
      do '(_, heap'') <- heappop tuple_lt heap'; Ok heap''
    else Ok heap'.

Definition top_categories_by_margin (source : list Order) (n : Z)
  : result (list (string * string * float)) :=
  do total_sales <- aggregate_sum_by_key source cat_subcat (attr sales);
  do total_profit <- aggregate_sum_by_key source cat_subcat (attr profit);
  do heap <- for_each (top_step total_profit n) total_sales [];
  let top :=
    py_sorted (fun x y : margin_tuple => x.1.1 <? y.1.1) true heap in
  Ok (map (fun '(margin, category, sub_category) =>
             (category, sub_category, margin)) top).

(** [o.discount > 0] *)
Definition discounted (o : Order) : Prop := Is_true (0 <? discount o).

Definition total_discounted_profit (source : list Order) : result float :=
  do totals <- aggregate_sum_by_key
                 (filter discounted source)
                 (fun _ => "all"%string)
                 (attr profit);
  Ok (dd_get totals "all"%string 0).

Definition discounted_profit_share (source : list Order) : result (option float) :=
  do discounted <- total_discounted_profit source;
  do totals <- aggregate_sum_by_key source (fun _ => "all"%string) (attr profit);
  let total := dd_get totals "all"%string 0 in
  if truthy total then
    do q <- py_truediv discounted total; Ok (Some q)
  else Ok None.

(** [(o.ship_date - o.order_date).total_seconds() / 86400.0]; the
    subtraction raises when a date is [None]. *)
Definition fulfillment_days (o : Order) : result float :=
  match ship_date o, order_date o with
  | Some s, Some d =>
      do td <- datetime_sub s d;
      py_truediv (total_seconds td) 86400
  | _, _ => Raise TypeError
  end.

(** [o.order_date and o.ship_date]: a [datetime] is always true, [None]
    is false. *)
Definition has_dates (o : Order) : Prop :=
  is_Some (order_date o) /\ is_Some (ship_date o).

Definition average_fulfillment_days (source : list Order) : result (option float) :=
  let with_dates := filter has_dates source in
  do mean_map <- aggregate_mean_by_key with_dates
                   (fun _ => "all"%string) fulfillment_days;
  Ok (dict_get mean_map "all"%string).

Definition market_category (o : Order) : string * string :=
  (market o, category o).

Definition profit_std_by_market_category (source : list Order) (sample : bool)
  : result (dict (string * string) float) :=
  aggregate_stddev_by_key source market_category (attr profit) sample.

Definition profit_min_max_count_by_market_category (source : list Order)
  : result (dict (string * string) (float * float * Z)) :=
  aggregate_min_max_count_by_key source market_category (attr profit).

(** ** [queries_run.py]: the tables *)

(** A function that prints returns the arguments of its calls of [print],
    in order, and its result; an exception ends it and keeps what was
    printed before. *)
Definition io (A : Type) : Type := list string * result A.

Definition io_ret {A : Type} (a : A) : io A := ([], Ok a).

Definition io_bind {A B : Type} (m : io A) (k : A -> io B) : io B :=
  match m with
  | (out, Ok a) => let '(out', r) := k a in (out ++ out', r)
  | (out, Raise e) => (out, Raise e)
  end.

Notation "'run' x <- m ; k" := (io_bind m (fun x => k))
  (at level 10, x name, m at level 100, k at level 200).
Notation "m ;; k" := (io_bind m (fun _ => k))
  (at level 100, k at level 200, right associativity).

(** [print(s)] *)
Definition print (s : string) : io unit := ([s], Ok tt).

(** A computation that does not print. *)
Definition lift {A : Type} (r : result A) : io A := ([], r).

(** A [for] loop whose body prints. *)
Fixpoint io_for_each {A : Type} (body : A -> io unit) (xs : list A) : io unit :=
  match xs with
  | [] => io_ret tt
  | x :: xs' => body x;; io_for_each body xs'
  end.

(** The line feed, and [s * k] on a string. *)
Definition newline : string := String (Ascii.ascii_of_nat 10) "".

Definition py_repeat (s : string) (k : Z) : string :=
  String.concat "" (replicate (Z.to_nat k) s).

(** [enumerate(l)] *)
Fixpoint enumerate_from {A : Type} (i : nat) (l : list A) : list (nat * A) :=
  match l with
  | [] => []
  | x :: l' => (i, x) :: enumerate_from (S i) l'
  end.

Definition enumerate {A : Type} (l : list A) : list (nat * A) := enumerate_from 0 l.

(** The inner loop of [print_table]:
    [col_widths[i] = max(col_widths[i], len(str(cell)))] for the cells of
    one row. *)
Definition widen (col_widths : list nat) (row : list string) : result (list nat) :=
  for_each (fun col_widths '(i, cell) =>
              do w <- getitem col_widths i;
              setitem col_widths i (Nat.max w (String.length cell)))
           (enumerate row) col_widths.

(** [format(s, "<w")]: [s] followed by spaces up to the width [w]. *)
Definition ljust (s : string) (w : nat) : string :=
  s +:+ py_repeat " " (Z.of_nat w - Z.of_nat (String.length s)).

(** [fmt.format] on the arguments [args], for the format of
    [print_table]: one field [{:<w}] per column width, joined by a space.
    The field of index [i] takes the argument of index [i]; arguments
    beyond the fields are ignored. *)
Definition format_fields (col_widths : list nat) (args : list string) : result string :=
  do cells <- for_each (fun cells '(i, w) =>
                          do arg <- getitem args i;
                          Ok (cells ++ [ljust arg w]))
                       (enumerate col_widths) [];
  Ok (String.concat " " cells).

Definition print_table (title : string) (headers : list string)
    (rows : list (list string)) : io unit :=
  print title;;
  match rows with
  | [] => print ("(no rows)" +:+ newline)
  | _ :: _ =>
      let col_widths := map (fun h => (String.length h + 15)%nat) headers in
      run col_widths <- lift (for_each widen rows col_widths);
      run header_line <- lift (format_fields col_widths headers);
      print header_line;;
      print (py_repeat "-" (Z.of_nat (sum_list col_widths)
                            + Z.of_nat (length col_widths) - 1));;
      io_for_each (fun row =>
                     run line <- lift (format_fields col_widths row);
                     print line)
                  rows;;
      print ""
  end.

(** ** [queries_run.py]: the reports *)

(** [a < b] on the keys of the dictionaries, tuples of strings and
    integers: the first component that differs decides. *)
Definition region_category_lt (a b : string * string) : bool :=
  if decide (a.1 = b.1) then str_lt a.2 b.2 else str_lt a.1 b.1.

Definition year_region_category_lt (a b : Z * string * string) : bool :=
  let '(year1, region1, category1) := a in
  let '(year2, region2, category2) := b in
  if decide (year1 = year2)
  then region_category_lt (region1, category1) (region2, category2)
  else bool_decide (year1 < year2)%Z.

(** [sorted(d.items())]: the keys of a dictionary are distinct, so the
    comparison of two items is the comparison of their keys. *)
Definition sorted_items {K V : Type} (key_lt : K -> K -> bool) (d : dict K V)
  : list (K * V) :=
  py_sorted (fun a b => key_lt a.1 b.1) false d.

(** The sort key of [print_margins]:
    [kv[1] if kv[1] is not None else -float("inf")]. *)
Definition margin_sort_key (margin : option float) : float :=
  match margin with
  | Some m => m
  | None => neg_infinity
  end.

Section reports.
(** The text of a number: [str(i)] on an integer and [format(x, spec)]
    on a float.  The reports are embedded for any such texts. *)
Context (str_of_int : Z -> string) (format_float : string -> float -> string).

(** [f"{x*100:,.2f}%"] *)
Definition percent (x : float) : string := format_float ",.2f" (x * 100) +:+ "%".

Definition sales_row (item : Z * string * string * float) : list string :=
  let '((year, region, category), total_sales) := item in
  [str_of_int year; region; category; format_float ",.2f" total_sales].

Definition print_sales (source : list Order) : io unit :=
  run sales_summary <- lift (sales_by_year_region_category source);
  let rows := map sales_row (sorted_items year_region_category_lt sales_summary) in
  print_table "Sales by Year / Region / Category"
              ["Year"; "Region"; "Category"; "Total Sales"] rows.

Definition yoy_table_row (region category : string) (entry : yoy_row) : list string :=
  let '(year, sales, prev_sales, change) := entry in
  let prev_fmt := match prev_sales with
                  | None => "-"
                  | Some p => format_float ",.2f" p
                  end in
  let change_fmt := match change with
                    | None => "-"
                    | Some c => percent c
                    end in
  [region; category; str_of_int year; format_float ",.2f" sales; prev_fmt; change_fmt].

Definition print_yoy (source : list Order) : io unit :=
  run yoy_data <- lift (yoy_category_sales_trends source);
  let rows :=
    fold_left (fun rows '((region, category), entries) =>
                 fold_left (fun rows entry =>
                              rows ++ [yoy_table_row region category entry])
                           entries rows)
              (sorted_items region_category_lt yoy_data) [] in
  print_table "YOY Category Sales Trends"
              ["Region"; "Category"; "Year"; "Sales"; "Prev Sales"; "YOY Change"] rows.

Definition margin_row (item : string * string * option float) : list string :=
  let '((category, sub_category), margin) := item in
  [category; sub_category;
   match margin with
   | None => "N/A"
   | Some m => percent m
   end].

Definition print_margins (source : list Order) : io unit :=
  run margins <- lift (profit_margin_by_category_subcategory source);
  let rows :=
    map margin_row
        (py_sorted (fun a b : string * string * option float =>
                     margin_sort_key a.2 <? margin_sort_key b.2)
                   true margins) in
  print_table "Profit Margin by Category / Sub-Category"
              ["Category"; "Sub-Category"; "Margin"] rows.

Definition top_row (entry : string * string * float) : list string :=
  let '(category, sub_category, margin) := entry in
  [category; sub_category; percent margin].

Definition print_top_category_margins (source : list Order) (n : Z) : io unit :=
  run top <- lift (top_categories_by_margin source n);
  let rows := map top_row top in
  print_table ("Top " +:+ str_of_int n +:+ " Category/Sub-Category by Profit Margin")
              ["Category"; "Sub-Category"; "Margin"] rows.

Definition print_discounted_profit (source : list Order) : io unit :=
  run discounted <- lift (total_discounted_profit source);
  run share <- lift (discounted_profit_share source);
  let share_fmt := match share with
                   | None => "N/A"
                   | Some s => percent s
                   end in
  print_table "Profit from Discounted Orders" ["Metric"; "Value"]
              [ ["Total Discounted Profit"; format_float ",.2f" discounted];
                ["Share of Total Profit"; share_fmt] ].

Definition print_average_fulfillment (source : list Order) : io unit :=
  run avg_days <- lift (average_fulfillment_days source);
  let avg_fmt := match avg_days with
                 | None => "N/A"
                 | Some d => format_float ".2f" d +:+ " days"
                 end in
  print_table "Average Fulfillment Time" ["Metric"; "Value"]
              [ ["Avg (Ship.Date - Order.Date)"; avg_fmt] ].

Definition volatility_row (ranges : dict (string * string) (float * float * Z))
    (item : string * string * float) : list string :=
  let '((market, category), std_dev) := item in
  let '(min_p, max_p, count) := dd_get ranges (market, category) (0, 0, 0%Z) in
  [market; category; format_float ",.4f" std_dev; format_float ",.2f" min_p;
   format_float ",.2f" max_p; str_of_int count].

Definition print_profit_volatility (source : list Order) (sample : bool) : io unit :=
  run stds <- lift (profit_std_by_market_category source sample);
  run ranges <- lift (profit_min_max_count_by_market_category source);
  let sorted_items :=
    py_sorted (fun a b : string * string * float => a.2 <? b.2) true stds in
  let rows :=
    fold_left (fun rows item => rows ++ [volatility_row ranges item]) sorted_items [] in
  print_table ("Profit StdDev by Market / Category ("
               +:+ (if sample then "sample" else "population") +:+ ")")
              ["Market"; "Category"; "Profit StdDev"; "Min Profit"; "Max Profit";
               "Count"] rows.

(** The defaults of [run_all]: the five best margins, the sample
    standard deviation. *)
Definition run_all (source : list Order) : io unit :=
  print_sales source;;
  print_yoy source;;
  print_margins source;;
  print_top_category_margins source 5;;
  print_discounted_profit source;;
  print_average_fulfillment source;;
  print_profit_volatility source true.
End reports.

(** * Vocabulary of the properties *)

(** ** Per-key folds

    The loops of the helpers have one shape: the state of the key of the
    current record is read (a default when the key is new), updated with
    the record, and written back. *)
Section keyed_fold.
Context {A K S : Type} `{EqDecision K}.
Context (key_fn : A -> K) (upd : S -> A -> S) (init : S).

Definition keyed_step (d : dict K S) (o : A) : dict K S :=
  dict_set d (key_fn o) (upd (dd_get d (key_fn o) init) o).

(** The records of a key, in order. *)
Definition group_of (k : K) (orders : list A) : list A :=
  filter (fun o => key_fn o = k) orders.
End keyed_fold.

(** ** Floats *)

(** Two floats are the same float or not: the same bits, up to the
    payload of NaN.  (This is not the comparison [==], for which [0.0] and
    [-0.0] are equal and NaN differs from itself.) *)
#[global] Instance float_eq_dec : EqDecision float.
Proof.
  intros x y. destruct (PrimFloat.Leibniz.eqb x y) eqn:E.
  - left. by apply Leibniz.eqb_spec.
  - right. intros H. apply Leibniz.eqb_spec in H. congruence.
Defined.

(** ** Sums of floats *)

(** The sum that a loop [total += v] accumulates over the values in order,
    from [0.0]: [((0.0 + v1) + v2) + ...], each addition rounded. *)
Definition float_sum (l : list float) : float := fold_left add l 0.

(** The number that a float stands for, as a fraction in lowest terms;
    none for an infinity and for NaN. *)
Definition exact (x : float) : option Q :=
  match Prim2SF x with
  | S754_zero _ => Some 0%Q
  | S754_finite s m e =>
      let v := match e with
               | Z0 => (Zpos m # 1)%Q
               | Zpos p => ((Zpos m * 2 ^ Zpos p) # 1)%Q
               | Zneg p => (Zpos m # (2 ^ p))%Q
               end in
      Some (Qred (if s then Qopp v else v))
  | _ => None
  end.

(** The arithmetic sum of the numbers that the floats stand for, without
    rounding. *)
Definition arithmetic_sum (l : list float) : option Q :=
  foldr (fun x acc =>
           match exact x, acc with
           | Some q, Some a => Some (Qred (q + a))
           | _, _ => None
           end)
        (Some 0%Q) l.

(** The arithmetic mean of the numbers that the floats stand for. *)
Definition arithmetic_mean (l : list float) : option Q :=
  match arithmetic_sum l with
  | Some s => Some (Qred (s / inject_Z (Z.of_nat (length l))))
  | None => None
  end.

(** The loop of [aggregate_sum_by_key] when no value raises. *)
Definition sum_fold {A K : Type} `{EqDecision K} (key_fn : A -> K) (vf : A -> float)
    (orders : list A) : dict K float :=
  fold_left (keyed_step key_fn (fun s o => s + vf o) 0) orders [].

(** The loop of [aggregate_mean_by_key], on the counts. *)
Definition count_fold {A K : Type} `{EqDecision K} (key_fn : A -> K)
    (orders : list A) : dict K Z :=
  fold_left (keyed_step key_fn (fun c _ => (c + 1)%Z) 0%Z) orders [].

(** ** Welford's recurrence

    The update of the statistics [(count, mean, M2)] of a key on a new
    value [v], as the specification words it:
    [count += 1; delta = v - mean; mean += delta/count; delta2 = v - mean;
    M2 += delta*delta2], every operation on floats. *)
Definition welford_step (st : Z * float * float) (v : float) : Z * float * float :=
  let '(count, mean, m2) := st in
  let count' := (count + 1)%Z in
  let delta := v - mean in
  let mean' := mean + delta / float_of_int count' in
  let delta2 := v - mean' in
  (count', mean', m2 + delta * delta2).

(** The statistics of a sequence of values. *)
Definition welford (vs : list float) : Z * float * float :=
  fold_left welford_step vs (0%Z, 0, 0).

(** The loop of [stddev_stats] when nothing raises. *)
Definition stats_fold {A K : Type} `{EqDecision K} (key_fn : A -> K) (vf : A -> float)
    (orders : list A) : dict K (Z * float * float) :=
  fold_left (keyed_step key_fn (fun st o => welford_step st (vf o)) (0%Z, 0, 0))
            orders [].

(** The variance [M2 / denom] of the statistics of a key, and its square
    root. *)
Definition variance_of (sample : bool) (st : Z * float * float) : float :=
  st.2 / float_of_int (stddev_denom sample st.1.1).

Definition stddev_of (sample : bool) (st : Z * float * float) : float :=
  sqrt (variance_of sample st).

(** ** The order of the floats

    Two floats that are not NaN compare as their keys do in the
    lexicographic order: the first component is the sign and the kind
    (infinite, finite, zero), the next two are the exponent and the
    mantissa, negated on the negative side. *)
Definition sf_key (x : spec_float) : Z * Z * Z :=
  match x with
  | S754_zero _ => (0, 0, 0)%Z
  | S754_infinity false => (2, 0, 0)%Z
  | S754_infinity true => (-2, 0, 0)%Z
  | S754_nan => (3, 0, 0)%Z
  | S754_finite false m e => (1, e, Zpos m)%Z
  | S754_finite true m e => (-1, - e, Zneg m)%Z
  end.

Definition float_key (x : float) : Z * Z * Z := sf_key (Prim2SF x).

Definition lex_lt (a b : Z * Z * Z) : Prop :=
  (a.1.1 < b.1.1 \/
   (a.1.1 = b.1.1 /\ (a.1.2 < b.1.2 \/ (a.1.2 = b.1.2 /\ a.2 < b.2))))%Z.

(** [x <= y] on floats. *)
Definition float_le (x y : float) : Prop := (y <? x) = false.

(** ** Fulfillment *)

(** The records that have both dates, as pairs [(order_date, ship_date)]. *)
Definition date_pairs (source : list Order) : list (datetime * datetime) :=
  omap (fun o => match order_date o, ship_date o with
                 | Some d, Some s => Some (d, s)
                 | _, _ => None
                 end) source.

(** Both dates are naive or both are offset-aware. *)
Definition same_awareness (p : datetime * datetime) : bool :=
  match utcoffset p.1, utcoffset p.2 with
  | None, None | Some _, Some _ => true
  | _, _ => false
  end.

(** The time in UTC of an aware datetime, the wall-clock time of a naive
    one. *)
Definition instant (d : datetime) : Z := (wall d - default 0 (utcoffset d))%Z.

(** [ship_date - order_date] in days: the microseconds divided by
    [10**6], then the seconds divided by [86400.0]. *)
Definition days_between (p : datetime * datetime) : float :=
  int_truediv (instant p.2 - instant p.1) 1000000 / 86400.

(** The value of a record that has both dates, when they can be
    subtracted. *)
Definition fulfillment_value (o : Order) : float :=
  match order_date o, ship_date o with
  | Some d, Some s => days_between (d, s)
  | _, _ => 0
  end.

(** ** Profit margin *)

(** The margin of a key: total profit over total sales, [None] when the
    total sales are zero. *)
Definition margin_of (total_profit : dict (string * string) float)
    (key : string * string) (sales : float) : option float :=
  if sales =? 0 then None else Some (dd_get total_profit key 0 / sales).

(** The records of a (category, sub_category). *)
Definition records_of (key : string * string) (source : list Order) : list Order :=
  filter (fun o => category o = key.1 /\ sub_category o = key.2) source.

(** ** Year-over-year trends *)

Definition row_year (row : yoy_row) : Z := row.1.1.1.
Definition row_sales (row : yoy_row) : float := row.1.1.2.
Definition row_prev (row : yoy_row) : option float := row.1.2.
Definition row_change (row : yoy_row) : option float := row.2.

(** The relative change from [prev] to [sales], undefined from zero. *)
Definition yoy_change_of (prev sales : float) : option float :=
  if prev =? 0 then None else Some ((sales - prev) / prev).

(** The rows of a walk over [entries] that starts with the previous
    sales [prev]. *)
Fixpoint yoy_rows (prev : option float) (entries : list (Z * float)) : list yoy_row :=
  match entries with
  | [] => []
  | (y, s) :: rest =>
      (y, s, prev, match prev with
                   | Some p => yoy_change_of p s
                   | None => None
                   end) :: yoy_rows (Some s) rest
  end.

(** The key and the entry that step 2 of [yoy_category_sales_trends]
    takes from an item of the totals. *)
Definition yoy_key (item : Z * string * string * float) : string * string :=
  (item.1.1.2, item.1.2).
Definition yoy_entry (item : Z * string * string * float) : Z * float :=
  (item.1.1.1, item.2).

(** The records of a year, a region and a category. *)
Definition records_in (y : Z) (region cat : string) (source : list Order) : list Order :=
  filter (fun o => year o = y /\ market o = region /\ category o = cat) source.

(** ** Array heaps *)

(** The parent of a position of an array heap. *)
Definition parent (i : nat) : nat := ((i - 1) / 2)%nat.

Section heap_order.
Context {A : Type} (lt : A -> A -> bool).

(** [x] is not greater than [y]. *)
Definition le_of (x y : A) : Prop := lt y x = false.

(** The element at position [i] is not smaller than its parent. *)
Definition above_parent (h : list A) (i : nat) : Prop :=
  forall x p, h !! i = Some x -> h !! parent i = Some p -> le_of p x.

(** The heap invariant of [heapq]: [heap[(k-1)/2] <= heap[k]] for all
    [k >= 1]. *)
Definition heap_ok (h : list A) : Prop :=
  forall i, (1 <= i)%nat -> above_parent h i.
End heap_order.

(** ** Candidates of the margin ranking *)

(** The tuple that [top_categories_by_margin] pushes for an item of the
    sales totals, if any: no tuple for total sales of zero. *)
Definition margin_candidate (total_profit : dict (string * string) float)
    (item : string * string * float) : option margin_tuple :=
  let '((category', sub_category'), sales') := item in
  if sales' =? 0 then None
  else Some (dd_get total_profit (category', sub_category') 0 / sales',
             category', sub_category').

(** The candidates in the order of the loop. *)
Definition margin_candidates (total_sales total_profit : dict (string * string) float)
  : list margin_tuple :=
  omap (margin_candidate total_profit) total_sales.

(** The candidates of a source. *)
Definition candidates_of (source : list Order) : list margin_tuple :=
  margin_candidates (sum_fold cat_subcat sales source)
                    (sum_fold cat_subcat profit source).

(** An entry of the result, from a tuple of the heap. *)
Definition result_entry (t : margin_tuple) : string * string * float :=
  let '(margin', category', sub_category') := t in
  (category', sub_category', margin').

(** The (category, sub_category) of a tuple of the heap. *)
Definition tuple_key (t : margin_tuple) : string * string := (t.1.2, t.2).

(** ** Minimum, maximum and count *)

(** The statistics [(min, max, count)] that the loop of
    [aggregate_min_max_count_by_key] stores for a key on a new value:
    [st] is the entry of the key so far, [None] when the key is new. *)
Definition min_max_count_update (st : option (float * float * Z)) (value : float)
  : float * float * Z :=
  match st with
  | None => (value, value, 1%Z)
  | Some (current_min, current_max, count) =>
      (py_min current_min value, py_max current_max value, (count + 1)%Z)
  end.

(** The loop of [aggregate_min_max_count_by_key] when no value raises. *)
Definition min_max_count_fold {A K : Type} `{EqDecision K} (key_fn : A -> K)
    (vf : A -> float) (orders : list A) : dict K (float * float * Z) :=
  fold_left (fun stats o =>
               dict_set stats (key_fn o)
                 (min_max_count_update (dict_get stats (key_fn o)) (vf o)))
            orders [].

(** The entry [st] of a key holds two of the values [seen] and their
    number; no value is below the first or above the second.  No entry
    when no value was seen. *)
Definition covers (seen : list float) (st : option (float * float * Z)) : Prop :=
  match st with
  | None => seen = []
  | Some (lo, hi, c) =>
      lo ∈ seen /\ hi ∈ seen /\ c = Z.of_nat (length seen) /\
      forall v, v ∈ seen -> float_le lo v /\ float_le v hi
  end.

(** The number of records that the statistics [(min, max, count)] of all
    keys stand for. *)
Definition total_count {K : Type} (stats : dict K (float * float * Z)) : Z :=
  foldr Z.add 0%Z ((fun st => st.2) <$> stats.*2).

(** ** Order of the keys *)

(** The distinct keys of a stream, in the order of their first
    occurrence. *)
Fixpoint first_seen {K : Type} `{EqDecision K} (ks : list K) : list K :=
  match ks with
  | [] => []
  | k :: ks' => k :: filter (fun k' => k' <> k) (first_seen ks')
  end.

(** ** Exceptions of the value function *)

(** The value of a record on which the value function returns. *)
Definition value_of {A : Type} (value_fn : A -> result float) (o : A) : float :=
  match value_fn o with
  | Ok v => v
  | Raise _ => 0
  end.

(** The state of the loop of [top_categories_by_margin]: the heap and
    the tuples that have been popped so far.  The heap holds
    [min (max n 0) k] of the [k] tuples seen. *)
Definition top_size (n : Z) (heap excl : list margin_tuple) : Prop :=
  Z.of_nat (length heap)
  = Z.min (Z.max n 0) (Z.of_nat (length heap + length excl)).

(** The heap is a heap and no popped tuple is greater than a tuple of the
    heap. *)
Definition top_order (heap excl : list margin_tuple) : Prop :=
  heap_ok tuple_lt heap /\
  forall e r, e ∈ excl -> r ∈ heap -> le_of tuple_lt e r.

(** The margin of a (category, sub_category): the total profit of its
    records over their total sales, both summed in the order of the
    stream; none when the total sales are zero or there is no record. *)
Definition group_margin (source : list Order) (key : string * string) : option float :=
  match records_of key source with
  | [] => None
  | _ :: _ =>
      let s := float_sum (sales <$> records_of key source) in
      let p := float_sum (profit <$> records_of key source) in
      if s =? 0 then None else Some (p / s)
  end.

(** The (category, sub_category) pairs of the records, in the order of
    their first occurrence, and those that have a margin. *)
Definition group_keys (source : list Order) : list (string * string) :=
  first_seen ((fun o => (category o, sub_category o)) <$> source).

Definition ranked_keys (source : list Order) : list (string * string) :=
  filter (fun key => is_Some (group_margin source key)) (group_keys source).

(** No group has the margin NaN. *)
Definition no_nan_margin (source : list Order) : bool :=
  forallb (fun key => match group_margin source key with
                      | Some m => negb (is_nan m)
                      | None => true
                      end)
          (group_keys source).

(** ** Tables *)

(** The column widths after a row: every width that has a cell is at
    least the length of the cell. *)
Fixpoint widened (col_widths : list nat) (row : list string) : list nat :=
  match col_widths, row with
  | w :: ws, cell :: row' => Nat.max w (String.length cell) :: widened ws row'
  | _, _ => col_widths
  end.

(** The column widths of a table. *)
Definition table_widths (headers : list string) (rows : list (list string)) : list nat :=
  fold_left widened rows (map (fun h => (String.length h + 15)%nat) headers).

(** A line of a table: the cells, each left-justified to the width of its
    column, with a space between them. *)
Definition table_line (col_widths : list nat) (cells : list string) : string :=
  String.concat " " (zip_with ljust cells col_widths).

(** The rule under the header of a table: one dash per character of a
    line. *)
Definition table_rule (col_widths : list nat) : string :=
  py_repeat "-" (Z.of_nat (sum_list col_widths) + Z.of_nat (length col_widths) - 1).

(** ** Orders *)

(** A comparison [lt] is a strict total order. *)
Definition strict_total {A : Type} (lt : A -> A -> bool) : Prop :=
  (forall x, lt x x = false) /\
  (forall x y z, lt x y = true -> lt y z = true -> lt x z = true) /\
  (forall x y, x <> y -> lt x y = true \/ lt y x = true).

(** The margin of a tuple of the heap is not NaN. *)
Definition margin_ok (t : margin_tuple) : Prop := is_nan t.1.1 = false.


(** ** Test data *)

(** An order without dates and without product, from its category,
    sub-category, year, market, sales, profit and discount. *)
Definition order_of (category' sub_category' : string) (year' : Z) (market' : string)
    (sales' profit' discount' : float) : Order :=
  mkOrder category' sub_category' "CA" "USA" "C1" "Alice" year' market'
          sales' profit' discount' 1 5 None None None None.

(** The (market, category) group of the last order of the unit test on
    profit volatility: one order, profit 20. *)
Definition order_can : Order :=
  mkOrder "Furniture" "Chairs" "ON" "CAN" "C3" "Eve" 2020 "CAN"
          150 20 0 1 6 None None None None.

(** An order of the given sub-category with sales 2 and profit 1: its
    margin is 0.5. *)
Definition order_tie (sub : string) : Order :=
  mkOrder "Furniture" sub "CA" "USA" "C1" "Alice" 2020 "US"
          2 1 0 1 5 None None None None.

(** The orders of the unit test on margins. *)
Definition order_chairs : Order :=
  mkOrder "Furniture" "Chairs" "CA" "USA" "C1" "Alice" 2020 "US"
          100 10 0 2 5 None None None None.
Definition order_tables : Order :=
  mkOrder "Furniture" "Tables" "CA" "USA" "C2" "Bob" 2020 "US"
          200 60 0 1 7 None None None None.
Definition order_paper : Order :=
  mkOrder "Office Supplies" "Paper" "NY" "USA" "C3" "Eve" 2020 "US"
          50 5 0 5 2 None None None None.

Definition margin_orders : list Order := [order_chairs; order_tables; order_paper].

(** The orders of the unit tests of the helpers. *)
Definition helper_orders : list Order :=
  [ mkOrder "Furniture" "Chairs" "CA" "USA" "C1" "Alice" 2020 "US"
            100 10 0 2 5 None None None None;
    mkOrder "Furniture" "Tables" "CA" "USA" "C2" "Bob" 2020 "US"
            200 20 0.1 1 7 None None None None;
    mkOrder "Office Supplies" "Paper" "NY" "USA" "C3" "Eve" 2021 "US"
            50 5 0 5 2 None None None None ].

(** The orders of the unit test on trends: one group, two years. *)
Definition yoy_orders : list Order :=
  [ mkOrder "Furniture" "Chairs" "CA" "USA" "C1" "Alice" 2020 "US"
            100 10 0 2 5 None None None None;
    mkOrder "Furniture" "Chairs" "CA" "USA" "C2" "Bob" 2021 "US"
            50 5 0 1 3 None None None None ].

(** The orders of the unit test on the discounted profit. *)
Definition discount_orders : list Order :=
  [ mkOrder "Furniture" "Chairs" "CA" "USA" "C1" "Alice" 2020 "US"
            100 10 0 2 5 None None None None;
    mkOrder "Furniture" "Tables" "CA" "USA" "C2" "Bob" 2020 "US"
            200 50 0.1 1 7 None None None None ].

(** A day in microseconds, a naive date and a date with the offset
    [+00:00] at a number of days, and an order with the two dates. *)
Definition day : Z := 86400000000.

Definition naive (days : Z) : datetime := mkDatetime (days * day) None.

Definition aware (days : Z) : datetime := mkDatetime (days * day) (Some 0%Z).

Definition order_dated (ordered shipped : datetime) : Order :=
  mkOrder "Furniture" "Chairs" "CA" "USA" "C1" "Alice" 2020 "US"
          100 10 0 2 5 None None (Some ordered) (Some shipped).

(** The orders of the unit test on the fulfillment time: shipped after
    two and after three days. *)
Definition dated_orders : list Order :=
  [ order_dated (naive 0) (naive 2); order_dated (naive 1) (naive 4) ].

(** The orders of the unit test on profit volatility. *)
Definition volatility_orders : list Order :=
  [ mkOrder "Furniture" "Chairs" "CA" "USA" "C1" "Alice" 2020 "US"
            100 10 0 2 5 None None None None;
    mkOrder "Furniture" "Chairs" "CA" "USA" "C2" "Bob" 2020 "US"
            200 30 0 1 7 None None None None;
    order_can ].

(** Three orders of one category whose sales and profit are 10^16, 1 and
    -10^16, the first with a discount: the floating-point sum of the three
    numbers in this order is 0, their arithmetic sum is 1. *)
Definition rounding_orders : list Order :=
  [ order_of "Furniture" "Chairs" 2020 "US" 1e16 1e16 0.1;
    order_of "Furniture" "Chairs" 2020 "US" 1 1 0;
    order_of "Furniture" "Chairs" 2020 "US" (-1e16) (-1e16) 0 ].

(** Three orders of one category with the profit 0.1. *)
Definition tenth_orders : list Order :=
  [ order_of "Furniture" "Chairs" 2020 "US" 1 0.1 0;
    order_of "Furniture" "Chairs" 2020 "US" 1 0.1 0;
    order_of "Furniture" "Chairs" 2020 "US" 1 0.1 0 ].

(** Two orders of one (market, category) with the profits 2^1023 and
    -2^1023, and an order of another market. *)
Definition overflow_orders : list Order :=
  [ order_of "Furniture" "Chairs" 2020 "US" 1 0x1p+1023 0;
    order_of "Furniture" "Chairs" 2020 "US" 1 (-0x1p+1023) 0;
    order_can ].

(** Two years of one (region, category): sales of 5e-324, the least
    positive float, then of 2^1023. *)
Definition surge_orders : list Order :=
  [ order_of "Furniture" "Chairs" 2020 "US" 5e-324 0 0;
    order_of "Furniture" "Chairs" 2021 "US" 0x1p+1023 0 0 ].

(** Three groups of one category: C with the margin 2, A with two orders
    of sales and profit 1e308, whose totals are infinite and whose margin
    is NaN, and B with the margin 1; and the same orders with those of C
    last. *)
Definition nan_orders : list Order :=
  [ order_of "F" "C" 2020 "US" 1 2 0;
    order_of "F" "A" 2020 "US" 1e308 1e308 0;
    order_of "F" "A" 2020 "US" 1e308 1e308 0;
    order_of "F" "B" 2020 "US" 1 1 0 ].

Definition nan_orders' : list Order :=
  [ order_of "F" "A" 2020 "US" 1e308 1e308 0;
    order_of "F" "A" 2020 "US" 1e308 1e308 0;
    order_of "F" "B" 2020 "US" 1 1 0;
    order_of "F" "C" 2020 "US" 1 2 0 ].

(** Four orders with the margin 0.5, in two orders. *)
Definition tie_orders : list Order :=
  [order_tie "Bookcases"; order_tie "Chairs"; order_tie "Desks"; order_tie "Tables"].

Definition tie_orders' : list Order :=
  [order_tie "Bookcases"; order_tie "Chairs"; order_tie "Tables"; order_tie "Desks"].

(** A table of two columns and two rows. *)
Definition metric_headers : list string := ["Metric"; "Value"].

Definition metric_rows : list (list string) :=
  [ ["Total Discounted Profit"; "50.00"];
    ["Share of Total Profit"; "83.33%"] ].
(** * Properties *)

(** ** Floats *)

(** The comparisons of two floats that are not NaN are those of their
    keys. *)
Lemma SFcompare_key (x y : spec_float) :
  x <> S754_nan -> y <> S754_nan ->
  match SFcompare x y with
  | Some Lt => lex_lt (sf_key x) (sf_key y)
  | Some Eq => sf_key x = sf_key y
  | Some Gt => lex_lt (sf_key y) (sf_key x)
  | None => False
  end.
Proof.
  intros Hx Hy. unfold lex_lt.
  destruct x as [[]|[]| |[] mx ex], y as [[]|[]| |[] my ey]; try done;
    simpl; try lia.
  - destruct (Z.compare_spec ex ey); simpl; try lia.
    subst. fold (Pos.compare mx my).
    destruct (Pos.compare_spec mx my); simpl; [by subst|lia..].
  - destruct (Z.compare_spec ex ey); simpl; try lia.
    subst. fold (Pos.compare mx my).
    destruct (Pos.compare_spec mx my); simpl; [by subst|lia..].
Qed.

Lemma is_nan_spec (x : float) : is_nan x = false <-> Prim2SF x <> S754_nan.
Proof.
  unfold is_nan. rewrite FloatAxioms.eqb_spec, negb_false_iff. unfold SFeqb.
  pose proof (SFcompare_key (Prim2SF x) (Prim2SF x)) as H.
  destruct (Prim2SF x) as [s|s| |s m e] eqn:E; try done.
  - by destruct s.
  - split; [done|intros _].
    specialize (H ltac:(done) ltac:(done)). 
    destruct (SFcompare _ _) as [[]|]; try done; unfold lex_lt in H; lia.
Qed.

Lemma ltb_key (x y : float) :
  is_nan x = false -> is_nan y = false ->
  (x <? y) = true <-> lex_lt (float_key x) (float_key y).
Proof.
  rewrite !is_nan_spec, FloatAxioms.ltb_spec. unfold float_key, SFltb. intros Hx Hy.
  pose proof (SFcompare_key _ _ Hx Hy) as H.
  destruct (SFcompare _ _) as [[]|]; try done; unfold lex_lt in *;
    (split; [done|]); try rewrite H; lia.
Qed.

Lemma eqb_key (x y : float) :
  is_nan x = false -> is_nan y = false ->
  (x =? y) = true <-> float_key x = float_key y.
Proof.
  rewrite !is_nan_spec, FloatAxioms.eqb_spec. unfold float_key, SFeqb. intros Hx Hy.
  pose proof (SFcompare_key _ _ Hx Hy) as H.
  destruct (SFcompare _ _) as [[]|]; try done; unfold lex_lt in *;
    (split; [done|]); intros Heq; rewrite Heq in H; lia.
Qed.

Lemma is_nan_true (x : float) : is_nan x = true -> Prim2SF x = S754_nan.
Proof.
  intros H. destruct (Prim2SF x) as [s|s| |s m e] eqn:E; [| |done|].
  all: assert (is_nan x = false) by (apply is_nan_spec; by rewrite E).
  all: congruence.
Qed.

(** A comparison with NaN is false. *)
Lemma cmp_nan (x y : float) :
  is_nan x = true \/ is_nan y = true -> (x <? y) = false /\ (x =? y) = false.
Proof.
  rewrite FloatAxioms.ltb_spec, FloatAxioms.eqb_spec. unfold SFltb, SFeqb.
  intros [->%is_nan_true| ->%is_nan_true]; [done|].
  by destruct (Prim2SF x) as [[]|[]| |[] ? ?].
Qed.

Lemma triple_eq (a b : Z * Z * Z) :
  a = b <-> a.1.1 = b.1.1 /\ a.1.2 = b.1.2 /\ a.2 = b.2.
Proof.
  destruct a as [[? ?] ?], b as [[? ?] ?]. simpl.
  split; [by intros [= -> -> ->]|by intros (-> & -> & ->)].
Qed.

Lemma ltb_false_key (x y : float) :
  is_nan x = false -> is_nan y = false ->
  (x <? y) = false <-> ~ lex_lt (float_key x) (float_key y).
Proof.
  intros Hx Hy. rewrite <- (ltb_key x y Hx Hy). by destruct (x <? y).
Qed.

Lemma eqb_true_key (x y : float) :
  is_nan x = false -> is_nan y = false ->
  (x =? y) = true <->
  (float_key x).1.1 = (float_key y).1.1 /\
  (float_key x).1.2 = (float_key y).1.2 /\
  (float_key x).2 = (float_key y).2.
Proof. intros Hx Hy. by rewrite <- triple_eq, eqb_key. Qed.

Lemma eqb_false_key (x y : float) :
  is_nan x = false -> is_nan y = false ->
  (x =? y) = false <->
  ~ ((float_key x).1.1 = (float_key y).1.1 /\
     (float_key x).1.2 = (float_key y).1.2 /\
     (float_key x).2 = (float_key y).2).
Proof.
  intros Hx Hy. rewrite <- (eqb_true_key x y Hx Hy). by destruct (x =? y).
Qed.

(** The comparisons of floats that are known not to be NaN, decided on
    their keys. *)
Ltac float_order :=
  repeat match goal with
         | |- context [?x <? ?y] => destruct (x <? y) eqn:?
         | |- context [?x =? ?y] => destruct (x =? y) eqn:?
         end;
  repeat match goal with
         | H : (?x <? ?y) = true |- _ => apply ltb_key in H; [|assumption..]
         | H : (?x <? ?y) = false |- _ => apply ltb_false_key in H; [|assumption..]
         | H : (?x =? ?y) = true |- _ => apply eqb_true_key in H; [|assumption..]
         | H : (?x =? ?y) = false |- _ => apply eqb_false_key in H; [|assumption..]
         end;
  unfold float_le, lex_lt in *; try done; try lia.

Lemma ltb_irrefl (x : float) : (x <? x) = false.
Proof.
  destruct (is_nan x) eqn:E; [apply cmp_nan; by left|float_order].
Qed.

Lemma ltb_asym (x y : float) : (x <? y) = true -> (y <? x) = false.
Proof.
  destruct (is_nan x) eqn:Ex; [intros _; apply cmp_nan; by right|].
  destruct (is_nan y) eqn:Ey; [intros _; apply cmp_nan; by left|].
  intros H. float_order.
Qed.

Lemma eqb_sym (x y : float) : (x =? y) = (y =? x).
Proof.
  destruct (is_nan x) eqn:Ex.
  { rewrite (proj2 (cmp_nan x y (or_introl Ex))).
    by rewrite (proj2 (cmp_nan y x (or_intror Ex))). }
  destruct (is_nan y) eqn:Ey.
  { rewrite (proj2 (cmp_nan x y (or_intror Ey))).
    by rewrite (proj2 (cmp_nan y x (or_introl Ey))). }
  float_order.
Qed.

Lemma eqb_not_ltb (x y : float) : (x =? y) = true -> (x <? y) = false.
Proof.
  destruct (is_nan x) eqn:Ex.
  { by rewrite (proj2 (cmp_nan x y (or_introl Ex))). }
  destruct (is_nan y) eqn:Ey.
  { by rewrite (proj2 (cmp_nan x y (or_intror Ey))). }
  intros H. float_order.
Qed.

Lemma eqb_refl (x : float) : is_nan x = false -> (x =? x) = true.
Proof. unfold is_nan. by destruct (x =? x). Qed.

Lemma float_le_refl (x : float) : float_le x x.
Proof. apply ltb_irrefl. Qed.

Lemma float_le_trans (x y z : float) :
  is_nan x = false -> is_nan y = false -> is_nan z = false ->
  float_le x y -> float_le y z -> float_le x z.
Proof. unfold float_le. intros Hx Hy Hz Hxy Hyz. float_order. Qed.

Lemma float_le_total (x y : float) :
  is_nan x = false -> is_nan y = false -> float_le x y \/ float_le y x.
Proof.
  unfold float_le. intros Hx Hy.
  destruct (y <? x) eqn:E1; [|by left]. right. float_order.
Qed.


(** ** Exact operations *)

(** The shape of a finite float: its exponent is at most 971, and it is
    either -1074 (a subnormal float, or a normal one of the least
    exponent) or the mantissa has 53 digits. *)
Lemma valid_finite (s : bool) (m : positive) (e : Z) :
  valid_binary (S754_finite s m e) = true ->
  (e <= 971)%Z /\
  ((e = -1074 /\ Z.pos (SpecFloat.digits2_pos m) <= 53) \/
   (-1074 < e /\ Z.pos (SpecFloat.digits2_pos m) = 53))%Z.
Proof.
  unfold valid_binary, SpecFloat.valid_binary, bounded, canonical_mantissa, fexp, SpecFloat.emin.
  intros H. apply andb_prop in H as [H1 H2].
  apply Z.eqb_eq in H1. apply Z.leb_le in H2.
  unfold emax, prec in *. lia.
Qed.

Lemma SFdiv_one (x : spec_float) :
  valid_binary x = true ->
  SFdiv prec emax x (S754_finite false 4503599627370496 (-52)) = x.
Proof.
  destruct x as [s|s| |s m e]; [by destruct s..|done|].
  intros Hv. apply valid_finite in Hv as [He Hd].
  unfold SFdiv, SFdiv_core_binary.
  change (Zdigits2 (Z.pos m)) with (Z.pos (SpecFloat.digits2_pos m)).
  set (d := Z.pos (SpecFloat.digits2_pos m)) in *.
  change (Zdigits2 (Z.pos 4503599627370496)) with 53%Z.
  rewrite xorb_false_r.
  destruct Hd as [[-> Hd]|[Hlo Hd]].
  - assert (Z.min (fexp prec emax (d + -1074 - (53 + -52))) (-1074 - -52) = (-1074)%Z) as ->.
    { unfold fexp, SpecFloat.emin, prec, emax. lia. }
    change (-1074 - -52 - -1074)%Z with 52%Z. cbv iota.
    assert (Z.div_eucl (Z.shiftl (Z.pos m) 52) (Z.pos 4503599627370496) = (Z.pos m, 0%Z)) as ->.
    { rewrite Z.shiftl_mul_pow2 by lia.
      pose proof (Z.div_eucl_eq (Z.pos m * 2 ^ 52) 4503599627370496 ltac:(lia)) as Heq.
      pose proof (Z.mod_pos_bound (Z.pos m * 2 ^ 52) 4503599627370496 ltac:(lia)) as Hb.
      unfold Z.modulo in Hb.
      destruct (Z.div_eucl _ _) as [q r]. change (2 ^ 52)%Z with 4503599627370496%Z in Heq.
      f_equal; lia. }
    change (new_location 4503599627370496 0) with loc_Exact.
    unfold binary_round_aux, shr_fexp. fold d.
    change (Zdigits2 (Z.pos m)) with d.
    assert (fexp prec emax (d + -1074) - -1074 = 0)%Z as ->.
    { unfold fexp, SpecFloat.emin, prec, emax. lia. }
    cbn [shr shr_record_of_loc shr_m loc_of_shr_record round_nearest_even].
    change (Zdigits2 (Z.pos m)) with d.
    assert (fexp prec emax (d + -1074) - -1074 = 0)%Z as ->.
    { unfold fexp, SpecFloat.emin, prec, emax. lia. }
    cbn [shr shr_m]. done.
  - assert (Z.min (fexp prec emax (d + e - (53 + -52))) (e - -52) = (e - 1)%Z) as ->.
    { unfold fexp, SpecFloat.emin, prec, emax. lia. }
    replace (e - -52 - (e - 1))%Z with 53%Z by lia. cbv iota.
    assert (Z.div_eucl (Z.shiftl (Z.pos m) 53) (Z.pos 4503599627370496) = (Z.pos m~0, 0%Z)) as ->.
    { rewrite Z.shiftl_mul_pow2 by lia.
      pose proof (Z.div_eucl_eq (Z.pos m * 2 ^ 53) 4503599627370496 ltac:(lia)) as Heq.
      pose proof (Z.mod_pos_bound (Z.pos m * 2 ^ 53) 4503599627370496 ltac:(lia)) as Hb.
      unfold Z.modulo in Hb.
      destruct (Z.div_eucl _ _) as [q r]. change (2 ^ 53)%Z with 9007199254740992%Z in Heq.
      f_equal; lia. }
    change (new_location 4503599627370496 0) with loc_Exact.
    unfold binary_round_aux, shr_fexp.
    change (Zdigits2 (Z.pos m~0)) with (Z.pos (Pos.succ (SpecFloat.digits2_pos m))).
    rewrite Pos2Z.inj_succ. fold d.
    assert (fexp prec emax (Z.succ d + (e - 1)) - (e - 1) = 1)%Z as ->.
    { unfold fexp, SpecFloat.emin, prec, emax. lia. }
    cbn [shr shr_record_of_loc SpecFloat.iter_pos shr_1 orb shr_m loc_of_shr_record round_nearest_even].
    change (Zdigits2 (Z.pos m)) with d.
    replace (e - 1 + 1)%Z with e by lia.
    assert (fexp prec emax (d + e) - e = 0)%Z as ->.
    { unfold fexp, SpecFloat.emin, prec, emax. lia. }
    cbn [shr shr_m]. unfold emax, prec.
    destruct (Z.leb_spec e (1024 - 53)); [done|lia].
Qed.

Lemma Prim2SF_one : Prim2SF 1 = S754_finite false 4503599627370496 (-52).
Proof. vm_compute. reflexivity. Qed.

Lemma Prim2SF_zero : Prim2SF 0 = S754_zero false.
Proof. vm_compute. reflexivity. Qed.

Lemma div_one (x : float) : x / 1 = x.
Proof.
  apply Prim2SF_inj. rewrite div_spec, Prim2SF_one.
  apply SFdiv_one, Prim2SF_valid.
Qed.

Lemma sub_zero (x : float) : x - 0 = x.
Proof.
  apply Prim2SF_inj. rewrite sub_spec, Prim2SF_zero.
  by destruct (Prim2SF x) as [[]|[]| |[] ? ?].
Qed.

(** A float that is finite is a zero or has a mantissa and an exponent. *)
Lemma is_finite_spec (x : float) :
  is_finite x = true ->
  (exists s, Prim2SF x = S754_zero s) \/ (exists s m e, Prim2SF x = S754_finite s m e).
Proof.
  unfold is_finite, is_nan, is_infinity.
  rewrite !FloatAxioms.eqb_spec, abs_spec.
  replace (Prim2SF infinity) with (S754_infinity false) by (vm_compute; reflexivity).
  destruct (Prim2SF x) as [s|s| |s m e] eqn:E; eauto.
  - by destruct s.
  - done.
Qed.

(** The sum of squares after one finite value is zero:
    [0.0 + v * (v - (0.0 + v))]. *)
Lemma singleton_m2 (v : float) :
  is_finite v = true -> 0 + v * (v - (0 + v)) = 0.
Proof.
  intros Hv. apply Prim2SF_inj.
  rewrite add_spec, mul_spec, sub_spec, add_spec, Prim2SF_zero.
  destruct (is_finite_spec v Hv) as [[s ->]|(s & m & e & ->)].
  - by destruct s.
  - cbn [SF64add SFadd]. unfold SF64sub, SFsub.
    rewrite Z.sub_diag. by destruct s.
Qed.

Lemma float_of_int_one : float_of_int 1 = 1.
Proof. vm_compute. reflexivity. Qed.

(** The statistics after one finite value. *)
Lemma welford_singleton (v : float) :
  is_finite v = true -> welford [v] = (1%Z, 0 + v, 0).
Proof.
  intros Hv. unfold welford. cbn [fold_left welford_step].
  change (0 + 1)%Z with 1%Z.
  by rewrite float_of_int_one, sub_zero, div_one, singleton_m2.
Qed.

Lemma stddev_of_singleton (sample : bool) (v : float) :
  is_finite v = true ->
  variance_of sample (welford [v]) = 0 /\ stddev_of sample (welford [v]) = 0.
Proof.
  intros Hv. unfold stddev_of, variance_of. rewrite welford_singleton by done.
  cbn [fst snd]. unfold stddev_denom.
  replace (sample && bool_decide (1 < 1)%Z) with false by (by destruct sample).
  rewrite float_of_int_one, div_one. split; [done|]. vm_compute. reflexivity.
Qed.

(** ** The result monad and loops *)

(** A loop whose body does not raise on the states of an invariant is the
    left fold of its body. *)
Lemma for_each_fold {A S : Type} (I : S -> Prop) (body : S -> A -> result S)
    (f : S -> A -> S) (xs : list A) (s : S) :
  I s ->
  (forall s x, I s -> x ∈ xs -> body s x = Ok (f s x) /\ I (f s x)) ->
  for_each body xs s = Ok (fold_left f xs s) /\ I (fold_left f xs s).
Proof.
  revert s. induction xs as [|x xs IH]; intros s Hs Hbody; simpl; [done|].
  destruct (Hbody s x Hs) as [-> Hs']; [by left|]. simpl.
  apply IH; [done|]. intros s' y ? ?. apply Hbody; [done|by right].
Qed.

(** ** Dictionaries *)

Section dict_facts.
Context {K V : Type} `{EqDecision K}.
Implicit Types (d : dict K V) (k : K) (v : V).

Lemma dict_get_set_eq d k v : dict_get (dict_set d k v) k = Some v.
Proof.
  induction d as [|[k' v'] d IH]; simpl.
  - by rewrite decide_True.
  - destruct (decide (k' = k)) as [->|Hne]; simpl.
    + by rewrite decide_True.
    + by rewrite decide_False.
Qed.

Lemma dict_get_set_ne d k k' v :
  k <> k' -> dict_get (dict_set d k v) k' = dict_get d k'.
Proof.
  intros Hne. induction d as [|[k0 v0] d IH]; simpl.
  - by rewrite decide_False.
  - destruct (decide (k0 = k)) as [->|Hne0]; simpl.
    + by rewrite !decide_False.
    + by rewrite IH.
Qed.

Lemma dict_get_None d k : dict_get d k = None <-> k ∉ dict_keys d.
Proof.
  unfold dict_keys. induction d as [|[k' v'] d IH]; simpl.
  - split; [intros _; apply not_elem_of_nil|done].
  - rewrite not_elem_of_cons. destruct (decide (k' = k)) as [->|Hne].
    + split; [done|]. by intros [? _].
    + rewrite IH. split; [|by intros [_ ?]].
      intros ?. split; [congruence|done].
Qed.

Lemma dict_get_is_Some d k : is_Some (dict_get d k) <-> k ∈ dict_keys d.
Proof.
  rewrite <- not_eq_None_Some, dict_get_None.
  destruct (decide (k ∈ dict_keys d)); naive_solver.
Qed.

Lemma dict_get_elem_of d k v : dict_get d k = Some v -> (k, v) ∈ d.
Proof.
  induction d as [|[k' v'] d IH]; simpl; [done|].
  destruct (decide (k' = k)) as [->|Hne].
  - intros [= ->]. by left.
  - intros ?. right. auto.
Qed.

Lemma dict_get_NoDup d k v :
  NoDup (dict_keys d) -> (k, v) ∈ d -> dict_get d k = Some v.
Proof.
  unfold dict_keys. induction d as [|[k' v'] d IH]; simpl.
  - by intros _ ?%elem_of_nil.
  - intros [Hnotin Hnd]%NoDup_cons Hin.
    apply elem_of_cons in Hin as [[= <- <-]|Hin].
    + by rewrite decide_True.
    + rewrite decide_False; [auto|].
      intros ->. apply Hnotin. apply list_elem_of_fmap. by exists (k, v).
Qed.

Lemma dict_keys_set d k v :
  dict_keys (dict_set d k v) =
  if decide (k ∈ dict_keys d) then dict_keys d else dict_keys d ++ [k].
Proof.
  unfold dict_keys. induction d as [|[k' v'] d IH].
  - case_decide as Hin; [by apply elem_of_nil in Hin|done].
  - cbn [dict_set]. destruct (decide (k' = k)) as [->|Hne].
    + rewrite decide_True; [done|]. rewrite fmap_cons. by left.
    + rewrite !fmap_cons, IH. cbn [fst].
      destruct (decide (k ∈ d.*1)) as [Hin|Hin].
      * rewrite decide_True; [done|by right].
      * rewrite decide_False; [done|]. rewrite not_elem_of_cons. naive_solver.
Qed.

Lemma dict_set_NoDup d k v :
  NoDup (dict_keys d) -> NoDup (dict_keys (dict_set d k v)).
Proof.
  intros Hnd. rewrite dict_keys_set. case_decide; [done|].
  apply NoDup_app. split_and!; [done| |apply NoDup_singleton].
  intros x Hx ->%list_elem_of_singleton. done.
Qed.

End dict_facts.

(** ** Per-key folds

    The loops of the helpers have one shape: the state of the key of the
    current record is read (a default when the key is new), updated with
    the record, and written back. *)
Section keyed_fold_facts.
Context {A K S : Type} `{EqDecision K}.
Context (key_fn : A -> K) (upd : S -> A -> S) (init : S).

Lemma keyed_fold_get (orders : list A) (d : dict K S) (k : K) :
  dict_get (fold_left (keyed_step key_fn upd init) orders d) k =
  match group_of key_fn k orders with
  | [] => dict_get d k
  | _ :: _ => Some (fold_left upd (group_of key_fn k orders) (dd_get d k init))
  end.
Proof.
  unfold group_of. revert d.
  induction orders as [|o orders IH]; intros d; simpl; [done|].
  rewrite IH. unfold keyed_step, dd_get.
  rewrite filter_cons. destruct (decide (key_fn o = k)) as [<-|Hne].
  - rewrite dict_get_set_eq. simpl.
    by destruct (filter _ orders).
  - by rewrite dict_get_set_ne.
Qed.

Lemma group_of_nil (k : K) (orders : list A) :
  group_of key_fn k orders = [] <-> k ∉ key_fn <$> orders.
Proof.
  unfold group_of. rewrite list_elem_of_fmap. split.
  - intros Hnil (o & -> & Hin).
    assert (o ∈ filter (fun o' => key_fn o' = key_fn o) orders) as Ho
      by by apply list_elem_of_filter.
    rewrite Hnil in Ho. by apply elem_of_nil in Ho.
  - intros Hnot. destruct (filter _ orders) as [|o l] eqn:E; [done|].
    exfalso. apply Hnot. exists o.
    assert (o ∈ filter (fun o' => key_fn o' = k) orders) as Ho
      by (rewrite E; by left).
    apply list_elem_of_filter in Ho as [? ?]. done.
Qed.

Lemma keyed_fold_keys (orders : list A) (d : dict K S) (k : K) :
  k ∈ dict_keys (fold_left (keyed_step key_fn upd init) orders d) <->
  k ∈ dict_keys d \/ k ∈ key_fn <$> orders.
Proof.
  rewrite <- !dict_get_is_Some, keyed_fold_get.
  destruct (group_of key_fn k orders) as [|o l] eqn:E.
  - apply group_of_nil in E. split; [by left|by intros [?|?]].
  - split; [|by eauto]. intros _. right.
    destruct (decide (k ∈ key_fn <$> orders)) as [|Hn]; [done|].
    apply group_of_nil in Hn. congruence.
Qed.

Lemma keyed_fold_NoDup (orders : list A) (d : dict K S) :
  NoDup (dict_keys d) -> NoDup (dict_keys (fold_left (keyed_step key_fn upd init) orders d)).
Proof.
  revert d. induction orders as [|o orders IH]; intros d Hd; simpl; [done|].
  apply IH. by apply dict_set_NoDup.
Qed.

Lemma keyed_fold_nil_keys (orders : list A) :
  forall k, k ∈ dict_keys (fold_left (keyed_step key_fn upd init) orders []) <-> k ∈ key_fn <$> orders.
Proof.
  intros k. rewrite keyed_fold_keys. unfold dict_keys. simpl.
  split; [intros [?%elem_of_nil|?]; done|by right].
Qed.
End keyed_fold_facts.


Lemma forallb_true_elem {A : Type} (f : A -> bool) (l : list A) :
  forallb f l = true -> forall x, x ∈ l -> f x = true.
Proof.
  induction l as [|y l IH]; simpl; [by intros _ x ?%elem_of_nil|].
  intros [Hy Hl]%andb_prop x [->|Hx]%elem_of_cons; auto.
Qed.

Lemma forallb_false_elem {A : Type} (f : A -> bool) (l : list A) :
  forallb f l = false -> exists x, x ∈ l /\ f x = false.
Proof.
  induction l as [|y l IH]; simpl; [done|].
  destruct (f y) eqn:Hy; simpl.
  - intros (x & Hx & Hfx)%IH. exists x. split; [by right|done].
  - intros _. exists y. split; [by left|done].
Qed.

Lemma fold_left_count {A : Type} (l : list A) (c : Z) :
  fold_left (fun (s : Z) (_ : A) => (s + 1)%Z) l c = (c + Z.of_nat (length l))%Z.
Proof.
  revert c. induction l as [|x l IH]; intros c; simpl length; simpl fold_left; [lia|].
  rewrite IH. lia.
Qed.

Lemma fold_left_fmap {A B S : Type} (f : S -> B -> S) (g : A -> B) (l : list A) (s : S) :
  fold_left (fun s x => f s (g x)) l s = fold_left f (g <$> l) s.
Proof. revert s. induction l as [|x l IH]; intros s; simpl; [done|apply IH]. Qed.

Lemma group_of_cons_length {A K : Type} `{EqDecision K} (key_fn : A -> K) (k : K)
    (orders : list A) :
  k ∈ key_fn <$> orders -> (1 <= length (group_of key_fn k orders))%nat.
Proof.
  intros Hk. destruct (group_of key_fn k orders) as [|o l] eqn:E; [|simpl; lia].
  by apply group_of_nil in E.
Qed.

(** ** Sums and means by key *)

Section helpers_facts.
Context {A K : Type} `{EqDecision K}.
Context (key_fn : A -> K) (value_fn : A -> result float) (vf : A -> float).

Lemma aggregate_sum_by_key_fold (orders : list A) :
  (forall o, o ∈ orders -> value_fn o = Ok (vf o)) ->
  aggregate_sum_by_key orders key_fn value_fn = Ok (sum_fold key_fn vf orders).
Proof.
  intros Hvf. unfold aggregate_sum_by_key, sum_fold.
  eapply (for_each_fold (fun _ => True)); [done|].
  intros d o _ Ho. split; [|done].
  unfold key_value. by rewrite (Hvf o Ho).
Qed.

Lemma sum_fold_get (orders : list A) (k : K) :
  dict_get (sum_fold key_fn vf orders) k =
  if decide (k ∈ key_fn <$> orders)
  then Some (float_sum (vf <$> group_of key_fn k orders)) else None.
Proof.
  unfold sum_fold. rewrite keyed_fold_get.
  destruct (group_of key_fn k orders) as [|o l] eqn:E.
  - apply group_of_nil in E. by rewrite decide_False.
  - rewrite decide_True.
    + by rewrite (fold_left_fmap add vf).
    + destruct (decide (k ∈ key_fn <$> orders)) as [|Hn]; [done|].
      apply group_of_nil in Hn. congruence.
Qed.

Lemma sum_fold_keys (orders : list A) (k : K) :
  k ∈ dict_keys (sum_fold key_fn vf orders) <-> k ∈ key_fn <$> orders.
Proof. apply keyed_fold_nil_keys. Qed.

Lemma sum_fold_NoDup (orders : list A) : NoDup (dict_keys (sum_fold key_fn vf orders)).
Proof. apply keyed_fold_NoDup. constructor. Qed.

Lemma count_fold_get (orders : list A) (k : K) :
  dict_get (count_fold key_fn orders) k =
  if decide (k ∈ key_fn <$> orders)
  then Some (Z.of_nat (length (group_of key_fn k orders))) else None.
Proof.
  unfold count_fold. rewrite keyed_fold_get.
  destruct (group_of key_fn k orders) as [|o l] eqn:E.
  - apply group_of_nil in E. by rewrite decide_False.
  - rewrite decide_True.
    + rewrite fold_left_count. unfold dd_get. simpl default. f_equal.
    + destruct (decide (k ∈ key_fn <$> orders)) as [|Hn]; [done|].
      apply group_of_nil in Hn. congruence.
Qed.

Lemma mean_totals_fold (orders : list A) :
  (forall o, o ∈ orders -> value_fn o = Ok (vf o)) ->
  mean_totals orders key_fn value_fn = Ok (sum_fold key_fn vf orders, count_fold key_fn orders).
Proof.
  intros Hvf. unfold mean_totals, sum_fold, count_fold.
  generalize (@nil (K * float)) (@nil (K * Z)).
  induction orders as [|o orders IH]; intros t c; simpl; [done|].
  unfold key_value at 1. rewrite (Hvf o) by (by left). simpl.
  apply IH. intros o' ?. apply Hvf. by right.
Qed.

Lemma comprehension_get {V : Type} (f : K -> V) (keys : list K)
    (m : dict K V) (k : K) :
  dict_get (fold_left (fun m key => dict_set m key (f key)) keys m) k =
  if decide (k ∈ keys) then Some (f k) else dict_get m k.
Proof.
  revert m. induction keys as [|key keys IH]; intros m; cbn [fold_left].
  - rewrite decide_False; [done|apply not_elem_of_nil].
  - rewrite IH. destruct (decide (k ∈ keys)) as [Hin|Hin].
    + rewrite decide_True; [done|by right].
    + destruct (decide (key = k)) as [->|Hne].
      * rewrite decide_True by (by left). apply dict_get_set_eq.
      * rewrite decide_False by (rewrite not_elem_of_cons; naive_solver).
        by apply dict_get_set_ne.
Qed.

Lemma mean_of_totals_fold (total : dict K float) (count : dict K Z) :
  (forall key, key ∈ dict_keys total -> (0 < dd_get count key 0)%Z) ->
  mean_of_totals total count =
  Ok (fold_left (fun m key =>
                   dict_set m key
                     (dd_get total key 0 / float_of_int (dd_get count key 0%Z)))
                (dict_keys total) []).
Proof.
  intros Hpos. unfold mean_of_totals.
  eapply (for_each_fold (fun _ => True)); [done|].
  intros m key _ Hkey. split; [|done].
  specialize (Hpos key Hkey). rewrite decide_True by done.
  unfold py_truediv_int. rewrite decide_False; [done|lia].
Qed.

Lemma count_fold_pos (orders : list A) (key : K) :
  key ∈ dict_keys (sum_fold key_fn vf orders) -> (0 < dd_get (count_fold key_fn orders) key 0)%Z.
Proof.
  rewrite sum_fold_keys. intros Hin.
  unfold dd_get. rewrite count_fold_get, decide_True by done. simpl.
  pose proof (group_of_cons_length key_fn key orders Hin). lia.
Qed.

(** The mean of every key, and no other key. *)
Lemma aggregate_mean_by_key_get (orders : list A) :
  (forall o, o ∈ orders -> value_fn o = Ok (vf o)) ->
  exists means,
    aggregate_mean_by_key orders key_fn value_fn = Ok means /\
    forall k,
      dict_get means k =
      if decide (k ∈ key_fn <$> orders)
      then Some (float_sum (vf <$> group_of key_fn k orders)
                 / float_of_int (Z.of_nat (length (group_of key_fn k orders))))
      else None.
Proof.
  intros Hvf. unfold aggregate_mean_by_key.
  rewrite (mean_totals_fold orders Hvf). simpl.
  rewrite mean_of_totals_fold by apply count_fold_pos.
  eexists. split; [done|]. intros k.
  rewrite comprehension_get.
  destruct (decide (k ∈ key_fn <$> orders)) as [Hin|Hin].
  - rewrite decide_True by (by apply sum_fold_keys).
    unfold dd_get. by rewrite sum_fold_get, count_fold_get, !decide_True by done.
  - rewrite decide_False by (by rewrite sum_fold_keys). done.
Qed.
End helpers_facts.

(** C2 (amended): for every key that some record maps to,
    [aggregate_sum_by_key] holds the floating-point sum of the values of
    the records of that key, accumulated in the order of the stream from
    [0.0], and [aggregate_mean_by_key] holds that sum divided by the number
    of those records; no other key has an entry; on the empty sequence both
    return the empty mapping. *)
Theorem sum_and_mean_by_key {A K : Type} `{EqDecision K}
    (orders : list A) (key_fn : A -> K) (vf : A -> float) :
  let value_fn := fun o => Ok (vf o) in
  (exists totals means,
      aggregate_sum_by_key orders key_fn value_fn = Ok totals /\
      aggregate_mean_by_key orders key_fn value_fn = Ok means /\
      forall k,
        let values := vf <$> filter (fun o => key_fn o = k) orders in
        if decide (k ∈ key_fn <$> orders) then
          dict_get totals k = Some (float_sum values) /\
          dict_get means k
          = Some (float_sum values / float_of_int (Z.of_nat (length values)))
        else dict_get totals k = None /\ dict_get means k = None) /\
  aggregate_sum_by_key [] key_fn value_fn = Ok [] /\
  aggregate_mean_by_key [] key_fn value_fn = Ok [].
Proof.
  intros value_fn. split; [|done].
  destruct (aggregate_mean_by_key_get key_fn value_fn vf orders)
    as (means & Hmeans & Hget); [done|].
  exists (sum_fold key_fn vf orders), means. split_and!.
  - by apply aggregate_sum_by_key_fold.
  - done.
  - intros k values. subst values. rewrite length_fmap.
    rewrite sum_fold_get, Hget. by case_decide.
Qed.

(** ** Loops over the items of a dictionary *)

Section dict_loops.
Context {K V W : Type} `{EqDecision K}.

(** [for key, v in d.items(): out[key] = g(key, v)] builds the dictionary
    of the images, in the same order. *)
Lemma dict_map_fold (g : K -> V -> W) (d : dict K V) (acc : dict K W) :
  NoDup (dict_keys acc ++ dict_keys d) ->
  fold_left (fun out '(key, v) => dict_set out key (g key v)) d acc =
  acc ++ map (fun '(key, v) => (key, g key v)) d.
Proof.
  revert acc. induction d as [|[k v] d IH]; intros acc Hnd; simpl.
  - by rewrite app_nil_r.
  - assert (dict_set acc k (g k v) = acc ++ [(k, g k v)]) as ->.
    { clear IH. unfold dict_keys in Hnd. simpl in Hnd.
      apply NoDup_app in Hnd as (_ & Hdisj & _).
      induction acc as [|[k' w'] acc IHacc]; simpl; [done|].
      rewrite decide_False.
      - f_equal. apply IHacc. intros x Hx. apply Hdisj. by right.
      - intros ->. apply (Hdisj k); by left. }
    rewrite IH.
    + by rewrite <- app_assoc.
    + unfold dict_keys in *. rewrite fmap_app. simpl in *.
      by rewrite <- app_assoc.
Qed.

Lemma dict_get_map (g : K -> V -> W) (d : dict K V) (k : K) :
  dict_get (map (fun '(key, v) => (key, g key v)) d) k = g k <$> dict_get d k.
Proof.
  induction d as [|[k' v] d IH]; simpl; [done|].
  destruct (decide (k' = k)) as [->|]; [done|apply IH].
Qed.

Lemma dict_keys_map (g : K -> V -> W) (d : dict K V) :
  dict_keys (map (fun '(key, v) => (key, g key v)) d) = dict_keys d.
Proof.
  unfold dict_keys. induction d as [|[k' v] d IH]; simpl; [done|]. by f_equal.
Qed.
End dict_loops.

(** ** [aggregate_stddev_by_key] *)

Lemma stddev_update_welford (st : Z * float * float) (v : float) :
  (0 <= st.1.1)%Z -> stddev_update st v = Ok (welford_step st v).
Proof.
  destruct st as [[count mean] m2]. simpl. intros Hcount.
  unfold stddev_update, py_truediv_int. rewrite decide_False; [done|lia].
Qed.

Lemma welford_step_count (st : Z * float * float) (v : float) :
  (welford_step st v).1.1 = (st.1.1 + 1)%Z.
Proof. by destruct st as [[count mean] m2]. Qed.

Lemma welford_fold_count (vs : list float) (st : Z * float * float) :
  (fold_left welford_step vs st).1.1 = (st.1.1 + Z.of_nat (length vs))%Z.
Proof.
  revert st. induction vs as [|v vs IH]; intros st; simpl fold_left.
  - simpl. lia.
  - rewrite IH, welford_step_count. simpl length. lia.
Qed.

Lemma welford_count (vs : list float) : (welford vs).1.1 = Z.of_nat (length vs).
Proof. unfold welford. by rewrite welford_fold_count. Qed.

Lemma stddev_denom_pos (sample : bool) (count : Z) :
  (1 <= count)%Z -> (1 <= stddev_denom sample count)%Z.
Proof.
  intros Hc. unfold stddev_denom.
  destruct sample; simpl; [|done]. case_bool_decide; lia.
Qed.

Lemma stddev_denom_singleton (sample : bool) : stddev_denom sample 1 = 1%Z.
Proof. by destruct sample. Qed.

Section stddev_facts.
Context {A K : Type} `{EqDecision K}.
Context (key_fn : A -> K) (value_fn : A -> result float) (vf : A -> float).

Lemma stats_fold_get (orders : list A) (k : K) :
  dict_get (stats_fold key_fn vf orders) k =
  if decide (k ∈ key_fn <$> orders)
  then Some (welford (vf <$> group_of key_fn k orders)) else None.
Proof.
  unfold stats_fold. rewrite keyed_fold_get.
  destruct (group_of key_fn k orders) as [|o l] eqn:E.
  - apply group_of_nil in E. by rewrite decide_False.
  - rewrite decide_True.
    + by rewrite fold_left_fmap.
    + destruct (decide (k ∈ key_fn <$> orders)) as [|Hn]; [done|].
      apply group_of_nil in Hn. congruence.
Qed.

Lemma stats_fold_NoDup (orders : list A) :
  NoDup (dict_keys (stats_fold key_fn vf orders)).
Proof. apply keyed_fold_NoDup. constructor. Qed.

(** Every key of the statistics is the key of a record and has at least
    one observation. *)
Lemma stats_fold_elem (orders : list A) (k : K) (st : Z * float * float) :
  (k, st) ∈ stats_fold key_fn vf orders ->
  k ∈ key_fn <$> orders /\
  st = welford (vf <$> group_of key_fn k orders) /\ (1 <= st.1.1)%Z.
Proof.
  intros Hin. apply (dict_get_NoDup _ _ _ (stats_fold_NoDup orders)) in Hin.
  rewrite stats_fold_get in Hin. case_decide as Hk; [|done].
  injection Hin as <-. split_and!; [done..|].
  rewrite welford_count, length_fmap.
  pose proof (group_of_cons_length key_fn k orders Hk). lia.
Qed.

Lemma stddev_stats_fold (orders : list A) :
  (forall o, o ∈ orders -> value_fn o = Ok (vf o)) ->
  stddev_stats orders key_fn value_fn = Ok (stats_fold key_fn vf orders).
Proof.
  intros Hvf. unfold stddev_stats, stats_fold.
  eapply (for_each_fold
            (fun d : dict K (Z * float * float) =>
               forall k, (0 <= (dd_get d k (0%Z, 0%float, 0%float)).1.1)%Z)).
  - intros k. simpl. lia.
  - intros d o Hd Ho. unfold key_value. rewrite (Hvf o Ho). simpl.
    rewrite stddev_update_welford by apply Hd. simpl. split; [done|].
    intros k. unfold keyed_step, dd_get.
    destruct (decide (key_fn o = k)) as [<-|Hne].
    + rewrite dict_get_set_eq. simpl. rewrite welford_step_count.
      specialize (Hd (key_fn o)). unfold dd_get in Hd. lia.
    + rewrite dict_get_set_ne by done. apply Hd.
Qed.

(** The second loop stores the square root of the variance of every key,
    unless the variance of a key is negative: then [math.sqrt] raises.
    The division does not raise. *)
Lemma stddev_finalize_from (sample : bool) (stats : dict K (Z * float * float))
    (res : dict K float) :
  NoDup (dict_keys res ++ dict_keys stats) ->
  (forall k st, (k, st) ∈ stats -> (1 <= st.1.1)%Z) ->
  for_each (fun res '(key, (count, _, m2)) =>
              if decide (count = 0%Z) then Ok res
              else
                let denom := stddev_denom sample count in
                if decide (denom = 0%Z) then Ok res
                else
                  do variance <- py_truediv_int m2 denom;
                  do sd <- py_sqrt variance;
                  Ok (dict_set res key sd))
           stats res =
  if forallb (fun kst => negb (variance_of sample kst.2 <? 0)) stats
  then Ok (res ++ map (fun '(key, st) => (key, stddev_of sample st)) stats)
  else Raise ValueError.
Proof.
  revert res. induction stats as [|[k [[count mean] m2]] stats IH];
    intros res Hnd Hstats.
  - simpl. by rewrite app_nil_r.
  - cbn [for_each forallb snd].
    assert (1 <= count)%Z as Hc by (apply (Hstats k (count, mean, m2)); by left).
    pose proof (stddev_denom_pos sample count Hc) as Hd.
    rewrite decide_False by lia. cbv zeta. rewrite decide_False by lia.
    unfold py_truediv_int. rewrite decide_False by lia. cbn [rbind].
    unfold py_sqrt.
    change (m2 / float_of_int (stddev_denom sample count))
      with (variance_of sample (count, mean, m2)).
    destruct (variance_of sample (count, mean, m2) <? 0); cbn [rbind negb andb];
      [done|].
    assert (dict_set res k (sqrt (variance_of sample (count, mean, m2)))
            = res ++ [(k, stddev_of sample (count, mean, m2))]) as ->.
    { unfold dict_keys in Hnd. simpl in Hnd.
      apply NoDup_app in Hnd as (_ & Hdisj & _). clear -Hdisj.
      induction res as [|[k' w'] res IHres]; simpl; [done|].
      rewrite decide_False.
      - f_equal. apply IHres. intros x Hx. apply Hdisj. by right.
      - intros ->. apply (Hdisj k); by left. }
    rewrite IH.
    + by rewrite <- app_assoc.
    + unfold dict_keys in *. rewrite fmap_app. simpl in *.
      by rewrite <- app_assoc.
    + intros k' st' Hin. apply (Hstats k'). by right.
Qed.

Lemma stddev_finalize_spec (sample : bool) (orders : list A) :
  let stats := stats_fold key_fn vf orders in
  stddev_finalize sample stats =
  if forallb (fun kst => negb (variance_of sample kst.2 <? 0)) stats
  then Ok (map (fun '(key, st) => (key, stddev_of sample st)) stats)
  else Raise ValueError.
Proof.
  intros stats. unfold stddev_finalize.
  apply (stddev_finalize_from sample stats []).
  - apply stats_fold_NoDup.
  - intros k st Hin. by apply stats_fold_elem in Hin as (_ & _ & ?).
Qed.

Lemma aggregate_stddev_by_key_spec (sample : bool) (orders : list A) :
  (forall o, o ∈ orders -> value_fn o = Ok (vf o)) ->
  let stats := stats_fold key_fn vf orders in
  aggregate_stddev_by_key orders key_fn value_fn sample =
  if forallb (fun kst => negb (variance_of sample kst.2 <? 0)) stats
  then Ok (map (fun '(key, st) => (key, stddev_of sample st)) stats)
  else Raise ValueError.
Proof.
  intros Hvf stats. unfold aggregate_stddev_by_key.
  rewrite (stddev_stats_fold orders Hvf). cbn [rbind].
  apply stddev_finalize_spec.
Qed.

(** A key with a negative variance, if the second loop raises. *)
Lemma negative_variance_key (sample : bool) (orders : list A) :
  forallb (fun kst => negb (variance_of sample kst.2 <? 0))
          (stats_fold key_fn vf orders) = false ->
  exists k, k ∈ key_fn <$> orders /\
    (variance_of sample (welford (vf <$> group_of key_fn k orders)) <? 0) = true.
Proof.
  intros ([k st] & Hin & Hneg)%forallb_false_elem.
  apply stats_fold_elem in Hin as (Hk & -> & _).
  exists k. split; [done|]. simpl in Hneg.
  by destruct (variance_of _ _ <? 0).
Qed.

Lemma nonnegative_variance_key (sample : bool) (orders : list A) (k : K) :
  forallb (fun kst => negb (variance_of sample kst.2 <? 0))
          (stats_fold key_fn vf orders) = true ->
  k ∈ key_fn <$> orders ->
  (variance_of sample (welford (vf <$> group_of key_fn k orders)) <? 0) = false.
Proof.
  intros Hall Hk.
  assert (dict_get (stats_fold key_fn vf orders) k
          = Some (welford (vf <$> group_of key_fn k orders))) as Hget.
  { by rewrite stats_fold_get, decide_True. }
  apply dict_get_elem_of in Hget.
  apply (forallb_true_elem _ _ Hall) in Hget. simpl in Hget.
  by destruct (variance_of _ _ <? 0).
Qed.
End stddev_facts.

(** C1 (amended): the statistics of every key are those of Welford's
    recurrence run in floating point over the values of the records of that
    key, in order; [denom] is [count - 1] when [sample] is true and
    [count > 1] and [count] otherwise, so it is never zero and is 1 for a
    key with one observation in sample mode as in population mode.  When no
    key has a negative [M2 / denom] the function returns, and every key
    that some record maps to is present with [sqrt (M2 / denom)], which is
    0 for a key with one finite observation; when some key has a negative
    [M2 / denom] the function raises [ValueError]. *)
Theorem stddev_by_key_welford {A K : Type} `{EqDecision K}
    (orders : list A) (key_fn : A -> K) (vf : A -> float) (sample : bool) :
  let value_fn := fun o => Ok (vf o) in
  let values := fun k => vf <$> filter (fun o => key_fn o = k) orders in
  let variance := fun k => variance_of sample (welford (values k)) in
  exists stats,
    stddev_stats orders key_fn value_fn = Ok stats /\
    (forall k,
        if decide (k ∈ key_fn <$> orders) then
          let count := Z.of_nat (length (values k)) in
          dict_get stats k = Some (welford (values k)) /\
          (welford (values k)).1.1 = count /\
          stddev_denom sample count
          = (if sample && bool_decide (1 < count)%Z then (count - 1)%Z else count) /\
          (1 <= stddev_denom sample count)%Z /\
          (count = 1%Z -> stddev_denom sample count = 1%Z)
        else dict_get stats k = None) /\
    match aggregate_stddev_by_key orders key_fn value_fn sample with
    | Ok res =>
        forall k,
          if decide (k ∈ key_fn <$> orders) then
            (variance k <? 0) = false /\
            dict_get res k = Some (sqrt (variance k)) /\
            (forall v, values k = [v] -> is_finite v = true ->
                       dict_get res k = Some 0)
          else dict_get res k = None
    | Raise e =>
        e = ValueError /\
        exists k, k ∈ key_fn <$> orders /\ (variance k <? 0) = true
    end.
Proof.
  intros value_fn values variance.
  exists (stats_fold key_fn vf orders). split_and!.
  - by apply stddev_stats_fold.
  - intros k. rewrite stats_fold_get. case_decide as Hk; [|done].
    cbv zeta.
    assert (1 <= Z.of_nat (length (values k)))%Z as Hcount.
    { pose proof (group_of_cons_length key_fn k orders Hk) as Hlen.
      unfold group_of in Hlen. unfold values. rewrite length_fmap. lia. }
    split_and!; [done|apply welford_count|done|by apply stddev_denom_pos|].
    intros ->. apply stddev_denom_singleton.
  - rewrite (aggregate_stddev_by_key_spec key_fn value_fn vf) by done.
    cbv zeta.
    destruct (forallb _ (stats_fold key_fn vf orders)) eqn:Hall.
    + intros k.
      rewrite (dict_get_map (fun _ st => stddev_of sample st)), stats_fold_get.
      case_decide as Hk; [|done]. split_and!.
      * by apply nonnegative_variance_key.
      * done.
      * intros v Hv Hfin. simpl. f_equal. unfold values in Hv.
        unfold group_of. rewrite Hv.
        by apply stddev_of_singleton.
    + split; [done|]. by apply negative_variance_key.
Qed.

(** ** A constant key *)

Lemma group_of_const {A K : Type} `{EqDecision K} (c : K) (l : list A) :
  group_of (fun _ => c) c l = l.
Proof.
  unfold group_of. induction l as [|x l IH]; [done|].
  rewrite filter_cons_True by done. by f_equal.
Qed.

Lemma sum_fold_const {A K : Type} `{EqDecision K} (c : K) (vf : A -> float) (l : list A) :
  dd_get (sum_fold (fun _ => c) vf l) c 0 = float_sum (vf <$> l).
Proof.
  unfold dd_get. rewrite sum_fold_get, group_of_const.
  destruct l as [|x l].
  - rewrite decide_False; [done|]. rewrite fmap_nil. apply not_elem_of_nil.
  - rewrite decide_True; [done|]. rewrite fmap_cons. by left.
Qed.

Lemma py_truediv_Ok (a b : float) : (b =? 0) = false -> py_truediv a b = Ok (a / b).
Proof. intros Hb. unfold py_truediv. by rewrite Hb. Qed.

(** ** Discounted profit *)

Lemma total_discounted_profit_sum (source : list Order) :
  total_discounted_profit source
  = Ok (float_sum (profit <$> filter discounted source)).
Proof.
  unfold total_discounted_profit.
  rewrite (aggregate_sum_by_key_fold _ _ profit) by done. simpl.
  by rewrite sum_fold_const.
Qed.

Lemma discounted_profit_share_value (source : list Order) :
  discounted_profit_share source =
  Ok (if float_sum (profit <$> source) =? 0 then None
      else Some (float_sum (profit <$> filter discounted source)
                 / float_sum (profit <$> source))).
Proof.
  unfold discounted_profit_share. rewrite total_discounted_profit_sum. simpl.
  rewrite (aggregate_sum_by_key_fold _ _ profit) by done. simpl.
  rewrite sum_fold_const. unfold truthy.
  destruct (float_sum (profit <$> source) =? 0) eqn:Ht; [done|].
  simpl. by rewrite py_truediv_Ok.
Qed.

(** C7: [total_discounted_profit] is the sum of the profit of exactly the
    records whose discount is greater than zero, and
    [discounted_profit_share] is that sum divided by the sum of the profit
    of all records, or [None] exactly when the latter sum is zero.  The
    sums are those of Python: floats added in the order of the stream,
    from [0.0]. *)
Theorem discounted_profit_and_share (source : list Order) :
  let discounted :=
    float_sum (profit <$> filter (fun o => Is_true (0 <? discount o)) source) in
  let total := float_sum (profit <$> source) in
  total_discounted_profit source = Ok discounted /\
  discounted_profit_share source =
    Ok (if total =? 0 then None else Some (discounted / total)).
Proof.
  intros discounted total. split.
  - apply total_discounted_profit_sum.
  - apply discounted_profit_share_value.
Qed.

(** ** Exceptions of the value function *)

Lemma for_each_app {A S : Type} (body : S -> A -> result S) (xs ys : list A) (s : S) :
  for_each body (xs ++ ys) s = do s' <- for_each body xs s; for_each body ys s'.
Proof.
  revert s. induction xs as [|x xs IH]; intros s; simpl; [done|].
  destruct (body s x); simpl; [apply IH|done].
Qed.

(** A loop raises [e] when its body raises nothing else and raises [e] on
    some element, whatever the state. *)
Lemma for_each_raises {A S : Type} (body : S -> A -> result S) (e : exn)
    (xs : list A) (s : S) :
  (forall s x, x ∈ xs -> (exists s', body s x = Ok s') \/ body s x = Raise e) ->
  (exists x, x ∈ xs /\ forall s, body s x = Raise e) ->
  for_each body xs s = Raise e.
Proof.
  revert s. induction xs as [|x xs IH]; intros s Hbody (y & Hy & Hraise).
  { by apply elem_of_nil in Hy. }
  simpl. destruct (Hbody s x) as [[s' Hs']| ->]; [by left| |done].
  rewrite Hs'. simpl. apply elem_of_cons in Hy as [->|Hy].
  - rewrite Hraise in Hs'. done.
  - apply IH; [|by eauto]. intros s0 x0 ?. apply Hbody. by right.
Qed.

Lemma aggregate_mean_by_key_raises {A K : Type} `{EqDecision K} (orders : list A)
    (key_fn : A -> K) (value_fn : A -> result float) (e : exn) :
  (forall o, o ∈ orders -> (exists v, value_fn o = Ok v) \/ value_fn o = Raise e) ->
  (exists o, o ∈ orders /\ value_fn o = Raise e) ->
  aggregate_mean_by_key orders key_fn value_fn = Raise e.
Proof.
  intros Hvf (o & Ho & Hraise). unfold aggregate_mean_by_key, mean_totals.
  rewrite (for_each_raises _ e); [done| |].
  - intros [total count] x Hx. unfold key_value.
    destruct (Hvf x Hx) as [[v ->]| ->]; [left|by right]. simpl. eauto.
  - exists o. split; [done|]. intros [total count]. unfold key_value.
    by rewrite Hraise.
Qed.

(** ** Fulfillment time *)

Lemma fulfillment_days_pair (o : Order) (d s : datetime) :
  order_date o = Some d -> ship_date o = Some s ->
  fulfillment_days o =
  if same_awareness (d, s) then Ok (days_between (d, s)) else Raise TypeError.
Proof.
  intros Hd Hs. unfold fulfillment_days, same_awareness, days_between, instant.
  rewrite Hd, Hs. unfold datetime_sub. simpl.
  destruct (utcoffset d) as [od|], (utcoffset s) as [os|]; simpl; try done.
  by rewrite Z.sub_0_r, Z.sub_0_r.
Qed.

Lemma has_dates_pair (o : Order) :
  has_dates o -> exists d s, order_date o = Some d /\ ship_date o = Some s.
Proof. intros [[d ?] [s ?]]. eauto. Qed.

Lemma with_dates_pairs (source : list Order) :
  fulfillment_value <$> filter has_dates source
  = days_between <$> date_pairs source.
Proof.
  unfold date_pairs. induction source as [|o source IH]; [done|].
  rewrite filter_cons. simpl omap.
  destruct (decide (has_dates o)) as [[[d Hd] [s Hs]]|Hno].
  - rewrite fmap_cons, IH. unfold fulfillment_value at 1.
    by rewrite Hd, Hs, fmap_cons.
  - rewrite IH. unfold has_dates in Hno.
    destruct (order_date o) as [d|], (ship_date o) as [s|]; try done.
    exfalso. apply Hno. split; eauto.
Qed.

Lemma date_pairs_elem (source : list Order) (p : datetime * datetime) :
  p ∈ date_pairs source <->
  exists o, o ∈ source /\ order_date o = Some p.1 /\ ship_date o = Some p.2.
Proof.
  unfold date_pairs. rewrite list_elem_of_omap. split.
  - intros (o & Ho & Hp). exists o. split; [done|].
    destruct (order_date o), (ship_date o); try done. by injection Hp as <-.
  - intros (o & Ho & Hd & Hs). exists o. split; [done|].
    rewrite Hd, Hs. by destruct p.
Qed.

Lemma average_fulfillment_days_value (source : list Order) :
  let days := days_between <$> date_pairs source in
  average_fulfillment_days source =
  if forallb same_awareness (date_pairs source) then
    Ok (match days with
        | [] => None
        | _ :: _ => Some (float_sum days / float_of_int (Z.of_nat (length days)))
        end)
  else Raise TypeError.
Proof.
  intros days. unfold average_fulfillment_days.
  destruct (forallb same_awareness (date_pairs source)) eqn:Hall.
  - destruct (aggregate_mean_by_key_get (fun _ => "all"%string) fulfillment_days
                fulfillment_value (filter has_dates source))
      as (means & -> & Hget).
    { intros o [(d & s & Hd & Hs)%has_dates_pair Ho]%list_elem_of_filter.
      rewrite (fulfillment_days_pair o d s Hd Hs).
      rewrite (forallb_true_elem _ _ Hall (d, s)).
      - unfold fulfillment_value. by rewrite Hd, Hs.
      - apply date_pairs_elem. by exists o. }
    simpl. rewrite Hget, group_of_const, with_dates_pairs. fold days.
    assert (length (filter has_dates source) = length days) as ->.
    { subst days. by rewrite <- with_dates_pairs, length_fmap. }
    f_equal. destruct (filter has_dates source) as [|o l] eqn:E.
    + assert (days = []) as -> by (subst days; by rewrite <- with_dates_pairs, E).
      rewrite decide_False; [done|]. rewrite fmap_nil. apply not_elem_of_nil.
    + assert (days <> []) by (subst days; by rewrite <- with_dates_pairs, E).
      rewrite decide_True by (rewrite fmap_cons; by left).
      by destruct days.
  - rewrite (aggregate_mean_by_key_raises _ _ _ TypeError); [done| |].
    + intros o [(d & s & Hd & Hs)%has_dates_pair Ho]%list_elem_of_filter.
      rewrite (fulfillment_days_pair o d s Hd Hs).
      destruct (same_awareness (d, s)); [left; eauto|by right].
    + apply forallb_false_elem in Hall as ([d s] & Hin & Hmixed).
      apply date_pairs_elem in Hin as (o & Ho & Hd & Hs). simpl in Hd, Hs.
      exists o. split.
      * apply list_elem_of_filter. split; [|done]. split; eauto.
      * by rewrite (fulfillment_days_pair o d s Hd Hs), Hmixed.
Qed.

(** C8 (amended): when every record that has both dates has two naive or
    two offset-aware dates, [average_fulfillment_days] is the mean over
    those records of [ship_date - order_date] in days, computed in floating
    point (the sum in the order of the stream, divided by the number of
    those records), and [None] exactly when no record has both dates;
    records without one of the dates contribute nothing.  When some record
    has a naive and an offset-aware date, the function raises
    [TypeError]. *)
Theorem average_fulfillment_days_mean (source : list Order) :
  let pairs := date_pairs source in
  let days := days_between <$> pairs in
  average_fulfillment_days source =
    if forallb same_awareness pairs then
      Ok (match days with
          | [] => None
          | _ :: _ => Some (float_sum days / float_of_int (Z.of_nat (length days)))
          end)
    else Raise TypeError.
Proof. intros pairs days. apply average_fulfillment_days_value. Qed.

(** ** Profit margin *)

Lemma group_of_cat_subcat (key : string * string) (source : list Order) :
  group_of cat_subcat key source = records_of key source.
Proof.
  unfold group_of, records_of, cat_subcat. apply list_filter_iff.
  intros o. destruct key as [c s]. simpl. split; [by intros [= -> ->]|].
  by intros [-> ->].
Qed.

Lemma cat_subcat_elem (key : string * string) (source : list Order) :
  key ∈ cat_subcat <$> source <-> records_of key source <> [].
Proof.
  rewrite <- group_of_cat_subcat.
  pose proof (group_of_nil cat_subcat key source) as Hnil.
  destruct (decide (key ∈ cat_subcat <$> source)) as [Hin|Hin].
  - split; [|done]. intros _ Hg. by apply Hnil in Hg.
  - split; [done|]. intros Hg. destruct Hg. by apply Hnil.
Qed.

Lemma profit_margin_map (source : list Order) :
  let total_sales := sum_fold cat_subcat sales source in
  let total_profit := sum_fold cat_subcat profit source in
  profit_margin_by_category_subcategory source =
  Ok (map (fun '(key, s) => (key, margin_of total_profit key s)) total_sales).
Proof.
  intros total_sales total_profit. unfold profit_margin_by_category_subcategory.
  rewrite (aggregate_sum_by_key_fold _ _ sales) by done. simpl.
  rewrite (aggregate_sum_by_key_fold _ _ profit) by done. simpl.
  fold total_sales total_profit.
  rewrite <- (app_nil_l (map _ total_sales)).
  rewrite <- (dict_map_fold (margin_of total_profit))
    by apply sum_fold_NoDup.
  eapply (for_each_fold (fun _ => True)); [done|].
  intros margins [key s] _ _. split; [|done]. unfold margin_of, truthy.
  destruct (s =? 0) eqn:Hs; [done|]. simpl. by rewrite py_truediv_Ok.
Qed.

(** The margin of every key. *)
Lemma margins_get (source : list Order) (key : string * string) :
  exists margins,
    profit_margin_by_category_subcategory source = Ok margins /\
    NoDup (dict_keys margins) /\
    dict_keys margins = dict_keys (sum_fold cat_subcat sales source) /\
    dict_get margins key =
    match records_of key source with
    | [] => None
    | _ :: _ =>
        let s := float_sum (sales <$> records_of key source) in
        let p := float_sum (profit <$> records_of key source) in
        Some (if s =? 0 then None else Some (p / s))
    end.
Proof.
  eexists. split; [apply profit_margin_map|].
  rewrite (dict_keys_map (margin_of (sum_fold cat_subcat profit source))).
  split; [apply sum_fold_NoDup|]. split; [done|].
  rewrite (dict_get_map (margin_of (sum_fold cat_subcat profit source))).
  rewrite sum_fold_get, group_of_cat_subcat.
  case_decide as Hk.
  - apply cat_subcat_elem in Hk.
    destruct (records_of key source) as [|o l] eqn:E; [done|].
    simpl. unfold margin_of, dd_get.
    rewrite sum_fold_get, group_of_cat_subcat, E, decide_True; [done|].
    apply cat_subcat_elem. by rewrite E.
  - destruct (records_of key source) as [|o l] eqn:E; [done|].
    exfalso. apply Hk, cat_subcat_elem. by rewrite E.
Qed.

(** C5: the keys of the result of [profit_margin_by_category_subcategory]
    are the keys of the sales totals, the (category, sub_category) pairs of
    the records; the totals of a key are the sums of the sales and of the
    profit of its records, floats added in the order of the stream; a key
    maps to its total profit divided by its total sales when its total
    sales are not zero and to [None] exactly when they are zero; a pair of
    no record is in neither mapping, so that no key of the profit totals
    that the sales totals lack is in the result. *)
Theorem profit_margin_keys_and_values (source : list Order) :
  exists total_sales total_profit margins,
    aggregate_sum_by_key source (fun o => (category o, sub_category o)) (attr sales)
    = Ok total_sales /\
    aggregate_sum_by_key source (fun o => (category o, sub_category o)) (attr profit)
    = Ok total_profit /\
    profit_margin_by_category_subcategory source = Ok margins /\
    dict_keys margins = dict_keys total_sales /\
    NoDup (dict_keys margins) /\
    forall c s,
      let records :=
        filter (fun o => category o = c /\ sub_category o = s) source in
      match records with
      | [] =>
          dict_get total_sales (c, s) = None /\
          dict_get total_profit (c, s) = None /\
          dict_get margins (c, s) = None
      | _ :: _ =>
          let sales_total := float_sum (sales <$> records) in
          let profit_total := float_sum (profit <$> records) in
          dict_get total_sales (c, s) = Some sales_total /\
          dict_get total_profit (c, s) = Some profit_total /\
          dict_get margins (c, s)
          = Some (if sales_total =? 0 then None
                  else Some (profit_total / sales_total))
      end.
Proof.
  exists (sum_fold cat_subcat sales source), (sum_fold cat_subcat profit source).
  destruct (margins_get source ("", "")%string) as (margins & Hm & Hnd & Hkeys & _).
  exists margins. split_and!.
  - by apply (aggregate_sum_by_key_fold _ _ sales).
  - by apply (aggregate_sum_by_key_fold _ _ profit).
  - done.
  - done.
  - done.
  - intros c s records.
    destruct (margins_get source (c, s)) as (margins' & Hm' & _ & _ & Hget).
    assert (margins' = margins) as -> by congruence.
    rewrite !sum_fold_get, Hget, !group_of_cat_subcat.
    change (records_of (c, s) source) with records.
    pose proof (cat_subcat_elem (c, s) source) as Hk.
    change (records_of (c, s) source) with records in Hk.
    destruct records as [|o l] eqn:E.
    + rewrite !decide_False by (rewrite Hk; tauto). done.
    + rewrite !decide_True by (by rewrite Hk). done.
Qed.
(** ** [sorted] *)

Section sorted_facts.
Context {A : Type} (before : A -> A -> bool).

Lemma insort_perm (x : A) (l : list A) : insort before x l ≡ₚ x :: l.
Proof.
  induction l as [|y l IH]; simpl; [done|].
  destruct (before y x); [|done].
  rewrite IH. apply Permutation_swap.
Qed.

Lemma insort_sorted_perm (l : list A) : foldr (insort before) [] l ≡ₚ l.
Proof.
  induction l as [|x l IH]; simpl; [done|].
  by rewrite insort_perm, IH.
Qed.

(** The sort puts the elements of [P] in order when the comparison is
    asymmetric and its negation is transitive on [P]; [le_of before x y]
    says that [y] does not have to go before [x]. *)
Context (P : A -> Prop).
Hypothesis before_asym : forall x y, before x y = true -> before y x = false.
Hypothesis le_trans :
  forall x y z, P x -> P y -> P z ->
                le_of before x y -> le_of before y z -> le_of before x z.

Lemma insort_sorted (x : A) (l : list A) :
  P x -> Forall P l ->
  StronglySorted (le_of before) l -> StronglySorted (le_of before) (insort before x l).
Proof.
  intros Hx. induction l as [|y l IH]; simpl; intros HP Hl.
  - repeat constructor.
  - apply Forall_cons in HP as [Py HP].
    apply StronglySorted_cons in Hl as [Hy Hl].
    destruct (before y x) eqn:E.
    + apply StronglySorted_cons. split; [|by apply IH].
      rewrite insort_perm. constructor; [|done].
      by apply before_asym.
    + apply StronglySorted_cons. split.
      * constructor; [done|].
        rewrite Forall_forall in Hy, HP. apply Forall_forall. intros z Hz.
        apply (le_trans x y z); auto.
      * by apply StronglySorted_cons.
Qed.

Lemma insort_sorted_all (l : list A) :
  Forall P l -> StronglySorted (le_of before) (foldr (insort before) [] l).
Proof.
  induction l as [|x l IH]; simpl; [constructor|].
  intros [Hx Hl]%Forall_cons. apply insort_sorted; [done| |by apply IH].
  by rewrite insort_sorted_perm.
Qed.
End sorted_facts.

Lemma StronglySorted_mono {A : Type} (R1 R2 : A -> A -> Prop) (l : list A) :
  (forall x y, R1 x y -> R2 x y) -> StronglySorted R1 l -> StronglySorted R2 l.
Proof.
  intros HR. induction 1 as [|x l Hl IH Hx]; constructor; [done|].
  eapply Forall_impl; [exact Hx|]. auto.
Qed.

Lemma py_sorted_perm {A : Type} (lt : A -> A -> bool) (reverse : bool) (l : list A) :
  py_sorted lt reverse l ≡ₚ l.
Proof. apply insort_sorted_perm. Qed.

Lemma Forall_True {A : Type} (l : list A) : Forall (fun _ => True) l.
Proof. by apply Forall_forall. Qed.

(** Ascending order of an integer key. *)
Lemma py_sorted_ascending {A : Type} (key : A -> Z) (l : list A) :
  StronglySorted (fun x y => (key x <= key y)%Z)
    (py_sorted (fun x y => (key x <? key y)%Z) false l).
Proof.
  eapply StronglySorted_mono;
    [|apply (insort_sorted_all _ (fun _ => True)); [| |apply Forall_True]].
  - intros x y. unfold le_of. lia.
  - intros x y. lia.
  - unfold le_of. intros x y z _ _ _. lia.
Qed.

(** Descending order of a float key, when no key is NaN. *)
Lemma py_sorted_descending {A : Type} (key : A -> float) (l : list A) :
  Forall (fun x => is_nan (key x) = false) l ->
  StronglySorted (fun x y => float_le (key y) (key x))
    (py_sorted (fun x y => key x <? key y) true l).
Proof.
  intros Hl.
  eapply StronglySorted_mono;
    [|apply (insort_sorted_all _ (fun x => is_nan (key x) = false)); [| |done]].
  - intros x y. by unfold le_of, float_le.
  - intros x y. apply ltb_asym.
  - unfold le_of. intros x y z Hx Hy Hz Hxy Hyz.
    by apply (float_le_trans (key z) (key y) (key x)).
Qed.

(** ** [yoy_category_sales_trends] *)

Lemma yoy_rows_entries (prev : option float) (entries : list (Z * float)) :
  (fun row => (row_year row, row_sales row)) <$> yoy_rows prev entries = entries.
Proof.
  revert prev. induction entries as [|[y s] es IH]; intros prev; simpl; [done|].
  by rewrite IH.
Qed.

Lemma yoy_rows_first (prev : option float) (entries : list (Z * float)) (row : yoy_row) :
  yoy_rows prev entries !! 0%nat = Some row -> row_prev row = prev.
Proof. destruct entries as [|[y s] es]; simpl; [done|]. by intros [= <-]. Qed.

Lemma yoy_rows_next (prev : option float) (entries : list (Z * float)) (i : nat)
    (row row' : yoy_row) :
  yoy_rows prev entries !! i = Some row ->
  yoy_rows prev entries !! S i = Some row' ->
  row_prev row' = Some (row_sales row) /\
  row_change row' = yoy_change_of (row_sales row) (row_sales row').
Proof.
  revert prev i. induction entries as [|[y s] es IH]; intros prev i; simpl; [done|].
  destruct i as [|i]; simpl.
  - intros [= <-]. destruct es as [|[y' s'] es]; simpl; [done|].
    by intros [= <-].
  - apply IH.
Qed.

Lemma yoy_walk (entries : list (Z * float)) (trends : list yoy_row)
    (prev : option float) :
  exists prev',
    for_each yoy_step entries (trends, prev)
    = Ok (trends ++ yoy_rows prev entries, prev').
Proof.
  revert trends prev. induction entries as [|[y s] es IH]; intros trends prev.
  - exists prev. simpl. by rewrite app_nil_r.
  - set (row := (y, s, prev, match prev with
                              | Some p => yoy_change_of p s
                              | None => None
                              end) : yoy_row).
    assert (yoy_step (trends, prev) (y, s) = Ok (trends ++ [row], Some s)) as Hstep.
    { unfold yoy_step, row, yoy_change_of. destruct prev as [p|]; [|done].
      destruct (p =? 0) eqn:Hp; [done|]. simpl. by rewrite py_truediv_Ok. }
    destruct (IH (trends ++ [row]) (Some s)) as [prev' Hwalk].
    exists prev'. cbn [for_each yoy_rows]. rewrite Hstep. cbn [rbind].
    rewrite Hwalk. by rewrite <- app_assoc.
Qed.

Lemma yoy_trends_rows (entries : list (Z * float)) :
  yoy_trends entries
  = Ok (yoy_rows None (py_sorted (fun x y => (x.1 <? y.1)%Z) false entries)).
Proof.
  unfold yoy_trends.
  destruct (yoy_walk (py_sorted (fun x y => (x.1 <? y.1)%Z) false entries) [] None)
    as [prev' ->]. done.
Qed.

Lemma fold_left_ext {A S : Type} (f g : S -> A -> S) (l : list A) (s : S) :
  (forall s x, f s x = g s x) -> fold_left f l s = fold_left g l s.
Proof.
  intros Hfg. revert s. induction l as [|x l IH]; intros s; simpl; [done|].
  by rewrite Hfg, IH.
Qed.

Lemma yoy_grouped_fold (totals : dict (Z * string * string) float) :
  yoy_grouped totals
  = fold_left (keyed_step yoy_key (fun l item => l ++ [yoy_entry item]) []) totals [].
Proof.
  unfold yoy_grouped. apply fold_left_ext.
  by intros grouped [[[y r] c] s].
Qed.

Lemma fold_left_snoc {A B : Type} (g : A -> B) (l : list A) (acc : list B) :
  fold_left (fun l x => l ++ [g x]) l acc = acc ++ (g <$> l).
Proof.
  revert acc. induction l as [|x l IH]; intros acc; simpl.
  - by rewrite app_nil_r.
  - by rewrite IH, <- app_assoc.
Qed.

Lemma yoy_grouped_get (totals : dict (Z * string * string) float) (key : string * string) :
  dict_get (yoy_grouped totals) key =
  if decide (key ∈ yoy_key <$> totals)
  then Some (yoy_entry <$> group_of yoy_key key totals) else None.
Proof.
  rewrite yoy_grouped_fold, keyed_fold_get.
  destruct (group_of yoy_key key totals) as [|item l] eqn:E.
  - apply group_of_nil in E. by rewrite decide_False.
  - rewrite decide_True.
    + by rewrite fold_left_snoc.
    + destruct (decide (key ∈ yoy_key <$> totals)) as [|Hn]; [done|].
      apply group_of_nil in Hn. congruence.
Qed.

Lemma yoy_grouped_NoDup (totals : dict (Z * string * string) float) :
  NoDup (dict_keys (yoy_grouped totals)).
Proof. rewrite yoy_grouped_fold. apply keyed_fold_NoDup. constructor. Qed.

(** The entries of a group are the totals of its years, one per year. *)
Lemma yoy_entries_totals (totals : dict (Z * string * string) float)
    (region category : string) :
  NoDup (dict_keys totals) ->
  let entries := yoy_entry <$> group_of yoy_key (region, category) totals in
  (forall y s, (y, s) ∈ entries <-> dict_get totals (y, region, category) = Some s) /\
  NoDup (entries.*1).
Proof.
  intros Hnd entries. split.
  - intros y s. subst entries. rewrite list_elem_of_fmap. split.
    + intros ([[[y' r'] c'] s'] & [= -> ->] & Hin).
      apply list_elem_of_filter in Hin as [[= -> ->] Hin].
      by apply dict_get_NoDup.
    + intros Hget%dict_get_elem_of. exists (y, region, category, s).
      split; [done|]. by apply list_elem_of_filter.
  - subst entries. unfold dict_keys in Hnd. unfold group_of.
    induction totals as [|[[[y r] c] s] totals IH]; [constructor|].
    apply NoDup_cons in Hnd as [Hnotin Hnd]. rewrite filter_cons.
    case_decide as Hkey; [|by apply IH].
    injection Hkey as -> ->. rewrite !fmap_cons. apply NoDup_cons.
    split; [|by apply IH]. simpl. intros Hin. apply Hnotin.
    apply list_elem_of_fmap in Hin as ([y' s'] & Hy & Hin). simpl in Hy. subst y'.
    apply list_elem_of_fmap in Hin as ([[[y'' r''] c''] s''] & Hen & Hin).
    apply list_elem_of_filter in Hin as [Hk Hin].
    unfold yoy_entry in Hen. unfold yoy_key in Hk. simpl in Hen, Hk.
    injection Hen as <- <-. injection Hk as -> ->.
    apply list_elem_of_fmap. by exists (y, region, category, s').
Qed.

Lemma sorted_distinct_strict {A : Type} (key : A -> Z) (l : list A) :
  StronglySorted (fun x y => (key x <= key y)%Z) l ->
  NoDup (key <$> l) ->
  StronglySorted Z.lt (key <$> l).
Proof.
  induction 1 as [|x l Hl IH Hx]; intros Hnd; [constructor|].
  rewrite fmap_cons in *. apply NoDup_cons in Hnd as [Hnotin Hnd].
  constructor; [by apply IH|].
  apply Forall_fmap, Forall_forall. intros y Hy. simpl.
  rewrite Forall_forall in Hx. specialize (Hx y Hy).
  assert (key x <> key y); [|lia].
  intros Heq. apply Hnotin. rewrite Heq. apply list_elem_of_fmap. eauto.
Qed.

Lemma yoy_results (source : list Order) :
  let totals := sum_fold (fun o => (year o, market o, category o)) sales source in
  yoy_category_sales_trends source =
  Ok (map (fun '(key, entries) =>
             (key, yoy_rows None
                     (py_sorted (fun x y => (x.1 <? y.1)%Z) false entries)))
          (yoy_grouped totals)).
Proof.
  intros totals. unfold yoy_category_sales_trends, sales_by_year_region_category.
  rewrite (aggregate_sum_by_key_fold _ _ sales) by done. simpl. fold totals.
  rewrite <- (app_nil_l (map _ (yoy_grouped totals))).
  rewrite <- (dict_map_fold
                (fun _ entries =>
                   yoy_rows None
                     (py_sorted (fun x y => (x.1 <? y.1)%Z) false entries)))
    by apply yoy_grouped_NoDup.
  eapply (for_each_fold (fun _ => True)); [done|].
  intros res [key entries] _ _. split; [|done].
  by rewrite yoy_trends_rows.
Qed.


(** The totals of a year, a region and a category. *)
Lemma group_of_year_region_category (y : Z) (region cat : string)
    (source : list Order) :
  group_of (fun o => (year o, market o, category o)) (y, region, cat) source
  = records_in y region cat source.
Proof.
  unfold group_of, records_in. apply list_filter_iff.
  intros o. split; [by intros [= -> -> ->]|]. by intros (-> & -> & ->).
Qed.

Lemma sales_totals_get (source : list Order) (y : Z) (region cat : string) (s : float) :
  dict_get (sum_fold (fun o => (year o, market o, category o)) sales source)
           (y, region, cat) = Some s <->
  records_in y region cat source <> [] /\
  s = float_sum (sales <$> records_in y region cat source).
Proof.
  rewrite sum_fold_get, group_of_year_region_category.
  pose proof (group_of_nil (fun o => (year o, market o, category o))
                (y, region, cat) source) as Hnil.
  rewrite group_of_year_region_category in Hnil.
  case_decide as Hk.
  - split.
    + intros [= <-]. split; [|done]. intros Hg. by apply Hnil in Hg.
    + by intros [_ ->].
  - split; [done|]. intros [Hg _]. destruct Hg. by apply Hnil.
Qed.

(** C3 (amended): the result of [yoy_category_sales_trends] has one group
    per (region, category) of the records; the rows of a group are the
    sales totals of the records of that group, one row per year, in
    ascending order of the year, each total the floating-point sum of the
    sales of the records of that year in the order of the stream; the
    first row has no previous sales and no change; every later row carries
    the sales of the row before it as previous sales, and its change is the
    floating-point quotient [(sales - prev_sales) / prev_sales] when the
    previous sales are not zero and [None] when they are zero.  The query
    does not raise. *)
Theorem yoy_trends_by_group (source : list Order) :
  exists res,
    yoy_category_sales_trends source = Ok res /\
    NoDup (dict_keys res) /\
    (forall region cat,
        is_Some (dict_get res (region, cat)) <->
        exists o, o ∈ source /\ market o = region /\ category o = cat) /\
    forall region cat rows,
      dict_get res (region, cat) = Some rows ->
      (forall y s,
          let records :=
            filter (fun o => year o = y /\ market o = region /\ category o = cat)
                   source in
          (y, s) ∈ (fun row => (row_year row, row_sales row)) <$> rows <->
          records <> [] /\ s = float_sum (sales <$> records)) /\
      StronglySorted Z.lt (row_year <$> rows) /\
      (forall row,
          rows !! 0%nat = Some row ->
          row_prev row = None /\ row_change row = None) /\
      (forall i row row',
          rows !! i = Some row -> rows !! S i = Some row' ->
          row_prev row' = Some (row_sales row) /\
          row_change row' =
            if row_sales row =? 0 then None
            else Some ((row_sales row' - row_sales row) / row_sales row)).
Proof.
  set (totals := sum_fold (fun o => (year o, market o, category o)) sales source).
  assert (NoDup (dict_keys totals)) as Hnd by apply sum_fold_NoDup.
  eexists. split_and!.
  - apply yoy_results.
  - fold totals.
    rewrite (dict_keys_map
               (fun _ entries =>
                  yoy_rows None
                    (py_sorted (fun x y => (x.1 <? y.1)%Z) false entries))).
    apply yoy_grouped_NoDup.
  - intros region cat. fold totals.
    rewrite (dict_get_map
               (fun _ entries =>
                  yoy_rows None
                    (py_sorted (fun x y => (x.1 <? y.1)%Z) false entries))).
    rewrite fmap_is_Some, yoy_grouped_get.
    destruct (decide ((region, cat) ∈ yoy_key <$> totals)) as [Hin|Hin].
    + split; [intros _|by eauto].
      apply list_elem_of_fmap in Hin as ([[[y r] c] s] & [= -> ->] & Hin).
      assert ((y, r, c) ∈ dict_keys totals) as Hk.
      { apply list_elem_of_fmap. by exists (y, r, c, s). }
      apply sum_fold_keys, list_elem_of_fmap in Hk as (o & [= -> -> ->] & Ho).
      by exists o.
    + split; [by intros [? ?]|]. intros (o & Ho & <- & <-). exfalso. apply Hin.
      assert ((year o, market o, category o) ∈ dict_keys totals) as Hk.
      { apply sum_fold_keys, list_elem_of_fmap. by exists o. }
      apply list_elem_of_fmap in Hk as ([k s] & Hk & Hks). simpl in Hk. subst k.
      apply list_elem_of_fmap. by exists (year o, market o, category o, s).
  - intros region cat rows. fold totals.
    rewrite (dict_get_map
               (fun _ entries =>
                  yoy_rows None
                    (py_sorted (fun x y => (x.1 <? y.1)%Z) false entries))).
    rewrite yoy_grouped_get. case_decide as Hin; [|done].
    simpl. intros [= <-].
    destruct (yoy_entries_totals totals region cat Hnd) as [Hentries Hyears].
    set (entries := yoy_entry <$> group_of yoy_key (region, cat) totals) in *.
    set (sorted := py_sorted (fun x y => (x.1 <? y.1)%Z) false entries).
    assert (sorted ≡ₚ entries) as Hperm by apply py_sorted_perm.
    split_and!.
    + intros y s. cbv zeta. rewrite yoy_rows_entries, Hperm, Hentries.
      apply sales_totals_get.
    + assert (row_year <$> yoy_rows None sorted = sorted.*1) as ->.
      { rewrite <- (yoy_rows_entries None sorted) at 2.
        rewrite <- list_fmap_compose. done. }
      apply (sorted_distinct_strict fst).
      * apply (py_sorted_ascending fst).
      * by rewrite Hperm.
    + intros row Hrow. split; [by apply yoy_rows_first in Hrow|].
      destruct sorted as [|[y s] es]; simpl in Hrow; [done|].
      by injection Hrow as <-.
    + intros i row row' Hrow Hrow'.
      by destruct (yoy_rows_next _ _ _ _ _ Hrow Hrow') as [-> ->].
Qed.
(** ** Lists as arrays *)

Lemma getitem_Ok {A : Type} (l : list A) (i : nat) (x : A) :
  l !! i = Some x -> getitem l i = Ok x.
Proof. unfold getitem. by intros ->. Qed.

Lemma setitem_Ok {A : Type} (l : list A) (i : nat) (x : A) :
  (i < length l)%nat -> setitem l i x = Ok (<[i := x]> l).
Proof. intros Hi. unfold setitem. by rewrite decide_True. Qed.

(** Overwriting one element replaces it in the multiset of the elements. *)
Lemma insert_replace_perm {A : Type} (l : list A) (i : nat) (a x : A) :
  l !! i = Some a -> a :: <[i := x]> l ≡ₚ x :: l.
Proof.
  revert i. induction l as [|y l IH]; intros [|i]; simpl; try done.
  - intros [= ->]. apply Permutation_swap.
  - intros Hi. etrans; [apply Permutation_swap|].
    etrans; [apply Permutation_skip, (IH i Hi)|]. apply Permutation_swap.
Qed.

(** Exchanging two elements is a permutation. *)
Lemma insert_swap_perm {A : Type} (l : list A) (i j : nat) (a b : A) :
  i <> j -> l !! i = Some a -> l !! j = Some b ->
  <[i := b]> (<[j := a]> l) ≡ₚ l.
Proof.
  intros Hne Hi Hj.
  apply (Permutation_cons_inv (a:=a)).
  rewrite (insert_replace_perm (<[j := a]> l) i a b)
    by (by rewrite list_lookup_insert_ne).
  by apply insert_replace_perm.
Qed.

Lemma parent_lt (i : nat) : (1 <= i)%nat -> (parent i < i)%nat.
Proof. unfold parent. intros Hi. apply Nat.Div0.div_lt_upper_bound. lia. Qed.

Lemma parent_child (i : nat) :
  (1 <= i)%nat -> i = (2 * parent i + 1)%nat \/ i = (2 * parent i + 2)%nat.
Proof.
  unfold parent. intros Hi.
  pose proof (Nat.div_mod_eq (i - 1) 2) as Hdm.
  pose proof (Nat.mod_upper_bound (i - 1) 2). lia.
Qed.

Lemma parent_left (p : nat) : parent (2 * p + 1) = p.
Proof.
  unfold parent. replace (2 * p + 1 - 1)%nat with (p * 2)%nat by lia.
  by rewrite Nat.div_mul.
Qed.

Lemma parent_right (p : nat) : parent (2 * p + 2) = p.
Proof.
  unfold parent. replace (2 * p + 2 - 1)%nat with (1 + p * 2)%nat by lia.
  rewrite Nat.div_add by lia. done.
Qed.

(** ** [heapq]

    The operations of [heapq] never raise on a heap that is not empty and
    return a rearrangement of the elements, whatever the comparison.  They
    keep the heap invariant when the comparison is irreflexive and
    asymmetric and its negation is transitive on the elements, which are
    those of [P]. *)

Section heapq_facts.
Context {A : Type} (lt : A -> A -> bool) (P : A -> Prop).
Hypothesis lt_irrefl : forall x, lt x x = false.
Hypothesis lt_asym : forall x y, lt x y = true -> lt y x = false.
Hypothesis le_trans :
  forall x y z, P x -> P y -> P z ->
                le_of lt x y -> le_of lt y z -> le_of lt x z.

Local Abbreviation le := (le_of lt).
Local Abbreviation above := (above_parent lt).
Local Abbreviation ok := (heap_ok lt).

(** The array when the loop of [_siftdown] stops: [newitem] goes to
    [pos], where its parent is not greater and its children are not
    smaller. *)
Lemma siftdown_stop (heap : list A) (pos : nat) (newitem : A) :
  (pos < length heap)%nat ->
  (forall i, (1 <= i)%nat -> i <> pos -> above heap i) ->
  (forall i x, (1 <= i)%nat -> parent i = pos -> heap !! i = Some x -> le newitem x) ->
  (pos = 0%nat \/ exists p, heap !! parent pos = Some p /\ le p newitem) ->
  ok (<[pos := newitem]> heap).
Proof.
  intros Hpos Hothers Hchildren Hparent i Hi x p Hx Hp.
  pose proof (parent_lt i Hi) as Hlt.
  destruct (decide (i = pos)) as [->|Hne].
  - rewrite list_lookup_insert_eq in Hx by done. injection Hx as <-.
    rewrite list_lookup_insert_ne in Hp by lia.
    destruct Hparent as [->|(p' & Hp' & Hle)]; [lia|]. congruence.
  - rewrite list_lookup_insert_ne in Hx by done.
    destruct (decide (parent i = pos)) as [Hpar|Hpar].
    + rewrite Hpar, list_lookup_insert_eq in Hp by done. injection Hp as <-.
      by apply (Hchildren i).
    + rewrite list_lookup_insert_ne in Hp by done.
      by apply (Hothers i Hi Hne).
Qed.

Lemma siftdown_loop_spec (fuel : nat) (heap : list A) (pos : nat) (newitem : A) :
  (pos <= fuel)%nat ->
  (pos < length heap)%nat ->
  exists heap',
    siftdown_loop lt fuel heap 0 pos newitem = Ok heap' /\
    heap' ≡ₚ <[pos := newitem]> heap /\
    (Forall P heap -> P newitem ->
     (forall i, (1 <= i)%nat -> i <> pos -> above heap i) ->
     (forall i x, (1 <= i)%nat -> parent i = pos -> heap !! i = Some x ->
                  le newitem x) ->
     (forall i x g, (1 <= i)%nat -> parent i = pos ->
                    heap !! i = Some x -> (1 <= pos)%nat ->
                    heap !! parent pos = Some g -> le g x) ->
     ok heap').
Proof.
  revert heap pos.
  induction fuel as [|fuel IH]; intros heap pos Hfuel Hpos.
  - exists (<[pos := newitem]> heap). simpl. rewrite setitem_Ok by done.
    split_and!; [done..|]. intros _ _ Hothers Hchildren _.
    apply siftdown_stop; auto. left. lia.
  - cbn [siftdown_loop]. destruct (decide (0 < pos)%nat) as [Hpos0|Hpos0].
    2:{ exists (<[pos := newitem]> heap). rewrite setitem_Ok by done.
        split_and!; [done..|]. intros _ _ Hothers Hchildren _.
        apply siftdown_stop; auto. left. lia. }
    fold (parent pos). pose proof (parent_lt pos Hpos0) as Hpar.
    destruct (lookup_lt_is_Some_2 heap (parent pos)) as [p Hp]; [lia|].
    rewrite (getitem_Ok _ _ _ Hp). cbn [rbind].
    destruct (lt newitem p) eqn:Hlt.
    2:{ exists (<[pos := newitem]> heap). rewrite setitem_Ok by done.
        split_and!; [done..|]. intros _ _ Hothers Hchildren _.
        apply siftdown_stop; eauto. }
    rewrite setitem_Ok by done. cbn [rbind].
    destruct (IH (<[pos := p]> heap) (parent pos)) as (heap' & Hrun & Hperm & Hok).
    { lia. }
    { rewrite length_insert. lia. }
    exists heap'. split_and!; [done| |].
    { rewrite Hperm.
      rewrite <- (list_insert_insert_eq heap pos p newitem).
      apply insert_swap_perm; [lia| |].
      * rewrite list_lookup_insert_ne by lia. done.
      * by apply list_lookup_insert_eq. }
    intros HP Hnew Hothers Hchildren Hgrand.
    assert (forall i x, heap !! i = Some x -> P x) as Helem.
    { intros i x Hx. by apply (Forall_lookup_1 _ _ _ _ HP Hx). }
    apply Hok.
    + apply Forall_insert; [done|by apply (Helem (parent pos))].
    + done.
    + intros i Hi Hne x q Hx Hq.
      destruct (decide (i = pos)) as [->|Hne'].
      * rewrite list_lookup_insert_eq in Hx by done. injection Hx as <-.
        rewrite list_lookup_insert_ne in Hq by lia.
        assert (q = p) as -> by congruence. apply lt_irrefl.
      * rewrite list_lookup_insert_ne in Hx by done.
        destruct (decide (parent i = pos)) as [Hpi|Hpi].
        -- rewrite Hpi, list_lookup_insert_eq in Hq by done. injection Hq as <-.
           by apply (Hgrand i x p).
        -- rewrite list_lookup_insert_ne in Hq by done.
           by apply (Hothers i Hi Hne').
    + intros i x Hi Hpi Hx.
      destruct (decide (i = pos)) as [->|Hne'].
      * rewrite list_lookup_insert_eq in Hx by done. injection Hx as <-.
        by apply lt_asym.
      * rewrite list_lookup_insert_ne in Hx by done.
        apply (le_trans newitem p x); [done|by apply (Helem (parent pos))
                                      |by apply (Helem i)|by apply lt_asym|].
        apply (Hothers i Hi Hne' x p Hx). by rewrite Hpi.
    + intros i x g Hi Hpi Hx Hpp Hg.
      pose proof (parent_lt (parent pos) Hpp) as Hpar'.
      rewrite list_lookup_insert_ne in Hg by lia.
      assert (le g p) as Hgp.
      { apply (Hothers (parent pos)); [done|lia|done..]. }
      destruct (decide (i = pos)) as [->|Hne'].
      * rewrite list_lookup_insert_eq in Hx by done. by injection Hx as <-.
      * rewrite list_lookup_insert_ne in Hx by done.
        apply (le_trans g p x);
          [by apply (Helem (parent (parent pos)))|by apply (Helem (parent pos))
          |by apply (Helem i)|done|].
        apply (Hothers i Hi Hne' x p Hx). by rewrite Hpi.
Qed.

Lemma siftdown_leaf_spec (heap : list A) (pos : nat) :
  (pos < length heap)%nat ->
  (length heap <= 2 * pos + 1)%nat ->
  exists heap',
    siftdown lt heap 0 pos = Ok heap' /\ heap' ≡ₚ heap /\
    (Forall P heap ->
     (forall i, (1 <= i)%nat -> i <> pos -> above heap i) ->
     ok heap').
Proof.
  intros Hpos Hleaf. unfold siftdown.
  destruct (lookup_lt_is_Some_2 heap pos Hpos) as [newitem Hnew].
  rewrite (getitem_Ok _ _ _ Hnew). cbn [rbind].
  assert (forall i x, (1 <= i)%nat -> parent i = pos -> heap !! i = Some x -> False)
    as Hnochild.
  { intros i x Hi Hpi Hx. apply lookup_lt_Some in Hx.
    destruct (parent_child i Hi); lia. }
  destruct (siftdown_loop_spec pos heap pos newitem) as (heap' & Hrun & Hperm & Hok);
    [done..|].
  exists heap'. rewrite (list_insert_id heap pos newitem) in Hperm by done.
  split_and!; [done..|]. intros HP Hothers. apply Hok; [done| |done| |].
  - by apply (Forall_lookup_1 _ _ _ _ HP Hnew).
  - intros i x Hi Hpi Hx. by destruct (Hnochild i x).
  - intros i x g Hi Hpi Hx. by destruct (Hnochild i x).
Qed.

Lemma heap_ok_nil : ok [].
Proof. by intros i Hi x p Hx. Qed.

Lemma heappush_spec (heap : list A) (item : A) :
  exists heap',
    heappush lt heap item = Ok heap' /\ heap' ≡ₚ item :: heap /\
    (Forall P heap -> P item -> ok heap -> ok heap').
Proof.
  unfold heappush. rewrite length_app. simpl length.
  replace (length heap + 1 - 1)%nat with (length heap) by lia.
  destruct (siftdown_leaf_spec (heap ++ [item]) (length heap))
    as (heap' & Hrun & Hperm & Hok').
  - rewrite length_app. simpl. lia.
  - rewrite length_app. simpl. lia.
  - exists heap'. split_and!; [done| |].
    { rewrite Hperm. by rewrite Permutation_app_comm. }
    intros HP Hitem Hok. apply Hok'.
    + apply Forall_app. split; [done|]. by constructor.
    + intros i Hi Hne x p Hx Hp.
      assert (i < length heap)%nat as Hlt.
      { apply lookup_lt_Some in Hx. rewrite length_app in Hx. simpl in Hx. lia. }
      pose proof (parent_lt i Hi).
      rewrite lookup_app_l in Hx, Hp by lia. by apply (Hok i Hi).
Qed.

(** The root of a heap is a minimum. *)
Lemma heap_ok_root (heap : list A) (r : A) :
  Forall P heap -> ok heap -> heap !! 0%nat = Some r ->
  forall i x, heap !! i = Some x -> le r x.
Proof.
  intros HP Hok Hr i. induction (lt_wf i) as [i _ IH]. intros x Hx.
  destruct (decide (i = 0%nat)) as [->|Hi].
  - assert (x = r) as -> by congruence. apply lt_irrefl.
  - pose proof (parent_lt i ltac:(lia)) as Hpar.
    destruct (lookup_lt_is_Some_2 heap (parent i)) as [p Hp].
    { apply lookup_lt_Some in Hx. lia. }
    apply (le_trans r p x);
      [by apply (Forall_lookup_1 _ _ _ _ HP Hr)
      |by apply (Forall_lookup_1 _ _ _ _ HP Hp)
      |by apply (Forall_lookup_1 _ _ _ _ HP Hx)
      |by apply (IH (parent i))|].
    apply (Hok i); [lia|done..].
Qed.

(** The loop of [_siftup]: the hole at [pos] sinks to a leaf, each time
    taking the smaller child up.  The relations of the heap hold
    wherever the parent is not the hole, and the children of the hole are
    not smaller than the parent of the hole. *)
Lemma siftup_loop_spec (fuel : nat) (heap : list A) (endpos pos : nat) (newitem : A) :
  endpos = length heap ->
  (endpos <= fuel + pos)%nat ->
  (pos < endpos)%nat ->
  exists heap' pos',
    siftup_loop lt fuel heap endpos pos = Ok (heap', pos') /\
    length heap' = endpos /\
    (pos' < endpos)%nat /\
    (endpos <= 2 * pos' + 1)%nat /\
    <[pos' := newitem]> heap' ≡ₚ <[pos := newitem]> heap /\
    ((forall i, (1 <= i)%nat -> parent i <> pos -> above heap i) ->
     (forall i x g, (1 <= i)%nat -> parent i = pos ->
                    heap !! i = Some x -> (1 <= pos)%nat ->
                    heap !! parent pos = Some g -> le g x) ->
     forall i, (1 <= i)%nat -> parent i <> pos' -> above heap' i).
Proof.
  revert heap pos.
  induction fuel as [|fuel IH]; intros heap pos Hend Hfuel Hpos; [lia|].
  cbn [siftup_loop].
  destruct (decide (2 * pos + 1 < endpos)%nat) as [Hleft|Hleaf].
  2:{ exists heap, pos. split_and!; [done..|lia|done|done]. }
  destruct (lookup_lt_is_Some_2 heap (2 * pos + 1)) as [l Hl]; [lia|].
  (* the position of the child that moves up *)
  assert (exists c child,
            (if decide (2 * pos + 1 + 1 < endpos)%nat then
               do c <- getitem heap (2 * pos + 1);
               do r <- getitem heap (2 * pos + 1 + 1);
               Ok (if lt c r then (2 * pos + 1)%nat else (2 * pos + 1 + 1)%nat)
             else Ok (2 * pos + 1)%nat) = Ok c /\
            parent c = pos /\ (pos < c)%nat /\ (c < endpos)%nat /\
            heap !! c = Some child /\
            forall i x, (1 <= i)%nat -> parent i = pos -> heap !! i = Some x ->
                        le child x)
    as (c & child & -> & Hpc & Hc & Hcend & Hchild & Hmin).
  { assert (forall i, (1 <= i)%nat -> parent i = pos ->
                      i = (2 * pos + 1)%nat \/ i = (2 * pos + 1 + 1)%nat) as Hkids.
    { intros i Hi <-. destruct (parent_child i Hi); lia. }
    destruct (decide (2 * pos + 1 + 1 < endpos)%nat) as [Hright|Hright].
    - destruct (lookup_lt_is_Some_2 heap (2 * pos + 1 + 1)) as [r Hr]; [lia|].
      rewrite (getitem_Ok _ _ _ Hl), (getitem_Ok _ _ _ Hr). cbn [rbind].
      destruct (lt l r) eqn:Hlr.
      + exists (2 * pos + 1)%nat, l.
        split_and!; [done|apply parent_left|lia|lia|done|].
        intros i x Hi Hpi Hx. destruct (Hkids i Hi Hpi) as [->| ->].
        * assert (x = l) as -> by congruence. apply lt_irrefl.
        * assert (x = r) as -> by congruence. by apply lt_asym.
      + exists (2 * pos + 1 + 1)%nat, r.
        split_and!; [done| |lia|lia|done|].
        { replace (2 * pos + 1 + 1)%nat with (2 * pos + 2)%nat by lia.
          apply parent_right. }
        intros i x Hi Hpi Hx. destruct (Hkids i Hi Hpi) as [->| ->].
        * by assert (x = l) as -> by congruence.
        * assert (x = r) as -> by congruence. apply lt_irrefl.
    - exists (2 * pos + 1)%nat, l.
      split_and!; [done|apply parent_left|lia|lia|done|].
      intros i x Hi Hpi Hx. destruct (Hkids i Hi Hpi) as [->| ->].
      + assert (x = l) as -> by congruence. apply lt_irrefl.
      + apply lookup_lt_Some in Hx. lia. }
  cbn [rbind]. rewrite (getitem_Ok _ _ _ Hchild). cbn [rbind].
  rewrite setitem_Ok by lia. cbn [rbind].
  destruct (IH (<[pos := child]> heap) c)
    as (heap' & pos' & Hrun & Hlen & Hpos' & Hleaf' & Hperm & Hothers').
  { by rewrite length_insert. }
  { lia. }
  { done. }
  exists heap', pos'. split_and!; [done..| |].
  { rewrite Hperm.
    rewrite <- (list_insert_insert_eq heap pos child newitem).
    apply insert_swap_perm; [lia| |].
    + rewrite list_lookup_insert_ne by lia. done.
    + apply list_lookup_insert_eq. lia. }
  intros Hothers Hgrand. apply Hothers'.
  - intros i Hi Hpi x p Hx Hp.
    destruct (decide (i = pos)) as [->|Hne].
    + rewrite list_lookup_insert_eq in Hx by lia. injection Hx as <-.
      pose proof (parent_lt pos Hi).
      rewrite list_lookup_insert_ne in Hp by lia.
      apply (Hgrand c child p); [lia|done..].
    + rewrite list_lookup_insert_ne in Hx by done.
      destruct (decide (parent i = pos)) as [Hpi'|Hpi'].
      * rewrite Hpi', list_lookup_insert_eq in Hp by lia. injection Hp as <-.
        by apply (Hmin i).
      * rewrite list_lookup_insert_ne in Hp by done.
        by apply (Hothers i Hi Hpi').
  - intros i x g Hi Hpi Hx _ Hg.
    rewrite Hpc, list_lookup_insert_eq in Hg by lia. injection Hg as <-.
    pose proof (parent_lt i Hi).
    rewrite list_lookup_insert_ne in Hx by lia.
    apply (Hothers i Hi ltac:(lia) x child Hx). by rewrite Hpi.
Qed.

Lemma siftup_spec (heap : list A) :
  heap <> [] ->
  exists heap',
    siftup lt heap 0 = Ok heap' /\ heap' ≡ₚ heap /\
    (Forall P heap ->
     (forall i, (1 <= i)%nat -> parent i <> 0%nat -> above heap i) ->
     ok heap').
Proof.
  intros Hne. unfold siftup.
  assert (0 < length heap)%nat as Hlen by (destruct heap; [done|simpl; lia]).
  destruct (lookup_lt_is_Some_2 heap 0 Hlen) as [newitem Hnew].
  rewrite (getitem_Ok _ _ _ Hnew). cbn [rbind].
  destruct (siftup_loop_spec (length heap) heap (length heap) 0 newitem)
    as (heap1 & pos1 & -> & Hlen1 & Hpos1 & Hleaf1 & Hperm & Hothers1);
    [done|lia|done|].
  cbn [rbind]. rewrite setitem_Ok by lia. cbn [rbind].
  rewrite (list_insert_id heap 0 newitem) in Hperm by done.
  destruct (siftdown_leaf_spec (<[pos1 := newitem]> heap1) pos1)
    as (heap' & Hrun & Hperm' & Hok).
  { rewrite length_insert. lia. }
  { rewrite length_insert. lia. }
  exists heap'. split_and!; [done|by rewrite Hperm', Hperm|].
  intros HP Hothers. apply Hok.
  - by rewrite Hperm.
  - intros i Hi Hne1 x p Hx Hp.
    rewrite list_lookup_insert_ne in Hx by done.
    assert (parent i <> pos1) as Hpi.
    { intros Hpi. apply lookup_lt_Some in Hx.
      destruct (parent_child i Hi); lia. }
    rewrite list_lookup_insert_ne in Hp by done.
    assert (forall i, (1 <= i)%nat -> parent i <> pos1 -> above heap1 i) as Hall.
    { apply (Hothers1 Hothers). intros ? ? ? _ _ _ ?. lia. }
    by apply (Hall i Hi Hpi).
Qed.

Lemma heappop_spec (heap : list A) :
  heap <> [] ->
  exists m heap',
    heappop lt heap = Ok (m, heap') /\
    heap ≡ₚ m :: heap' /\
    (Forall P heap -> ok heap ->
     ok heap' /\ forall x, x ∈ heap -> le m x).
Proof.
  intros Hne. unfold heappop.
  destruct (proj2 (last_is_Some heap) Hne) as [lastelt Hlast].
  rewrite Hlast. apply last_Some in Hlast as [front ->].
  rewrite length_app. simpl length.
  replace (length front + 1 - 1)%nat with (length front) by lia.
  rewrite take_app_length.
  destruct front as [|r tail].
  - exists lastelt, []. split_and!; [done..|]. intros _ _.
    split; [apply heap_ok_nil|].
    intros x ->%list_elem_of_singleton. apply lt_irrefl.
  - cbn [getitem lookup list_lookup rbind].
    rewrite setitem_Ok by (simpl; lia). cbn [rbind].
    change (<[0%nat := lastelt]> (r :: tail)) with (lastelt :: tail).
    destruct (siftup_spec (lastelt :: tail)) as (heap' & -> & Hperm & Hok'); [done|].
    cbn [rbind]. exists r, heap'. split_and!; [done| |].
    { rewrite Hperm. simpl. f_equiv. by rewrite Permutation_app_comm. }
    intros HP Hok. split.
    + apply Hok'.
      * apply Forall_app in HP as [[_ Htail]%Forall_cons [Hlast _]%Forall_cons].
        by constructor.
      * intros i Hi Hpi x p Hx Hp.
        pose proof (parent_lt i Hi) as Hlt.
        apply (Hok i Hi).
        -- rewrite lookup_app_l by (apply lookup_lt_Some in Hx; simpl in *; lia).
           destruct i; [lia|done].
        -- rewrite lookup_app_l by (apply lookup_lt_Some in Hp; simpl in *; lia).
           destruct (parent i); [lia|done].
    + intros x [i Hx]%list_elem_of_lookup.
      by apply (heap_ok_root ((r :: tail) ++ [lastelt]) r HP Hok eq_refl i).
Qed.
End heapq_facts.
(** * Further properties of the helpers *)

(** ** [aggregate_min_max_count_by_key] *)

Section min_max_count_facts.
Context {A K : Type} `{EqDecision K}.
Context (key_fn : A -> K) (value_fn : A -> result float) (vf : A -> float).

Lemma aggregate_min_max_count_by_key_fold (orders : list A) :
  (forall o, o ∈ orders -> value_fn o = Ok (vf o)) ->
  aggregate_min_max_count_by_key orders key_fn value_fn
  = Ok (min_max_count_fold key_fn vf orders).
Proof.
  intros Hvf. unfold aggregate_min_max_count_by_key, min_max_count_fold.
  eapply (for_each_fold (fun _ => True)); [done|].
  intros d o _ Ho. split; [|done].
  unfold key_value. rewrite (Hvf o Ho). simpl.
  by destruct (dict_get d (key_fn o)) as [[[lo hi] c]|].
Qed.

Lemma min_max_count_fold_get_from (orders : list A) (d : dict K (float * float * Z)) (k : K) :
  dict_get (fold_left (fun stats o =>
                         dict_set stats (key_fn o)
                           (min_max_count_update (dict_get stats (key_fn o)) (vf o)))
                      orders d) k
  = fold_left (fun st v => Some (min_max_count_update st v))
              (vf <$> group_of key_fn k orders) (dict_get d k).
Proof.
  unfold group_of. revert d.
  induction orders as [|o orders IH]; intros d; simpl; [done|].
  rewrite IH, filter_cons. destruct (decide (key_fn o = k)) as [<-|Hne].
  - by rewrite dict_get_set_eq.
  - by rewrite dict_get_set_ne.
Qed.

Lemma min_max_count_fold_get (orders : list A) (k : K) :
  dict_get (min_max_count_fold key_fn vf orders) k
  = fold_left (fun st v => Some (min_max_count_update st v))
              (vf <$> group_of key_fn k orders) None.
Proof. apply min_max_count_fold_get_from. Qed.
End min_max_count_facts.

(** [min] and [max] return one of their arguments, not above and not below
    both. *)
Lemma py_min_spec (a b : float) :
  float_le (py_min a b) a /\ float_le (py_min a b) b /\
  (py_min a b = a \/ py_min a b = b).
Proof.
  unfold py_min, float_le. destruct (b <? a) eqn:E.
  - split_and!; [by apply ltb_asym|apply ltb_irrefl|by right].
  - split_and!; [apply ltb_irrefl|done|by left].
Qed.

Lemma py_max_spec (a b : float) :
  float_le a (py_max a b) /\ float_le b (py_max a b) /\
  (py_max a b = a \/ py_max a b = b).
Proof.
  unfold py_max, float_le. destruct (a <? b) eqn:E.
  - split_and!; [by apply ltb_asym|apply ltb_irrefl|by right].
  - split_and!; [apply ltb_irrefl|done|by left].
Qed.

(** A comparison that holds is between two floats that are not NaN. *)
Lemma ltb_not_nan (x y : float) :
  (x <? y) = true -> is_nan x = false /\ is_nan y = false.
Proof.
  intros H. split.
  - destruct (is_nan x) eqn:E; [|done].
    destruct (cmp_nan x y (or_introl E)). congruence.
  - destruct (is_nan y) eqn:E; [|done].
    destruct (cmp_nan x y (or_intror E)). congruence.
Qed.

Lemma float_le_below (x lo v : float) :
  (x <? lo) = true -> float_le lo v -> float_le x v.
Proof.
  intros Hx Hlo. destruct (ltb_not_nan _ _ Hx) as [Hnx Hnlo].
  unfold float_le in *. destruct (is_nan v) eqn:Hnv.
  - apply cmp_nan. by left.
  - float_order.
Qed.

Lemma float_le_above (x hi v : float) :
  (hi <? x) = true -> float_le v hi -> float_le v x.
Proof.
  intros Hx Hhi. destruct (ltb_not_nan _ _ Hx) as [Hnhi Hnx].
  unfold float_le in *. destruct (is_nan v) eqn:Hnv.
  - apply cmp_nan. by right.
  - float_order.
Qed.

Lemma min_max_count_covers (vs seen : list float) (st : option (float * float * Z)) :
  covers seen st ->
  covers (seen ++ vs) (fold_left (fun st v => Some (min_max_count_update st v)) vs st).
Proof.
  revert seen st. induction vs as [|v vs IH]; intros seen st Hst; simpl.
  - by rewrite app_nil_r.
  - replace (seen ++ v :: vs) with ((seen ++ [v]) ++ vs) by by rewrite <- app_assoc.
    apply IH. destruct st as [[[lo hi] c]|]; simpl in *.
    + destruct Hst as (Hlo & Hhi & -> & Hb).
      destruct (py_min_spec lo v) as (Hmin1 & Hmin2 & Hmin),
               (py_max_spec hi v) as (Hmax1 & Hmax2 & Hmax).
      split_and!.
      * rewrite elem_of_app, list_elem_of_singleton. destruct Hmin as [-> | ->]; auto.
      * rewrite elem_of_app, list_elem_of_singleton. destruct Hmax as [-> | ->]; auto.
      * rewrite length_app. simpl. lia.
      * intros x Hx.
        apply elem_of_app in Hx as [Hx| ->%list_elem_of_singleton]; [|done].
        destruct (Hb x Hx) as [Hlox Hxhi]. split.
        -- unfold py_min. destruct (v <? lo) eqn:E; [|done].
           by apply (float_le_below v lo x).
        -- unfold py_max. destruct (hi <? v) eqn:E; [|done].
           by apply (float_le_above v hi x).
    + subst seen. simpl. split_and!; try (by left); [done|].
      intros x ->%list_elem_of_singleton. split; apply float_le_refl.
Qed.

(** X1: for every key of the stream, [aggregate_min_max_count_by_key]
    holds the minimum and the maximum of the values of the records of
    that key, two of these values such that no value is below the first
    or above the second, and the number of those records.  A key that no
    record maps to has no entry. *)
Theorem min_max_count_by_key_spec {A K : Type} `{EqDecision K}
    (orders : list A) (key_fn : A -> K) (vf : A -> float) :
  exists stats,
    aggregate_min_max_count_by_key orders key_fn (fun o => Ok (vf o)) = Ok stats /\
    forall k,
      let vs := vf <$> filter (fun o => key_fn o = k) orders in
      if decide (k ∈ key_fn <$> orders) then
        exists lo hi,
          dict_get stats k = Some (lo, hi, Z.of_nat (length vs)) /\
          lo ∈ vs /\ hi ∈ vs /\
          forall v, v ∈ vs -> (v <? lo) = false /\ (hi <? v) = false
      else dict_get stats k = None.
Proof.
  exists (min_max_count_fold key_fn vf orders). split.
  { by apply aggregate_min_max_count_by_key_fold. }
  intros k vs. rewrite min_max_count_fold_get. fold (group_of key_fn k orders) in vs.
  pose proof (min_max_count_covers vs [] None eq_refl) as Hc. simpl in Hc.
  fold vs. destruct (decide (k ∈ key_fn <$> orders)) as [Hin|Hnot].
  - destruct (fold_left _ vs None) as [[[lo hi] c]|]; simpl in Hc.
    + destruct Hc as (? & ? & -> & ?). by exists lo, hi.
    + exfalso. apply fmap_nil_inv in Hc. by apply group_of_nil in Hc.
  - apply group_of_nil in Hnot. subst vs. by rewrite Hnot.
Qed.

(** ** The keys of the results *)

Lemma first_seen_elem {K : Type} `{EqDecision K} (ks : list K) (k : K) :
  k ∈ first_seen ks <-> k ∈ ks.
Proof.
  induction ks as [|k' ks IH]; simpl; [done|].
  rewrite !elem_of_cons, list_elem_of_filter, IH.
  destruct (decide (k = k')) as [->|Hne]; [split; by left|].
  split; [intros [?|[_ ?]]; [done|by right]|].
  intros [?|?]; [done|]. by right.
Qed.

Lemma first_seen_NoDup {K : Type} `{EqDecision K} (ks : list K) :
  NoDup (first_seen ks).
Proof.
  induction ks as [|k ks IH]; simpl; [constructor|].
  constructor; [|by apply NoDup_filter].
  rewrite list_elem_of_filter. by intros [? _].
Qed.

Lemma filter_all {A : Type} (P : A -> Prop) `{!forall x, Decision (P x)} (l : list A) :
  (forall x, x ∈ l -> P x) -> filter P l = l.
Proof.
  induction l as [|x l IH]; intros Hl; [done|].
  rewrite filter_cons_True by (apply Hl; by left).
  f_equal. apply IH. intros y ?. apply Hl. by right.
Qed.

Section key_order.
Context {A K S : Type} `{EqDecision K}.
Context (key_fn : A -> K) (step : dict K S -> A -> dict K S).
Hypothesis step_keys :
  forall d o,
    dict_keys (step d o) =
    if decide (key_fn o ∈ dict_keys d) then dict_keys d
    else dict_keys d ++ [key_fn o].

Lemma fold_keys_from (orders : list A) (d : dict K S) :
  dict_keys (fold_left step orders d) =
  dict_keys d ++ filter (fun k => k ∉ dict_keys d) (first_seen (key_fn <$> orders)).
Proof.
  revert d. induction orders as [|o orders IH]; intros d; simpl.
  - by rewrite app_nil_r.
  - rewrite IH, step_keys, filter_cons, list_filter_filter.
    destruct (decide (key_fn o ∈ dict_keys d)) as [Hin|Hnot].
    + rewrite decide_False by tauto. f_equal.
      apply list_filter_iff. intros k. split; [|tauto].
      intros Hk. split; [done|]. by intros ->.
    + rewrite decide_True by done. rewrite <- app_assoc. simpl. do 2 f_equal.
      apply list_filter_iff. intros k.
      rewrite not_elem_of_app, list_elem_of_singleton. tauto.
Qed.

Lemma fold_keys (orders : list A) :
  dict_keys (fold_left step orders []) = first_seen (key_fn <$> orders).
Proof.
  rewrite fold_keys_from. simpl.
  apply filter_all. intros k _. apply not_elem_of_nil.
Qed.
End key_order.

Section keys_facts.
Context {A K : Type} `{EqDecision K}.
Context (key_fn : A -> K) (value_fn : A -> result float) (vf : A -> float).

Lemma keyed_fold_first_seen {S : Type} (upd : S -> A -> S) (init : S) (orders : list A) :
  dict_keys (fold_left (keyed_step key_fn upd init) orders [])
  = first_seen (key_fn <$> orders).
Proof. apply fold_keys. intros d o. apply dict_keys_set. Qed.

Lemma min_max_count_fold_keys (orders : list A) :
  dict_keys (min_max_count_fold key_fn vf orders) = first_seen (key_fn <$> orders).
Proof.
  unfold min_max_count_fold.
  apply (fold_keys key_fn
           (fun stats o => dict_set stats (key_fn o)
              (min_max_count_update (dict_get stats (key_fn o)) (vf o)))).
  intros d o. apply dict_keys_set.
Qed.

Lemma comprehension_keys {V : Type} (f : K -> V) (keys : list K) (m : dict K V) :
  NoDup (dict_keys m ++ keys) ->
  dict_keys (fold_left (fun m key => dict_set m key (f key)) keys m)
  = dict_keys m ++ keys.
Proof.
  revert m. induction keys as [|key keys IH]; intros m Hnd; cbn [fold_left].
  - by rewrite app_nil_r.
  - assert (key ∉ dict_keys m) as Hnew.
    { apply NoDup_app in Hnd as (_ & Hdisj & _). intros Hin.
      apply (Hdisj _ Hin). by left. }
    rewrite IH; rewrite dict_keys_set, decide_False by done.
    + by rewrite <- app_assoc.
    + by rewrite <- app_assoc.
Qed.

(** The result of [aggregate_mean_by_key], as a dictionary. *)
Lemma aggregate_mean_by_key_fold (orders : list A) :
  (forall o, o ∈ orders -> value_fn o = Ok (vf o)) ->
  aggregate_mean_by_key orders key_fn value_fn
  = Ok (fold_left (fun m key =>
                     dict_set m key
                       (dd_get (sum_fold key_fn vf orders) key 0
                        / float_of_int (dd_get (count_fold key_fn orders) key 0%Z)))
                  (dict_keys (sum_fold key_fn vf orders)) []).
Proof.
  intros Hvf. unfold aggregate_mean_by_key.
  rewrite (mean_totals_fold _ _ vf orders Hvf). simpl.
  apply mean_of_totals_fold. apply count_fold_pos.
Qed.
End keys_facts.

(** X2: the four helpers return their entries in the same order: the
    keys of each result are the distinct keys of the stream, in the order
    in which they first occur.  ([aggregate_stddev_by_key] returns that
    way unless it raises [ValueError].) *)
Theorem helpers_keys_in_first_seen_order {A K : Type} `{EqDecision K}
    (orders : list A) (key_fn : A -> K) (vf : A -> float) (sample : bool) :
  let value_fn := fun o => Ok (vf o) in
  exists totals means stats,
    aggregate_sum_by_key orders key_fn value_fn = Ok totals /\
    aggregate_mean_by_key orders key_fn value_fn = Ok means /\
    aggregate_min_max_count_by_key orders key_fn value_fn = Ok stats /\
    dict_keys totals = first_seen (key_fn <$> orders) /\
    dict_keys means = first_seen (key_fn <$> orders) /\
    dict_keys stats = first_seen (key_fn <$> orders) /\
    match aggregate_stddev_by_key orders key_fn value_fn sample with
    | Ok stds => dict_keys stds = first_seen (key_fn <$> orders)
    | Raise e => e = ValueError
    end.
Proof.
  intros value_fn.
  assert (forall o, o ∈ orders -> value_fn o = Ok (vf o)) as Hvf by done.
  eexists _, _, _. split_and!.
  - by apply aggregate_sum_by_key_fold.
  - by apply aggregate_mean_by_key_fold.
  - by apply aggregate_min_max_count_by_key_fold.
  - apply keyed_fold_first_seen.
  - rewrite comprehension_keys; simpl.
    + apply keyed_fold_first_seen.
    + apply sum_fold_NoDup.
  - apply min_max_count_fold_keys.
  - rewrite (aggregate_stddev_by_key_spec key_fn value_fn vf) by done.
    cbv zeta. destruct (forallb _ _); [|done].
    rewrite (dict_keys_map (fun _ st => stddev_of sample st)).
    apply keyed_fold_first_seen.
Qed.

(** ** Exceptions of the value function *)

Lemma value_of_Ok {A : Type} (value_fn : A -> result float) (l : list A) :
  (forall x, x ∈ l -> exists v, value_fn x = Ok v) ->
  forall o, o ∈ l -> value_fn o = Ok (value_of value_fn o).
Proof. intros Hl o Ho. unfold value_of. by destruct (Hl o Ho) as [v ->]. Qed.

(** X3: a helper raises the exception of the first record on which the
    value function raises: when the value function returns on the records
    [pre] and raises [e] on the next record, each of the four helpers
    raises [e], whatever follows. *)
Theorem helpers_raise_first_exception {A K : Type} `{EqDecision K}
    (pre post : list A) (o : A) (key_fn : A -> K) (value_fn : A -> result float)
    (e : exn) (sample : bool) :
  (forall x, x ∈ pre -> exists v, value_fn x = Ok v) ->
  value_fn o = Raise e ->
  let orders := pre ++ o :: post in
  aggregate_sum_by_key orders key_fn value_fn = Raise e /\
  aggregate_mean_by_key orders key_fn value_fn = Raise e /\
  aggregate_stddev_by_key orders key_fn value_fn sample = Raise e /\
  aggregate_min_max_count_by_key orders key_fn value_fn = Raise e.
Proof.
  intros Hpre Ho orders. subst orders.
  pose proof (value_of_Ok value_fn pre Hpre) as Hvf.
  unfold aggregate_mean_by_key, aggregate_stddev_by_key.
  pose proof (aggregate_sum_by_key_fold key_fn value_fn _ pre Hvf) as Hsum.
  pose proof (mean_totals_fold key_fn value_fn _ pre Hvf) as Hmean.
  pose proof (stddev_stats_fold key_fn value_fn _ pre Hvf) as Hstd.
  pose proof (aggregate_min_max_count_by_key_fold key_fn value_fn _ pre Hvf) as Hmmc.
  unfold aggregate_sum_by_key, mean_totals, stddev_stats,
    aggregate_min_max_count_by_key in *.
  rewrite !for_each_app, Hsum, Hmean, Hstd, Hmmc. simpl.
  unfold key_value. rewrite Ho. simpl.
  by destruct (count_fold key_fn pre), (sum_fold key_fn (value_of value_fn) pre).
Qed.

(** ** The counts add up *)

Lemma total_count_cons {K : Type} (k : K) (st : float * float * Z) (d : dict K (float * float * Z)) :
  total_count ((k, st) :: d) = (st.2 + total_count d)%Z.
Proof. done. Qed.

Lemma total_count_set {K : Type} `{EqDecision K} (d : dict K (float * float * Z)) (k : K)
    (v : float) :
  total_count (dict_set d k (min_max_count_update (dict_get d k) v))
  = (total_count d + 1)%Z.
Proof.
  induction d as [|[k' [[lo hi] c]] d IH]; cbn [dict_set dict_get].
  - done.
  - destruct (decide (k' = k)) as [->|Hne]; rewrite !total_count_cons.
    + simpl. lia.
    + rewrite IH. lia.
Qed.

Lemma min_max_count_fold_total {A K : Type} `{EqDecision K} (key_fn : A -> K)
    (vf : A -> float) (orders : list A) :
  total_count (min_max_count_fold key_fn vf orders) = Z.of_nat (length orders).
Proof.
  unfold min_max_count_fold.
  enough (forall d,
             total_count
               (fold_left (fun stats o =>
                             dict_set stats (key_fn o)
                               (min_max_count_update (dict_get stats (key_fn o)) (vf o)))
                          orders d)
             = (total_count d + Z.of_nat (length orders))%Z) as Hgen.
  { by rewrite Hgen. }
  induction orders as [|o orders IH]; intros d; simpl length; simpl fold_left.
  - lia.
  - rewrite IH, total_count_set. lia.
Qed.

(** X9: no record is lost by grouping: the counts of
    [aggregate_min_max_count_by_key] add up to the number of records. *)
Theorem counts_add_up {A K : Type} `{EqDecision K}
    (orders : list A) (key_fn : A -> K) (vf : A -> float) :
  exists stats,
    aggregate_min_max_count_by_key orders key_fn (fun o => Ok (vf o)) = Ok stats /\
    total_count stats = Z.of_nat (length orders).
Proof.
  eexists. split.
  - by apply (aggregate_min_max_count_by_key_fold key_fn _ vf).
  - apply min_max_count_fold_total.
Qed.
(** ** The orders of the keys *)

Lemma str_lt_irrefl (a : string) : str_lt a a = false.
Proof.
  unfold str_lt, String.ltb.
  pose proof (proj2 (String_as_OT.cmp_eq a a) eq_refl) as Hcmp.
  unfold String_as_OT.cmp in Hcmp. by rewrite Hcmp.
Qed.

Lemma str_lt_asym (a b : string) : str_lt a b = true -> str_lt b a = false.
Proof.
  unfold str_lt, String.ltb. rewrite (String.compare_antisym a b).
  by destruct (String.compare b a).
Qed.

Lemma str_lt_trans (a b c : string) :
  str_lt a b = true -> str_lt b c = true -> str_lt a c = true.
Proof.
  unfold str_lt, String.ltb.
  destruct (String.compare a b) eqn:Hab; try done.
  destruct (String.compare b c) eqn:Hbc; try done.
  intros _ _.
  apply String_as_OT.cmp_lt in Hab, Hbc.
  pose proof (String_as_OT.lt_trans _ _ _ Hab Hbc) as Hac.
  apply String_as_OT.cmp_lt in Hac. unfold String_as_OT.cmp in Hac.
  by rewrite Hac.
Qed.

Lemma str_lt_total (a b : string) :
  a <> b -> str_lt a b = true \/ str_lt b a = true.
Proof.
  intros Hne. unfold str_lt, String.ltb.
  rewrite (String.compare_antisym b a).
  destruct (String.compare a b) eqn:Hab; simpl; auto.
  by apply String_as_OT.cmp_eq in Hab.
Qed.

Section strict_total_facts.
Context {A : Type} (lt : A -> A -> bool).
Hypothesis lt_total : strict_total lt.

Lemma strict_total_asym (x y : A) : lt x y = true -> lt y x = false.
Proof.
  destruct lt_total as (Hirr & Htrans & _). intros Hxy.
  destruct (lt y x) eqn:Hyx; [|done].
  by rewrite <- (Hirr x), <- (Htrans x y x Hxy Hyx).
Qed.

Lemma strict_total_le_trans (x y z : A) :
  lt y x = false -> lt z y = false -> lt z x = false.
Proof.
  destruct lt_total as (Hirr & Htrans & Htot). intros Hyx Hzy.
  destruct (lt z x) eqn:Hzx; [|done]. exfalso.
  destruct (lt x y) eqn:Hxy.
  - by rewrite (Htrans z x y Hzx Hxy) in Hzy.
  - assert (~ x <> y) as Heq by (intros [?|?]%Htot; congruence).
    assert (lt z y = true); [|congruence].
    destruct (lt z y) eqn:E; [done|]. exfalso. apply Heq. intros ->. congruence.
Qed.
End strict_total_facts.

(** The orders of the keys. *)
Lemma str_lt_strict_total : strict_total str_lt.
Proof.
  split_and!; [apply str_lt_irrefl|apply str_lt_trans|apply str_lt_total].
Qed.

Lemma region_category_strict_total : strict_total region_category_lt.
Proof.
  unfold region_category_lt. split_and!.
  - intros [r c]. cbn [fst snd]. rewrite decide_True by done. apply str_lt_irrefl.
  - intros [r1 c1] [r2 c2] [r3 c3]. cbn [fst snd].
    repeat case_decide; subst; try done.
    + apply str_lt_trans.
    + intros Hlt1 Hlt2. pose proof (str_lt_trans _ _ _ Hlt1 Hlt2) as Hlt.
      by rewrite str_lt_irrefl in Hlt.
    + apply str_lt_trans.
  - intros [r1 c1] [r2 c2] Hne. cbn [fst snd].
    repeat case_decide; subst; try done.
    + apply str_lt_total. congruence.
    + by apply str_lt_total.
Qed.

Lemma year_region_category_strict_total : strict_total year_region_category_lt.
Proof.
  destruct region_category_strict_total as (Hirr & Htrans & Htot).
  unfold year_region_category_lt. split_and!.
  - intros [[y r] c]. rewrite decide_True by done. apply Hirr.
  - intros [[y1 r1] c1] [[y2 r2] c2] [[y3 r3] c3].
    repeat case_decide; subst; try done; rewrite ?bool_decide_eq_true; try lia.
    apply Htrans.
  - intros [[y1 r1] c1] [[y2 r2] c2] Hne.
    repeat case_decide; subst; try done; rewrite ?bool_decide_eq_true; try lia.
    apply Htot. congruence.
Qed.

(** ** The order of the heap's tuples *)

(** The heap's tuples compare by the margins, then by the
    (category, sub_category) pairs. *)
Lemma tuple_lt_unfold (m1 m2 : float) (c1 s1 c2 s2 : string) :
  tuple_lt (m1, c1, s1) (m2, c2, s2)
  = if m1 =? m2 then region_category_lt (c1, s1) (c2, s2) else m1 <? m2.
Proof. done. Qed.

Lemma tuple_lt_irrefl (a : margin_tuple) : tuple_lt a a = false.
Proof.
  destruct a as [[m c] s]. rewrite tuple_lt_unfold.
  destruct (m =? m); [|apply ltb_irrefl].
  by destruct region_category_strict_total as (-> & _).
Qed.

Lemma tuple_lt_asym (a b : margin_tuple) :
  tuple_lt a b = true -> tuple_lt b a = false.
Proof.
  destruct a as [[m1 c1] s1], b as [[m2 c2] s2]. rewrite !tuple_lt_unfold.
  rewrite (eqb_sym m2 m1). destruct (m1 =? m2).
  - apply (strict_total_asym _ region_category_strict_total).
  - apply ltb_asym.
Qed.

Lemma tuple_le_trans (a b c : margin_tuple) :
  margin_ok a -> margin_ok b -> margin_ok c ->
  le_of tuple_lt a b -> le_of tuple_lt b c -> le_of tuple_lt a c.
Proof.
  destruct a as [[m1 c1] s1], b as [[m2 c2] s2], c as [[m3 c3] s3].
  unfold margin_ok, le_of. cbn [fst]. rewrite !tuple_lt_unfold.
  intros H1 H2 H3.
  destruct (m2 =? m1) eqn:E21, (m3 =? m2) eqn:E32, (m3 =? m1) eqn:E31;
    intros Hab Hbc; try (by float_order).
  by apply (strict_total_le_trans _ region_category_strict_total _ (c2, s2)).
Qed.

(** Two tuples of different groups are ordered. *)
Lemma tuple_lt_total (a b : margin_tuple) :
  margin_ok a -> margin_ok b -> tuple_key a <> tuple_key b ->
  tuple_lt a b = true \/ tuple_lt b a = true.
Proof.
  destruct a as [[m1 c1] s1], b as [[m2 c2] s2].
  unfold margin_ok, tuple_key. cbn [fst snd]. rewrite !tuple_lt_unfold.
  intros H1 H2 Hne. rewrite (eqb_sym m2 m1).
  destruct (m1 =? m2) eqn:E12.
  - by apply region_category_strict_total.
  - destruct (m1 <? m2) eqn:E; [by left|]. right. float_order.
Qed.

Lemma tuple_le_antisym (a b : margin_tuple) :
  margin_ok a -> margin_ok b ->
  le_of tuple_lt a b -> le_of tuple_lt b a -> tuple_key a = tuple_key b.
Proof.
  unfold le_of. intros Ha Hb Hab Hba.
  destruct (decide (tuple_key a = tuple_key b)) as [|Hne]; [done|].
  destruct (tuple_lt_total a b Ha Hb Hne); congruence.
Qed.

(** The margin of a tuple that is not greater is not greater. *)
Lemma tuple_le_margin (a b : margin_tuple) :
  le_of tuple_lt a b -> float_le a.1.1 b.1.1.
Proof.
  destruct a as [[m1 c1] s1], b as [[m2 c2] s2].
  unfold le_of, float_le. cbn [fst]. rewrite tuple_lt_unfold.
  destruct (m2 =? m1) eqn:E; [|done]. intros _. by apply eqb_not_ltb.
Qed.
(** ** [top_categories_by_margin] *)

Local Abbreviation by_margin := (fun x y : margin_tuple => x.1.1 <? y.1.1).

(** One push, followed by a pop when the heap has more than [n] tuples. *)
Lemma top_push_pop (n : Z) (heap excl : list margin_tuple) (x : margin_tuple) :
  top_size n heap excl ->
  exists heap' excl',
    (do heap1 <- heappush tuple_lt heap x;
     if decide (n < Z.of_nat (length heap1))%Z then
       do '(_, heap2) <- heappop tuple_lt heap1; Ok heap2
     else Ok heap1) = Ok heap' /\
    heap' ++ excl' ≡ₚ x :: heap ++ excl /\
    top_size n heap' excl' /\
    (Forall margin_ok (x :: heap ++ excl) ->
     top_order heap excl -> top_order heap' excl').
Proof.
  unfold top_size. intros Hlen.
  destruct (heappush_spec tuple_lt margin_ok tuple_lt_irrefl tuple_lt_asym
              tuple_le_trans heap x) as (heap1 & -> & Hperm1 & Hok1).
  cbn [rbind].
  assert (length heap1 = S (length heap)) as Hlen1 by (by rewrite Hperm1).
  destruct (decide (n < Z.of_nat (length heap1))%Z) as [Hfull|Hroom].
  - destruct (heappop_spec tuple_lt margin_ok tuple_lt_irrefl tuple_lt_asym
                tuple_le_trans heap1) as (m & heap2 & -> & Hperm2 & Hpop).
    { intros ->. simpl in Hlen1. lia. }
    cbn [rbind]. exists heap2, (m :: excl).
    assert (length heap2 = length heap) as Hlen2.
    { rewrite Hperm2 in Hlen1. simpl in Hlen1. lia. }
    split_and!; [done| | |].
    + rewrite <- Permutation_middle, app_comm_cons, <- Hperm2, Hperm1. done.
    + rewrite Hlen2. simpl length. lia.
    + intros [Hx [Hheap Hexcl]%Forall_app]%Forall_cons (Hok & Hle).
      assert (Forall margin_ok heap1) as HP1 by (rewrite Hperm1; by constructor).
      destruct (Hpop HP1 (Hok1 Hheap Hx Hok)) as [Hok2 Hmin].
      split; [done|].
      intros e r He Hr.
      assert (r ∈ heap1) as Hr1 by (rewrite Hperm2; by right).
      apply elem_of_cons in He as [->|He]; [by apply Hmin|].
      assert (m ∈ x :: heap) as Hm by (rewrite <- Hperm1, Hperm2; by left).
      rewrite Forall_forall in HP1, Hexcl.
      apply elem_of_cons in Hm as [->|Hm].
      * apply (Hle e r He).
        rewrite Hperm1 in Hperm2. apply Permutation_cons_inv in Hperm2.
        by rewrite Hperm2.
      * rewrite Hperm1 in Hr1. apply elem_of_cons in Hr1 as [->|Hr1]; [|by apply Hle].
        apply (tuple_le_trans e m x); [by apply Hexcl| |done|by apply Hle|].
        -- apply HP1. rewrite Hperm2. by left.
        -- apply Hmin. rewrite Hperm1. by left.
  - exists heap1, excl.
    assert (excl = []) as ->.
    { destruct excl as [|e excl]; [done|]. simpl in Hlen. lia. }
    split_and!; [done| | |].
    + by rewrite !app_nil_r.
    + simpl in *. lia.
    + intros [Hx [Hheap _]%Forall_app]%Forall_cons (Hok & _).
      split; [by apply Hok1|]. intros e r He. by apply elem_of_nil in He.
Qed.

Lemma top_loop (total_profit : dict (string * string) float) (n : Z)
    (items : dict (string * string) float) (heap excl : list margin_tuple) :
  top_size n heap excl ->
  exists heap' excl',
    for_each (top_step total_profit n) items heap = Ok heap' /\
    heap' ++ excl' ≡ₚ omap (margin_candidate total_profit) items ++ heap ++ excl /\
    top_size n heap' excl' /\
    (Forall margin_ok (omap (margin_candidate total_profit) items ++ heap ++ excl) ->
     top_order heap excl -> top_order heap' excl').
Proof.
  revert heap excl. induction items as [|[[c s] v] items IH]; intros heap excl Hsize.
  - exists heap, excl. by split_and!.
  - cbn [for_each omap list_omap]. unfold top_step at 1, truthy.
    assert (margin_candidate total_profit (c, s, v)
            = if v =? 0 then None
              else Some (dd_get total_profit (c, s) 0 / v, c, s)) as -> by done.
    destruct (v =? 0) eqn:Hv; cbn [negb].
    + cbn [rbind]. apply IH, Hsize.
    + rewrite py_truediv_Ok by done. cbn [rbind].
      destruct (top_push_pop n heap excl (dd_get total_profit (c, s) 0 / v, c, s) Hsize)
        as (heap1 & excl1 & -> & Hperm1 & Hsize1 & Horder1).
      cbn [rbind].
      destruct (IH heap1 excl1 Hsize1) as (heap' & excl' & -> & Hperm' & Hsize' & Horder').
      exists heap', excl'. split_and!; [done| |done|].
      * rewrite Hperm', Hperm1. simpl. symmetry. apply Permutation_middle.
      * intros HP Horder. apply Horder'.
        -- rewrite Hperm1. revert HP. simpl. rewrite <- Permutation_middle. done.
        -- apply Horder1; [|done]. clear -HP. simpl in HP.
           apply Forall_cons in HP as [Hx [_ Hrest]%Forall_app]. by constructor.
Qed.

Lemma top_size_nil (n : Z) : top_size n [] [].
Proof. unfold top_size. simpl. lia. Qed.

Lemma top_order_nil : top_order [] [].
Proof.
  split; [apply heap_ok_nil|]. intros e r He. by apply elem_of_nil in He.
Qed.

(** The result of [top_categories_by_margin]: the heap at the end of the
    loop, in the order of the final sort. *)
Lemma top_categories_heap (source : list Order) (n : Z) :
  exists heap excl,
    top_categories_by_margin source n
    = Ok (result_entry <$> py_sorted by_margin true heap) /\
    heap ++ excl ≡ₚ candidates_of source /\
    top_size n heap excl /\
    (Forall margin_ok (candidates_of source) -> top_order heap excl).
Proof.
  unfold top_categories_by_margin.
  rewrite (aggregate_sum_by_key_fold _ _ sales) by done. cbn [rbind].
  rewrite (aggregate_sum_by_key_fold _ _ profit) by done. cbn [rbind].
  destruct (top_loop (sum_fold cat_subcat profit source) n
              (sum_fold cat_subcat sales source) [] [] (top_size_nil n))
    as (heap & excl & -> & Hperm & Hsize & Horder).
  cbn [rbind]. exists heap, excl. rewrite !app_nil_r in *. split_and!; [done..|].
  intros HP. apply Horder; [done|apply top_order_nil].
Qed.

(** *** The candidates *)

Lemma margin_candidate_key (total_profit : dict (string * string) float)
    (item : string * string * float) (t : margin_tuple) :
  margin_candidate total_profit item = Some t ->
  item.1 = (t.1.2, t.2) /\ (item.2 =? 0) = false /\
  t.1.1 = dd_get total_profit item.1 0 / item.2.
Proof.
  destruct item as [[c s] v]. unfold margin_candidate.
  destruct (v =? 0) eqn:Hv; [done|]. by intros [= <-].
Qed.

(** A candidate is a group with its margin. *)
Lemma candidates_margin (source : list Order) (m : float) (c s : string) :
  (m, c, s) ∈ candidates_of source <-> group_margin source (c, s) = Some m.
Proof.
  unfold candidates_of, margin_candidates, group_margin.
  rewrite list_elem_of_omap. split.
  - intros ([[c' s'] v] & Hin & Hcand).
    apply margin_candidate_key in Hcand as ([= -> ->] & Hv & Hm). simpl in *.
    apply (dict_get_NoDup _ _ _ (sum_fold_NoDup _ _ _)) in Hin.
    rewrite sum_fold_get, group_of_cat_subcat in Hin.
    case_decide as Hk; [|done]. injection Hin as <-.
    apply cat_subcat_elem in Hk.
    destruct (records_of (c, s) source) as [|o l] eqn:E; [done|].
    cbv zeta. rewrite Hv. f_equal. rewrite Hm. unfold dd_get.
    rewrite sum_fold_get, group_of_cat_subcat, E, decide_True; [done|].
    apply cat_subcat_elem. by rewrite E.
  - destruct (records_of (c, s) source) as [|o l] eqn:E; [done|]. cbv zeta.
    destruct (float_sum (sales <$> o :: l) =? 0) eqn:Hv; [done|]. intros [= <-].
    assert ((c, s) ∈ cat_subcat <$> source) as Hk.
    { apply cat_subcat_elem. by rewrite E. }
    exists (c, s, float_sum (sales <$> o :: l)). split.
    + apply dict_get_elem_of.
      by rewrite sum_fold_get, group_of_cat_subcat, E, decide_True.
    + unfold margin_candidate. rewrite Hv. unfold dd_get.
      by rewrite sum_fold_get, group_of_cat_subcat, E, decide_True.
Qed.

Lemma candidates_keys_NoDup (source : list Order) :
  NoDup (tuple_key <$> candidates_of source).
Proof.
  unfold candidates_of, margin_candidates.
  pose proof (sum_fold_NoDup cat_subcat sales source) as Hnd.
  unfold dict_keys in Hnd.
  induction (sum_fold cat_subcat sales source) as [|item items IH]; [constructor|].
  rewrite fmap_cons in Hnd. apply NoDup_cons in Hnd as [Hnotin Hnd].
  cbn [omap list_omap].
  destruct (margin_candidate _ item) as [t|] eqn:Hcand; [|by apply IH].
  rewrite fmap_cons. apply NoDup_cons. split; [|by apply IH].
  intros (t' & Hkey & (item' & Hin & Hcand')%list_elem_of_omap)%list_elem_of_fmap.
  apply Hnotin.
  apply margin_candidate_key in Hcand as (-> & _).
  apply margin_candidate_key in Hcand' as (Hkey' & _).
  fold (tuple_key t). fold (tuple_key t') in Hkey'. rewrite Hkey, <- Hkey'.
  apply list_elem_of_fmap. eauto.
Qed.

Lemma candidates_of_NoDup (source : list Order) : NoDup (candidates_of source).
Proof. eapply NoDup_fmap_1, candidates_keys_NoDup. Qed.

(** Two candidates of the same group are the same. *)
Lemma candidates_same_key (source : list Order) (t t' : margin_tuple) :
  t ∈ candidates_of source -> t' ∈ candidates_of source ->
  tuple_key t = tuple_key t' -> t = t'.
Proof.
  destruct t as [[m c] s], t' as [[m' c'] s']. intros Ht Ht' [= <- <-].
  apply candidates_margin in Ht, Ht'. congruence.
Qed.

(** The keys of the sales totals are the groups of the records, in the
    order of their first occurrence. *)
Lemma sales_totals_keys (source : list Order) :
  dict_keys (sum_fold cat_subcat sales source) = group_keys source.
Proof. apply keyed_fold_first_seen. Qed.

(** The groups of the candidates are the groups that have a margin. *)
Lemma candidates_keys (source : list Order) :
  tuple_key <$> candidates_of source = ranked_keys source.
Proof.
  unfold ranked_keys. rewrite <- sales_totals_keys.
  unfold candidates_of, margin_candidates.
  assert (forall item, item ∈ sum_fold cat_subcat sales source ->
            tuple_key <$> margin_candidate (sum_fold cat_subcat profit source) item
            = (fun _ => item.1) <$> group_margin source item.1) as Hitem.
  { intros [[c s] v] Hin. cbn [fst].
    destruct (margin_candidate (sum_fold cat_subcat profit source) (c, s, v))
      as [[[m c'] s']|] eqn:Hcand.
    - pose proof Hcand as ([= <- <-] & _)%margin_candidate_key.
      assert ((m, c, s) ∈ candidates_of source) as Hc.
      { apply list_elem_of_omap. eauto. }
      apply candidates_margin in Hc. by rewrite Hc.
    - destruct (group_margin source (c, s)) as [m|] eqn:Hm; [|done].
      apply candidates_margin, list_elem_of_omap in Hm
        as ([[c' s'] v'] & Hin' & Hcand').
      pose proof Hcand' as ([= -> ->] & _)%margin_candidate_key.
      pose proof (sum_fold_NoDup cat_subcat sales source) as Hnd.
      apply (dict_get_NoDup _ _ _ Hnd) in Hin, Hin'. congruence. }
  unfold dict_keys.
  induction (sum_fold cat_subcat sales source) as [|item items IH]; [done|].
  cbn [omap list_omap]. rewrite fmap_cons, filter_cons.
  specialize (Hitem item ltac:(by left)) as Hhead.
  destruct (margin_candidate _ item) as [t|], (group_margin source item.1) as [m|];
    try done; simpl in Hhead.
  - rewrite decide_True by eauto. rewrite fmap_cons. f_equal; [congruence|].
    apply IH. intros item' ?. apply Hitem. by right.
  - rewrite decide_False by (by intros [? ?]).
    apply IH. intros item' ?. apply Hitem. by right.
Qed.

Lemma candidates_length (source : list Order) :
  length (candidates_of source) = length (ranked_keys source).
Proof. by rewrite <- candidates_keys, length_fmap. Qed.

(** No candidate has the margin NaN, when no group has. *)
Lemma no_nan_candidates (source : list Order) :
  no_nan_margin source = true -> Forall margin_ok (candidates_of source).
Proof.
  intros Hall. apply Forall_forall. intros [[m c] s] Hin.
  assert ((c, s) ∈ group_keys source) as Hk.
  { assert (tuple_key (m, c, s) ∈ ranked_keys source) as Hr.
    { rewrite <- candidates_keys. by apply list_elem_of_fmap_2. }
    by apply list_elem_of_filter in Hr as [_ ?]. }
  apply candidates_margin in Hin.
  apply (forallb_true_elem _ _ Hall) in Hk. rewrite Hin in Hk.
  unfold margin_ok. simpl. by destruct (is_nan m).
Qed.

(** A heap that keeps the greatest tuples of the candidates is included
    in every such heap that is not smaller. *)
Lemma top_heap_included (n1 n2 : Z) (source : list Order)
    (heap1 excl1 heap2 excl2 : list margin_tuple) :
  Forall margin_ok (candidates_of source) ->
  heap1 ++ excl1 ≡ₚ candidates_of source ->
  heap2 ++ excl2 ≡ₚ candidates_of source ->
  top_size n1 heap1 excl1 -> top_order heap1 excl1 ->
  top_size n2 heap2 excl2 -> top_order heap2 excl2 ->
  (n1 <= n2)%Z ->
  forall r, r ∈ heap1 -> r ∈ heap2.
Proof.
  unfold top_size.
  intros HP Hperm1 Hperm2 Hlen1 (_ & Hle1) Hlen2 (_ & Hle2) Hn r Hr.
  pose proof (candidates_of_NoDup source) as Hnd.
  assert (length heap1 <= length heap2)%nat as Hlen.
  { rewrite <- !length_app, Hperm1 in Hlen1. rewrite <- !length_app, Hperm2 in Hlen2.
    lia. }
  assert (NoDup heap1 /\ NoDup heap2) as [Hnd1 Hnd2].
  { assert (NoDup (heap1 ++ excl1)) as Hnd1 by (by rewrite Hperm1).
    assert (NoDup (heap2 ++ excl2)) as Hnd2 by (by rewrite Hperm2).
    apply NoDup_app in Hnd1 as (? & _ & _).
    by apply NoDup_app in Hnd2 as (? & _ & _). }
  assert (forall t, t ∈ heap1 ++ excl1 -> t ∈ candidates_of source) as Hc1.
  { intros t. by rewrite Hperm1. }
  assert (forall t, t ∈ heap2 ++ excl2 -> t ∈ candidates_of source) as Hc2.
  { intros t. by rewrite Hperm2. }
  rewrite Forall_forall in HP.
  destruct (decide (r ∈ heap2)) as [|Hnot2]; [done|]. exfalso.
  assert (r ∈ excl2) as Hexcl2.
  { assert (r ∈ heap2 ++ excl2) as Hin by (rewrite Hperm2, <- Hperm1, elem_of_app; auto).
    apply elem_of_app in Hin as [|]; done. }
  destruct (decide (Forall (fun r' => r' ∈ heap1) heap2)) as [Hall|Hsome].
  - assert (r :: heap2 ⊆+ heap1) as Hsub.
    { apply NoDup_submseteq; [by apply NoDup_cons|].
      intros x [->|Hx]%elem_of_cons; [done|].
      rewrite Forall_forall in Hall. auto. }
    apply submseteq_length in Hsub. simpl in Hsub. lia.
  - apply not_Forall_Exists in Hsome; [|apply _].
    apply Exists_exists in Hsome as (r' & Hr' & Hnot1).
    simpl in Hnot1.
    assert (r' ∈ excl1) as Hexcl1.
    { assert (r' ∈ heap1 ++ excl1) as Hin
        by (rewrite Hperm1, <- Hperm2, elem_of_app; auto).
      apply elem_of_app in Hin as [|]; done. }
    assert (r ∈ candidates_of source) as Hcr by (apply Hc1, elem_of_app; auto).
    assert (r' ∈ candidates_of source) as Hcr' by (apply Hc2, elem_of_app; auto).
    assert (r = r') as ->; [|done].
    apply (candidates_same_key source); [done..|].
    apply tuple_le_antisym; auto.
Qed.

Lemma result_entry_elem (t : margin_tuple) (l : list margin_tuple) :
  result_entry t ∈ result_entry <$> l <-> t ∈ l.
Proof.
  split; [|apply list_elem_of_fmap_2].
  intros (t' & Heq & Hin)%list_elem_of_fmap.
  destruct t as [[m c] s], t' as [[m' c'] s']. by injection Heq as -> -> ->.
Qed.

Lemma result_entry_sorted (l : list margin_tuple) :
  StronglySorted (fun x y : margin_tuple => float_le y.1.1 x.1.1) l ->
  StronglySorted (fun a b : string * string * float => (a.2 <? b.2) = false)
                 (result_entry <$> l).
Proof.
  induction 1 as [|t l Hl IH Ht]; [constructor|].
  rewrite fmap_cons. constructor; [done|].
  apply Forall_fmap. eapply Forall_impl; [exact Ht|].
  intros t'. by destruct t as [[m c] s], t' as [[m' c'] s'].
Qed.

Lemma result_entry_key (l : list margin_tuple) :
  (result_entry <$> l).*1 = tuple_key <$> l.
Proof.
  rewrite <- list_fmap_compose. apply list_fmap_ext. by intros _ [[m c] s] _.
Qed.

(** C4 (amended): when no group has the margin NaN,
    [top_categories_by_margin] returns the [n] groups of greatest margin:
    it returns [min (max n 0) k] entries for [k] groups with nonzero total
    sales, hence at most [max n 0] (none for a negative [n]), in descending
    order of the margin; every entry is a group whose total sales are not
    zero, with its margin, no group occurs twice, and the margin of every
    entry is greater than or equal to the margin of every group with
    nonzero total sales that is not in the result. *)
Theorem top_categories_top_n (source : list Order) (n : Z) :
  no_nan_margin source = true ->
  exists top,
    top_categories_by_margin source n = Ok top /\
    Z.of_nat (length top)
    = Z.min (Z.max n 0) (Z.of_nat (length (ranked_keys source))) /\
    (Z.of_nat (length top) <= Z.max n 0)%Z /\
    StronglySorted (fun a b => (a.2 <? b.2) = false) top /\
    NoDup top.*1 /\
    (forall c s m, (c, s, m) ∈ top -> group_margin source (c, s) = Some m) /\
    (forall c s m,
        group_margin source (c, s) = Some m -> (c, s, m) ∉ top ->
        forall c' s' m', (c', s', m') ∈ top -> (m' <? m) = false).
Proof.
  intros HP%no_nan_candidates.
  destruct (top_categories_heap source n) as (heap & excl & Htop & Hperm & Hsize & Horder).
  destruct (Horder HP) as (_ & Hle).
  set (sorted := py_sorted by_margin true heap) in *.
  assert (sorted ≡ₚ heap) as Hsorted by apply py_sorted_perm.
  assert (Z.of_nat (length (result_entry <$> sorted))
          = Z.min (Z.max n 0) (Z.of_nat (length (ranked_keys source)))) as Hlen.
  { unfold top_size in Hsize.
    by rewrite length_fmap, Hsorted, <- candidates_length, <- Hperm, length_app. }
  exists (result_entry <$> sorted). split_and!.
  - done.
  - done.
  - lia.
  - apply result_entry_sorted.
    apply (py_sorted_descending (fun x : margin_tuple => x.1.1)).
    rewrite <- Hperm in HP. by apply Forall_app in HP as [? _].
  - rewrite result_entry_key, Hsorted.
    pose proof (candidates_keys_NoDup source) as Hnd.
    rewrite <- Hperm, fmap_app in Hnd. by apply NoDup_app in Hnd as (? & _ & _).
  - intros c s m Hin.
    change (c, s, m) with (result_entry (m, c, s)) in Hin.
    apply result_entry_elem in Hin. rewrite Hsorted in Hin.
    apply candidates_margin. rewrite <- Hperm, elem_of_app. auto.
  - intros c s m Hm Hnot c' s' m' Hin.
    change (c, s, m) with (result_entry (m, c, s)) in Hnot.
    change (c', s', m') with (result_entry (m', c', s')) in Hin.
    rewrite result_entry_elem, Hsorted in Hnot, Hin.
    apply candidates_margin in Hm. rewrite <- Hperm in Hm.
    apply elem_of_app in Hm as [|Hexcl]; [done|].
    apply (tuple_le_margin (m, c, s) (m', c', s')). by apply Hle.
Qed.

(** C9 (amended): when no group has the margin NaN, the tuples that
    [top_categories_by_margin] keeps are the [min (max n 0) k] greatest of
    the [k] candidates in the lexicographic order of
    [(margin, category, sub_category)]: a candidate that is left out is
    smaller than every candidate that is kept, so among equal margins the
    greater (category, sub_category) is kept.  The kept tuples depend on
    the candidates only: two such sources with the same candidates have
    the same entries in their results, up to the order of the entries. *)
Theorem top_categories_ties (source : list Order) (n : Z) :
  no_nan_margin source = true ->
  exists top,
    top_categories_by_margin source n = Ok top /\
    Z.of_nat (length top)
    = Z.min (Z.max n 0) (Z.of_nat (length (candidates_of source))) /\
    (forall e r,
        e ∈ candidates_of source ->
        result_entry e ∉ top -> result_entry r ∈ top ->
        tuple_lt e r = true /\
        ((e.1.1 =? r.1.1) = true ->
         str_lt e.1.2 r.1.2 = true \/
         (e.1.2 = r.1.2 /\ str_lt e.2 r.2 = true))) /\
    (forall source' top',
        candidates_of source' ≡ₚ candidates_of source ->
        top_categories_by_margin source' n = Ok top' ->
        top' ≡ₚ top).
Proof.
  intros HP%no_nan_candidates.
  destruct (top_categories_heap source n) as (heap & excl & Htop & Hperm & Hsize & Horder).
  specialize (Horder HP).
  set (sorted := py_sorted by_margin true heap) in *.
  assert (sorted ≡ₚ heap) as Hsorted by apply py_sorted_perm.
  exists (result_entry <$> sorted). split_and!; [done| | |].
  - unfold top_size in Hsize.
    by rewrite length_fmap, Hsorted, <- Hperm, length_app.
  - intros e r He Hnot Hin. rewrite result_entry_elem, Hsorted in Hnot, Hin.
    assert (e ∈ excl) as Hexcl.
    { rewrite <- Hperm in He. apply elem_of_app in He as [|]; done. }
    assert (r ∈ candidates_of source) as Hr by (rewrite <- Hperm, elem_of_app; auto).
    destruct Horder as (_ & Hle). specialize (Hle e r Hexcl Hin).
    rewrite Forall_forall in HP.
    assert (tuple_lt e r = true) as Hlt.
    { destruct (tuple_lt_total e r) as [|Hgt]; [by apply HP..| |done|].
      - intros Hkey. apply (candidates_same_key source) in Hkey; [|done..].
        by subst.
      - unfold le_of in Hle. congruence. }
    split; [done|]. clear -Hlt.
    destruct e as [[m1 k1] s1], r as [[m2 k2] s2]. simpl. intros Heq.
    unfold tuple_lt in Hlt. rewrite Heq in Hlt.
    destruct (decide (k1 = k2)); auto.
  - intros source' top' Hcands Htop'.
    assert (Forall margin_ok (candidates_of source')) as HP' by (by rewrite Hcands).
    destruct (top_categories_heap source' n)
      as (heap' & excl' & Htop'' & Hperm' & Hsize' & Horder').
    specialize (Horder' HP').
    rewrite Htop' in Htop''. injection Htop'' as ->.
    rewrite Hcands in Hperm'.
    pose proof (candidates_of_NoDup source) as Hnd.
    rewrite py_sorted_perm, Hsorted. f_equiv.
    apply NoDup_Permutation.
    + assert (NoDup (heap' ++ excl')) as Hnd' by (by rewrite Hperm').
      by apply NoDup_app in Hnd' as (? & _ & _).
    + assert (NoDup (heap ++ excl)) as Hnd' by (by rewrite Hperm).
      by apply NoDup_app in Hnd' as (? & _ & _).
    + intros t. split.
      * by apply (top_heap_included n n source heap' excl' heap excl).
      * by apply (top_heap_included n n source heap excl heap' excl').
Qed.
(** ** What the queries raise *)

Lemma yoy_group_rows (source : list Order) :
  exists trends,
    yoy_category_sales_trends source = Ok trends /\
    forall key rows,
      dict_get trends key = Some rows -> exists entries, rows = yoy_rows None entries.
Proof.
  eexists. split; [apply yoy_results|]. intros key rows.
  rewrite (dict_get_map
             (fun _ entries =>
                yoy_rows None
                  (py_sorted (fun x y => (x.1 <? y.1)%Z) false entries))).
  destruct (dict_get _ key) as [entries|]; simpl; [|done].
  intros [= <-]. eauto.
Qed.

Lemma top_categories_entries (source : list Order) (n : Z) :
  exists top,
    top_categories_by_margin source n = Ok top /\
    forall c s m, (c, s, m) ∈ top -> group_margin source (c, s) = Some m.
Proof.
  destruct (top_categories_heap source n) as (heap & excl & Htop & Hperm & _).
  eexists. split; [exact Htop|]. intros c s m Hin.
  change (c, s, m) with (result_entry (m, c, s)) in Hin.
  apply result_entry_elem in Hin. rewrite py_sorted_perm in Hin.
  apply candidates_margin. rewrite <- Hperm, elem_of_app. auto.
Qed.

Lemma date_pairs_days_nil (source : list Order) :
  days_between <$> date_pairs source = [] <-> date_pairs source = [].
Proof. split; [apply fmap_nil_inv|by intros ->]. Qed.

(** C6 (amended): no division by zero takes place and no empty group
    raises, whatever the records: the change after previous sales of zero
    is [None], as are the fields of the first row of a trend; the margin
    of a group with total sales of zero is [None] and such a group is not
    in the margin ranking; the share of the discounted profit is [None]
    when the total profit is zero; the average fulfillment time is [None]
    when no record has both dates; the standard deviations have the keys
    of the records, no other.  A group without records is a missing key or
    [None], except in [total_discounted_profit], which is the number 0.0
    when no record has a discount.  Seven of the nine queries return for
    every input; [average_fulfillment_days] raises [TypeError] exactly when
    a record has a naive and an offset-aware date, and
    [profit_std_by_market_category] raises [ValueError] exactly when the
    variance of some group is negative. *)
Theorem queries_resolve_zero_divisions (source : list Order) (n : Z) (sample : bool) :
  (exists totals, sales_by_year_region_category source = Ok totals) /\
  (exists trends,
      yoy_category_sales_trends source = Ok trends /\
      forall key rows,
        dict_get trends key = Some rows ->
        (forall row, rows !! 0%nat = Some row ->
                     row_prev row = None /\ row_change row = None) /\
        (forall i row row',
            rows !! i = Some row -> rows !! S i = Some row' ->
            (row_sales row =? 0) = true -> row_change row' = None)) /\
  (exists total_sales margins,
      aggregate_sum_by_key source cat_subcat (attr sales) = Ok total_sales /\
      profit_margin_by_category_subcategory source = Ok margins /\
      forall key v, dict_get total_sales key = Some v -> (v =? 0) = true ->
                    dict_get margins key = Some None) /\
  (exists total_sales top,
      aggregate_sum_by_key source cat_subcat (attr sales) = Ok total_sales /\
      top_categories_by_margin source n = Ok top /\
      forall c s m v, dict_get total_sales (c, s) = Some v -> (v =? 0) = true ->
                      (c, s, m) ∉ top) /\
  (exists discounted,
      total_discounted_profit source = Ok discounted /\
      (filter (fun o => Is_true (0 <? discount o)) source = [] -> discounted = 0)) /\
  (exists share,
      discounted_profit_share source = Ok share /\
      ((float_sum (profit <$> source) =? 0) = true -> share = None)) /\
  match average_fulfillment_days source with
  | Ok average =>
      forallb same_awareness (date_pairs source) = true /\
      (date_pairs source = [] <-> average = None)
  | Raise e =>
      e = TypeError /\ forallb same_awareness (date_pairs source) = false
  end /\
  match profit_std_by_market_category source sample with
  | Ok stds =>
      forall key,
        let profits :=
          profit <$> filter (fun o => (market o, category o) = key) source in
        (is_Some (dict_get stds key) <->
         exists o, o ∈ source /\ (market o, category o) = key) /\
        (profits <> [] -> (variance_of sample (welford profits) <? 0) = false)
  | Raise e =>
      e = ValueError /\
      exists key,
        let profits :=
          profit <$> filter (fun o => (market o, category o) = key) source in
        profits <> [] /\ (variance_of sample (welford profits) <? 0) = true
  end /\
  (exists stats, profit_min_max_count_by_market_category source = Ok stats).
Proof.
  split_and!.
  - eexists. by apply (aggregate_sum_by_key_fold _ _ sales).
  - destruct (yoy_group_rows source) as (trends & Htrends & Hrows).
    exists trends. split; [done|]. intros key rows Hget.
    destruct (Hrows key rows Hget) as [entries ->]. split.
    + intros row Hrow. split; [by apply yoy_rows_first in Hrow|].
      destruct entries as [|[y s] es]; simpl in Hrow; [done|].
      by injection Hrow as <-.
    + intros i row row' Hrow Hrow' Hzero.
      destruct (yoy_rows_next _ _ _ _ _ Hrow Hrow') as [_ ->].
      unfold yoy_change_of. by rewrite Hzero.
  - eexists _, _. split_and!.
    + by apply (aggregate_sum_by_key_fold _ _ sales).
    + apply profit_margin_map.
    + intros key v Hget Hv.
      rewrite (dict_get_map (margin_of (sum_fold cat_subcat profit source))), Hget.
      simpl. unfold margin_of. by rewrite Hv.
  - destruct (top_categories_entries source n) as (top & Htop & Hentries).
    eexists _, top. split_and!.
    + by apply (aggregate_sum_by_key_fold _ _ sales).
    + done.
    + intros c s m v Hget Hv Hin. apply Hentries in Hin.
      rewrite sum_fold_get, group_of_cat_subcat in Hget.
      case_decide; [|done]. injection Hget as <-.
      unfold group_margin in Hin.
      destruct (records_of (c, s) source); [done|]. cbv zeta in Hin.
      by rewrite Hv in Hin.
  - eexists. split; [apply total_discounted_profit_sum|].
    unfold discounted. by intros ->.
  - eexists. split; [apply discounted_profit_share_value|].
    intros Hzero. by rewrite Hzero.
  - rewrite average_fulfillment_days_value. cbv zeta.
    destruct (forallb same_awareness (date_pairs source)); [|done].
    split; [done|]. rewrite <- date_pairs_days_nil.
    by destruct (days_between <$> date_pairs source).
  - unfold profit_std_by_market_category.
    rewrite (aggregate_stddev_by_key_spec market_category (attr profit) profit) by done.
    cbv zeta. destruct (forallb _ (stats_fold market_category profit source)) eqn:Hall.
    + intros key. cbv zeta. split.
      * rewrite (dict_get_map (fun _ st => stddev_of sample st)), fmap_is_Some.
        rewrite stats_fold_get. unfold market_category.
        case_decide as Hk; rewrite list_elem_of_fmap in Hk.
        -- split; [|by eauto]. intros _. destruct Hk as (o & -> & Ho). by exists o.
        -- split; [by intros [? ?]|]. intros (o & Ho & <-). destruct Hk. by exists o.
      * intros Hne.
        apply (nonnegative_variance_key market_category profit sample source key Hall).
        destruct (decide (key ∈ market_category <$> source)) as [|Hnot]; [done|].
        apply group_of_nil in Hnot. unfold group_of, market_category in Hnot.
        by rewrite Hnot in Hne.
    + split; [done|].
      apply negative_variance_key in Hall as (key & Hkey & Hneg).
      exists key. cbv zeta. split; [|done].
      intros Hnil%fmap_nil_inv. by apply group_of_nil in Hnil.
  - eexists. by apply (aggregate_min_max_count_by_key_fold _ _ profit).
Qed.
(** ** The ranking and the margins *)

Local Abbreviation margin_order := (fun x y : margin_tuple => x.1.1 <? y.1.1).

(** The margins of the groups, for all keys at once. *)
Lemma margins_defined (source : list Order) :
  exists margins,
    profit_margin_by_category_subcategory source = Ok margins /\
    length margins = length (group_keys source) /\
    forall c s m,
      dict_get margins (c, s) = Some (Some m) <-> (m, c, s) ∈ candidates_of source.
Proof.
  destruct (margins_get source (EmptyString, EmptyString))
    as (margins & Hmargins & _ & Hkeys & _).
  exists margins. split_and!; [done| |].
  - rewrite <- sales_totals_keys, <- Hkeys. unfold dict_keys. by rewrite length_fmap.
  - intros c s m.
    destruct (margins_get source (c, s)) as (margins' & Hmargins' & _ & _ & Hget).
    assert (margins' = margins) as -> by congruence.
    rewrite Hget, candidates_margin. unfold group_margin.
    destruct (records_of (c, s) source); [done|]. cbv zeta.
    destruct (_ =? 0); split; congruence.
Qed.

Lemma ranked_keys_length (source : list Order) :
  (length (ranked_keys source) <= length (group_keys source))%nat.
Proof. apply length_filter. Qed.

(** X10: the ranking agrees with the margins: every entry of
    [top_categories_by_margin] is a group of
    [profit_margin_by_category_subcategory] with that margin, no group
    occurs twice, and when [n] is at least the number of groups every
    group that has a margin is in the ranking. *)
Theorem top_categories_agree_with_margins (source : list Order) (n : Z) :
  exists margins top,
    profit_margin_by_category_subcategory source = Ok margins /\
    top_categories_by_margin source n = Ok top /\
    NoDup top.*1 /\
    (forall c s m, (c, s, m) ∈ top -> dict_get margins (c, s) = Some (Some m)) /\
    ((Z.of_nat (length margins) <= n)%Z ->
     forall c s m, dict_get margins (c, s) = Some (Some m) -> (c, s, m) ∈ top).
Proof.
  destruct (margins_defined source) as (margins & Hmargins & Hlen & Hget).
  destruct (top_categories_heap source n) as (heap & excl & Htop & Hperm & Hsize & _).
  set (sorted := py_sorted margin_order true heap) in *.
  assert (sorted ≡ₚ heap) as Hsorted by apply py_sorted_perm.
  exists margins, (result_entry <$> sorted). split_and!; [done..| | |].
  - rewrite result_entry_key, Hsorted.
    pose proof (candidates_keys_NoDup source) as Hnd.
    rewrite <- Hperm, fmap_app in Hnd. by apply NoDup_app in Hnd as (? & _ & _).
  - intros c s m Hin.
    change (c, s, m) with (result_entry (m, c, s)) in Hin.
    rewrite result_entry_elem, Hsorted in Hin.
    rewrite Hget, <- Hperm, elem_of_app. auto.
  - intros Hn c s m. rewrite Hget. intros Hcand.
    change (c, s, m) with (result_entry (m, c, s)).
    rewrite result_entry_elem, Hsorted.
    pose proof (candidates_length source) as Hle.
    pose proof (ranked_keys_length source).
    rewrite <- Hperm, length_app in Hle. unfold top_size in Hsize.
    assert (excl = []) as -> by (apply length_zero_iff_nil; lia).
    by rewrite <- Hperm, app_nil_r in Hcand.
Qed.

(** X11: the ranking is empty exactly when [n <= 0] or no group has a
    margin; when no group has the margin NaN, no margin of
    [profit_margin_by_category_subcategory] is greater than the margin of
    the first entry. *)
Theorem top_categories_first_is_best (source : list Order) (n : Z) :
  exists margins top,
    profit_margin_by_category_subcategory source = Ok margins /\
    top_categories_by_margin source n = Ok top /\
    (top = [] <->
     (n <= 0)%Z \/ forall key m, dict_get margins key <> Some (Some m)) /\
    (no_nan_margin source = true ->
     forall c s m,
       top !! 0%nat = Some (c, s, m) ->
       forall key m', dict_get margins key = Some (Some m') -> (m <? m') = false).
Proof.
  destruct (margins_defined source) as (margins & Hmargins & _ & Hget).
  destruct (top_categories_heap source n) as (heap & excl & Htop & Hperm & Hsize & Horder).
  set (sorted := py_sorted margin_order true heap) in *.
  assert (sorted ≡ₚ heap) as Hsorted by apply py_sorted_perm.
  exists margins, (result_entry <$> sorted). split_and!; [done..| |].
  - assert (result_entry <$> sorted = [] <-> length heap = 0%nat) as ->.
    { by rewrite <- length_zero_iff_nil, length_fmap, Hsorted. }
    assert ((forall key m, dict_get margins key <> Some (Some m))
            <-> length (heap ++ excl) = 0%nat) as ->.
    { rewrite Hperm, length_zero_iff_nil. split.
      - intros Hnone. destruct (candidates_of source) as [|[[m c] s] l] eqn:E; [done|].
        exfalso. apply (Hnone (c, s) m). apply Hget. by left.
      - intros Hnil [c s] m. rewrite Hget, Hnil. apply not_elem_of_nil. }
    unfold top_size in Hsize. rewrite length_app in *. lia.
  - intros HP%no_nan_candidates c s m Hhead [c' s'] m'.
    destruct (Horder HP) as (_ & Hle).
    rewrite Hget, <- Hperm, elem_of_app. intros Hcand.
    assert (StronglySorted (fun x y : margin_tuple => float_le y.1.1 x.1.1) sorted)
      as Hdesc.
    { apply (py_sorted_descending (fun x : margin_tuple => x.1.1)).
      rewrite <- Hperm in HP. by apply Forall_app in HP as [? _]. }
    destruct sorted as [|[[m0 c0] s0] rest] eqn:E; [done|].
    injection Hhead as -> -> ->.
    apply StronglySorted_inv in Hdesc as [_ Hall]. rewrite Forall_forall in Hall.
    assert ((m, c, s) ∈ heap) as Hin by (rewrite <- Hsorted; by left).
    destruct Hcand as [Hheap|Hexcl].
    + rewrite <- Hsorted in Hheap. apply elem_of_cons in Hheap as [[= -> _ _]|Hrest].
      * apply ltb_irrefl.
      * apply (Hall _ Hrest).
    + apply (tuple_le_margin (m', c', s') (m, c, s)). by apply Hle.
Qed.

(** ** The heap of the ranking *)

Lemma omap_take_elem {A B : Type} (f : A -> option B) (k : nat) (l : list A) (x : B) :
  x ∈ omap f (take k l) -> x ∈ omap f l.
Proof.
  rewrite !list_elem_of_omap. intros (a & Ha & Hx). exists a. split; [|done].
  rewrite <- (take_drop k l), elem_of_app. auto.
Qed.

(** X14: the loop of [top_categories_by_margin] keeps at most [max n 0]
    tuples: after every number [k] of items of the sales totals the list
    has [min (max n 0) j] tuples, for the [j] items among them whose sales
    are not zero; when no group has the margin NaN the list is a heap in
    the sense of [heapq] and no tuple has a margin below that of the first
    tuple. *)
Theorem top_categories_heap_invariant (source : list Order) (n : Z) :
  exists total_sales total_profit,
    aggregate_sum_by_key source cat_subcat (attr sales) = Ok total_sales /\
    aggregate_sum_by_key source cat_subcat (attr profit) = Ok total_profit /\
    forall k,
      exists heap,
        for_each (top_step total_profit n) (take k total_sales) [] = Ok heap /\
        Z.of_nat (length heap)
        = Z.min (Z.max n 0)
            (Z.of_nat (length (filter (fun item => (item.2 =? 0) = false)
                                      (take k total_sales)))) /\
        (Z.of_nat (length heap) <= Z.max n 0)%Z /\
        (no_nan_margin source = true ->
         heap_ok tuple_lt heap /\
         forall r t, heap !! 0%nat = Some r -> t ∈ heap -> (t.1.1 <? r.1.1) = false).
Proof.
  eexists _, _. split_and!.
  - by apply (aggregate_sum_by_key_fold _ _ sales).
  - by apply (aggregate_sum_by_key_fold _ _ profit).
  - intros k.
    destruct (top_loop (sum_fold cat_subcat profit source) n
                (take k (sum_fold cat_subcat sales source)) [] [] (top_size_nil n))
      as (heap & excl & Hrun & Hperm & Hsize & Horder).
    rewrite !app_nil_r in *.
    assert (length (heap ++ excl)
            = length (filter (fun item : string * string * float => (item.2 =? 0) = false)
                        (take k (sum_fold cat_subcat sales source)))) as Hlen.
    { rewrite Hperm. generalize (take k (sum_fold cat_subcat sales source)).
      intros l. induction l as [|[[c s] v] l IH]; [done|].
      rewrite filter_cons. cbn [omap list_omap]. unfold margin_candidate at 1.
      case_decide as Hv; cbn [snd] in Hv.
      - rewrite Hv. simpl. f_equal. apply IH.
      - apply not_false_is_true in Hv. rewrite Hv. apply IH. }
    unfold top_size in Hsize. rewrite <- length_app, Hlen in Hsize.
    exists heap. split_and!; [done|done|lia|].
    intros HP%no_nan_candidates.
    assert (Forall margin_ok (heap ++ excl)) as HP'.
    { rewrite Hperm, Forall_forall. intros t Ht%omap_take_elem.
      rewrite Forall_forall in HP. by apply HP. }
    rewrite <- Hperm in Horder. destruct (Horder HP' top_order_nil) as [Hok _].
    split; [done|].
    intros r t Hr (i & Ht)%list_elem_of_lookup.
    apply (tuple_le_margin r t).
    apply Forall_app in HP' as [HPh _].
    by apply (heap_ok_root tuple_lt margin_ok tuple_lt_irrefl tuple_le_trans
                heap r HPh Hok Hr i t).
Qed.

(** X15: when no group has the margin NaN, a greater [n] never drops an
    entry: for [n <= n'], every entry of [top_categories_by_margin] for [n]
    is an entry for [n']. *)
Theorem top_categories_grows_with_n (source : list Order) (n n' : Z) :
  no_nan_margin source = true ->
  (n <= n')%Z ->
  exists top top',
    top_categories_by_margin source n = Ok top /\
    top_categories_by_margin source n' = Ok top' /\
    forall entry, entry ∈ top -> entry ∈ top'.
Proof.
  intros HP%no_nan_candidates Hn.
  destruct (top_categories_heap source n) as (heap & excl & Htop & Hperm & Hsize & Horder).
  destruct (top_categories_heap source n')
    as (heap' & excl' & Htop' & Hperm' & Hsize' & Horder').
  eexists _, _. split_and!; [done..|].
  intros [[c s] m]. change (c, s, m) with (result_entry (m, c, s)).
  rewrite !result_entry_elem, !py_sorted_perm.
  apply (top_heap_included n n' source heap excl heap' excl'); auto.
Qed.

(** ** Strings *)

Lemma string_length_app (s1 s2 : string) :
  String.length (s1 +:+ s2) = (String.length s1 + String.length s2)%nat.
Proof. induction s1 as [|c s1 IH]; simpl; [done|]. by rewrite IH. Qed.

Lemma py_repeat_length (c : string) (k : Z) :
  String.length (py_repeat c k) = (Z.to_nat k * String.length c)%nat.
Proof.
  unfold py_repeat. induction (Z.to_nat k) as [|n IH]; [done|].
  destruct n as [|n].
  - simpl. lia.
  - change (replicate (S (S n)) c) with (c :: replicate (S n) c).
    change (String.concat "" (c :: replicate (S n) c))
      with (c +:+ "" +:+ String.concat "" (replicate (S n) c)).
    rewrite !string_length_app, IH. simpl. lia.
Qed.

Lemma ljust_length (s : string) (w : nat) :
  String.length (ljust s w) = Nat.max (String.length s) w.
Proof.
  unfold ljust. rewrite string_length_app, py_repeat_length. simpl. lia.
Qed.

(** The length of the cells of a line joined by a space. *)
Lemma concat_space_length (cells : list string) :
  String.length (String.concat " " cells)
  = Z.to_nat (Z.of_nat (sum_list (String.length <$> cells))
              + Z.of_nat (length cells) - 1).
Proof.
  induction cells as [|c cells IH]; [done|].
  destruct cells as [|c' cells].
  - simpl. lia.
  - change (String.concat " " (c :: c' :: cells))
      with (c +:+ " " +:+ String.concat " " (c' :: cells)).
    rewrite !string_length_app, IH. simpl. lia.
Qed.

(** ** The column widths *)

Lemma widened_length (ws : list nat) (row : list string) :
  length (widened ws row) = length ws.
Proof.
  revert row. induction ws as [|w ws IH]; intros [|cell row]; simpl; [done..|].
  by rewrite IH.
Qed.

Lemma widen_from (row : list string) (pre rest : list nat) :
  for_each (fun col_widths '(i, cell) =>
              do w <- getitem col_widths i;
              setitem col_widths i (Nat.max w (String.length cell)))
           (enumerate_from (length pre) row) (pre ++ rest)
  = if decide (length row <= length rest)%nat
    then Ok (pre ++ widened rest row) else Raise IndexError.
Proof.
  revert pre rest. induction row as [|cell row IH]; intros pre rest.
  - cbn [enumerate_from for_each length]. rewrite decide_True by lia.
    by destruct rest.
  - cbn [enumerate_from for_each]. destruct rest as [|w rest].
    + rewrite decide_False by (simpl; lia).
      unfold getitem. rewrite lookup_ge_None_2; [done|].
      rewrite length_app. simpl. lia.
    + unfold getitem. rewrite lookup_app_r by lia.
      replace (length pre - length pre)%nat with 0%nat by lia.
      cbn [lookup list_lookup rbind].
      rewrite setitem_Ok by (rewrite length_app; simpl; lia). cbn [rbind].
      rewrite insert_app_r_alt by lia.
      replace (length pre - length pre)%nat with 0%nat by lia.
      cbn [insert list_insert].
      replace (pre ++ Nat.max w (String.length cell) :: rest)
        with ((pre ++ [Nat.max w (String.length cell)]) ++ rest)
        by (by rewrite <- app_assoc).
      replace (S (length pre)) with (length (pre ++ [Nat.max w (String.length cell)]))
        by (rewrite length_app; simpl; lia).
      rewrite IH. simpl.
      destruct (decide (length row <= length rest)%nat);
        [rewrite decide_True by lia|rewrite decide_False by lia]; [|done].
      by rewrite <- app_assoc.
Qed.

Lemma widen_spec (ws : list nat) (row : list string) :
  widen ws row = if decide (length row <= length ws)%nat
                 then Ok (widened ws row) else Raise IndexError.
Proof. apply (widen_from row [] ws). Qed.

Lemma fold_widened_length (rows : list (list string)) (ws : list nat) :
  length (fold_left widened rows ws) = length ws.
Proof.
  revert ws. induction rows as [|row rows IH]; intros ws; simpl; [done|].
  by rewrite IH, widened_length.
Qed.

Lemma widen_rows_Ok (rows : list (list string)) (ws : list nat) :
  (forall row, row ∈ rows -> (length row <= length ws)%nat) ->
  for_each widen rows ws = Ok (fold_left widened rows ws).
Proof.
  revert ws. induction rows as [|row rows IH]; intros ws Hrows; simpl; [done|].
  rewrite widen_spec, decide_True by (apply Hrows; by left). simpl.
  apply IH. intros row' ?. rewrite widened_length. apply Hrows. by right.
Qed.

Lemma widen_rows_Raise (rows : list (list string)) (ws : list nat) (row : list string) :
  row ∈ rows -> (length ws < length row)%nat ->
  for_each widen rows ws = Raise IndexError.
Proof.
  revert ws. induction rows as [|row' rows IH]; intros ws Hin Hlong;
    [by apply elem_of_nil in Hin|].
  simpl. rewrite widen_spec. case_decide as Hlen; [|done]. simpl.
  apply elem_of_cons in Hin as [->|Hin]; [lia|].
  apply IH; [done|]. by rewrite widened_length.
Qed.

(** A width is never below the one before the row, and never below the
    length of the cell of its column. *)
Lemma widened_lookup (ws : list nat) (row : list string) (i : nat) :
  widened ws row !! i
  = (fun w => match row !! i with
              | Some cell => Nat.max w (String.length cell)
              | None => w
              end) <$> ws !! i.
Proof.
  revert row i. induction ws as [|w ws IH]; intros [|cell row] [|i]; simpl; try done.
  all: first [by destruct (ws !! i)|apply IH].
Qed.

(** ** The lines *)

Lemma format_fields_from_Ok (ws : list nat) (args : list string) (i : nat)
    (cells : list string) :
  (i + length ws <= length args)%nat ->
  for_each (fun cells '(i, w) =>
              do arg <- getitem args i;
              Ok (cells ++ [ljust arg w]))
           (enumerate_from i ws) cells
  = Ok (cells ++ zip_with ljust (drop i args) ws).
Proof.
  revert i cells. induction ws as [|w ws IH]; intros i cells Hlen.
  - cbn [enumerate_from for_each]. by rewrite zip_with_nil_r, app_nil_r.
  - cbn [enumerate_from for_each]. simpl in Hlen.
    destruct (lookup_lt_is_Some_2 args i) as [arg Harg]; [lia|].
    rewrite (getitem_Ok _ _ _ Harg). cbn [rbind].
    rewrite IH by lia. rewrite (drop_S _ _ _ Harg). cbn [zip_with].
    by rewrite <- app_assoc.
Qed.

Lemma format_fields_from_Raise (ws : list nat) (args : list string) (i : nat)
    (cells : list string) :
  (i <= length args)%nat -> (length args < i + length ws)%nat ->
  for_each (fun cells '(i, w) =>
              do arg <- getitem args i;
              Ok (cells ++ [ljust arg w]))
           (enumerate_from i ws) cells
  = Raise IndexError.
Proof.
  revert i cells. induction ws as [|w ws IH]; intros i cells Hi Hlen.
  - simpl in Hlen. lia.
  - cbn [enumerate_from for_each]. simpl in Hlen. unfold getitem.
    destruct (args !! i) as [arg|] eqn:Harg; [|done]. cbn [rbind].
    apply lookup_lt_Some in Harg. apply IH; lia.
Qed.

Lemma format_fields_spec (ws : list nat) (args : list string) :
  format_fields ws args
  = if decide (length ws <= length args)%nat
    then Ok (table_line ws args) else Raise IndexError.
Proof.
  unfold format_fields, enumerate. case_decide as Hlen.
  - by rewrite format_fields_from_Ok by (simpl; lia).
  - by rewrite format_fields_from_Raise by lia.
Qed.

(** The rows of a table are printed line by line, up to the first row
    that has fewer cells than there are columns. *)
Lemma print_rows_Ok (ws : list nat) (rows : list (list string)) :
  (forall row, row ∈ rows -> (length ws <= length row)%nat) ->
  io_for_each (fun row => run line <- lift (format_fields ws row); print line) rows
  = (table_line ws <$> rows, Ok tt).
Proof.
  induction rows as [|row rows IH]; intros Hrows; [done|].
  cbn [io_for_each]. rewrite IH by (intros row' ?; apply Hrows; by right).
  rewrite format_fields_spec, decide_True by (apply Hrows; by left). done.
Qed.

Lemma print_rows_Raise (ws : list nat) (rows : list (list string)) :
  (exists row, row ∈ rows /\ (length row < length ws)%nat) ->
  exists lines,
    io_for_each (fun row => run line <- lift (format_fields ws row); print line) rows
    = (lines, Raise IndexError).
Proof.
  induction rows as [|row rows IH]; intros (short & Hin & Hshort);
    [by apply elem_of_nil in Hin|].
  cbn [io_for_each]. rewrite format_fields_spec.
  case_decide as Hlen; [|by eexists].
  apply elem_of_cons in Hin as [->|Hin]; [lia|].
  destruct IH as [lines ->]; [by eauto|]. by eexists.
Qed.

(** The widths of a table, column by column. *)
Lemma table_widths_from (rows : list (list string)) (ws : list nat) (i w' : nat) :
  fold_left widened rows ws !! i = Some w' ->
  (exists w, ws !! i = Some w /\ (w <= w')%nat) /\
  (forall row cell, row ∈ rows -> row !! i = Some cell -> (String.length cell <= w')%nat) /\
  (ws !! i = Some w' \/
   exists row cell, row ∈ rows /\ row !! i = Some cell /\ w' = String.length cell).
Proof.
  revert ws. induction rows as [|row rows IH]; intros ws; cbn [fold_left].
  - intros Hw. split_and!; [by eauto| |by left].
    intros row cell Hin. by apply elem_of_nil in Hin.
  - intros Hw. destruct (IH _ Hw) as ((w1 & Hw1 & Hle1) & Hcells & Hatt).
    rewrite widened_lookup in Hw1.
    destruct (ws !! i) as [w|] eqn:Hwi; [|done]. simpl in Hw1.
    split_and!.
    + exists w. split; [done|]. destruct (row !! i); injection Hw1 as <-; lia.
    + intros row' cell [->|Hin]%elem_of_cons Hcell; [|by eauto].
      rewrite Hcell in Hw1. injection Hw1 as <-. lia.
    + destruct Hatt as [Hatt|(row' & cell & Hin & Hcell & ->)].
      * rewrite widened_lookup, Hwi in Hatt. simpl in Hatt.
        destruct (row !! i) as [cell|] eqn:Hcell; injection Hatt as <-; [|by left].
        destruct (Nat.max_spec w (String.length cell)) as [[_ Hm]|[_ Hm]]; rewrite Hm.
        -- right. exists row, cell. split_and!; [by left|done..].
        -- by left.
      * right. exists row', cell. split_and!; [by right|done..].
Qed.

Lemma table_widths_length (headers : list string) (rows : list (list string)) :
  length (table_widths headers rows) = length headers.
Proof. unfold table_widths. by rewrite fold_widened_length, length_map. Qed.

Lemma table_widths_lookup (headers : list string) (rows : list (list string))
    (i w : nat) :
  table_widths headers rows !! i = Some w ->
  (exists h, headers !! i = Some h /\ (String.length h + 15 <= w)%nat) /\
  (forall row cell, row ∈ rows -> row !! i = Some cell -> (String.length cell <= w)%nat) /\
  ((exists h, headers !! i = Some h /\ w = (String.length h + 15)%nat) \/
   exists row cell, row ∈ rows /\ row !! i = Some cell /\ w = String.length cell).
Proof.
  intros Hw. apply table_widths_from in Hw as ((w0 & Hw0 & Hle) & Hcells & Hatt).
  change (map ?f headers) with (f <$> headers) in *.
  rewrite list_lookup_fmap in Hw0, Hatt.
  destruct (headers !! i) as [h|] eqn:Hh; [|done]. injection Hw0 as <-.
  split_and!; [by eauto|done|].
  destruct Hatt as [[= <-]|?]; [left; by eauto|by right].
Qed.

(** The length of a line whose cells fit their columns. *)
Lemma table_line_length (ws : list nat) (cells : list string) :
  Forall2 (fun cell w => (String.length cell <= w)%nat) cells ws ->
  String.length (table_line ws cells)
  = Z.to_nat (Z.of_nat (sum_list ws) + Z.of_nat (length ws) - 1).
Proof.
  intros Hfit. unfold table_line. rewrite concat_space_length.
  assert (sum_list (String.length <$> zip_with ljust cells ws) = sum_list ws
          /\ length (zip_with ljust cells ws) = length ws) as [-> ->]; [|done].
  induction Hfit as [|cell w cells ws Hle _ [IH1 IH2]]; [done|].
  cbn [zip_with fmap list_fmap sum_list_with length id].
  change (list_fmap string nat String.length) with (fmap (M:=list) String.length).
  rewrite IH1, IH2, ljust_length. unfold Datatypes.id. split; lia.
Qed.

Lemma table_line_fits (headers : list string) (rows : list (list string))
    (cells : list string) :
  length cells = length headers ->
  (forall i cell w, cells !! i = Some cell ->
                    table_widths headers rows !! i = Some w ->
                    (String.length cell <= w)%nat) ->
  String.length (table_line (table_widths headers rows) cells)
  = Z.to_nat (Z.of_nat (sum_list (table_widths headers rows))
              + Z.of_nat (length (table_widths headers rows)) - 1).
Proof.
  intros Hlen Hfit. apply table_line_length.
  apply Forall2_same_length_lookup_2; [|done].
  by rewrite table_widths_length.
Qed.

(** ** [print_table] *)

Lemma io_bind_lift_Ok {A B : Type} (a : A) (k : A -> io B) :
  io_bind (lift (Ok a)) k = k a.
Proof. unfold io_bind, lift. by destruct (k a). Qed.

Lemma io_bind_lift_Raise {A B : Type} (e : exn) (k : A -> io B) :
  io_bind (lift (Raise e)) k = ([], Raise e).
Proof. done. Qed.

Lemma print_table_no_rows (title : string) (headers : list string) :
  print_table title headers [] = ([title; "(no rows)" +:+ newline], Ok tt).
Proof. done. Qed.

Lemma print_table_Ok (title : string) (headers : list string)
    (rows : list (list string)) :
  rows <> [] ->
  (forall row, row ∈ rows -> length row = length headers) ->
  let ws := table_widths headers rows in
  print_table title headers rows
  = (title :: table_line ws headers :: table_rule ws
       :: (table_line ws <$> rows) ++ [""], Ok tt).
Proof.
  intros Hne Hrows. cbn zeta. unfold print_table.
  destruct rows as [|row0 rows0] eqn:E; [done|]. rewrite <- E in *. clear E Hne.
  rewrite widen_rows_Ok by (intros row Hin; by rewrite (Hrows row Hin), length_map).
  fold (table_widths headers rows). set (ws := table_widths headers rows).
  assert (length ws = length headers) as Hws by apply table_widths_length.
  rewrite io_bind_lift_Ok, format_fields_spec, decide_True, io_bind_lift_Ok by lia.
  rewrite print_rows_Ok by (intros row Hin; rewrite (Hrows row Hin); lia).
  done.
Qed.

Lemma print_table_long_row (title : string) (headers : list string)
    (rows : list (list string)) (row : list string) :
  row ∈ rows -> (length headers < length row)%nat ->
  print_table title headers rows = ([title], Raise IndexError).
Proof.
  intros Hin Hlong. unfold print_table.
  destruct rows as [|row0 rows0] eqn:E; [by apply elem_of_nil in Hin|].
  rewrite <- E in *.
  rewrite (widen_rows_Raise rows _ row) by (by rewrite ?length_map).
  by rewrite io_bind_lift_Raise.
Qed.

Lemma print_table_short_row (title : string) (headers : list string)
    (rows : list (list string)) :
  (forall row, row ∈ rows -> (length row <= length headers)%nat) ->
  (exists row, row ∈ rows /\ (length row < length headers)%nat) ->
  exists lines,
    print_table title headers rows = (title :: lines, Raise IndexError).
Proof.
  intros Hrows Hshort. unfold print_table.
  destruct rows as [|row0 rows0] eqn:E.
  { destruct Hshort as (row & Hin & _). by apply elem_of_nil in Hin. }
  rewrite <- E in *. clear E.
  rewrite widen_rows_Ok by (intros row Hin; rewrite length_map; by apply Hrows).
  fold (table_widths headers rows).
  assert (length (table_widths headers rows) = length headers) as Hws
    by apply table_widths_length.
  rewrite io_bind_lift_Ok, format_fields_spec, decide_True, io_bind_lift_Ok by lia.
  destruct (print_rows_Raise (table_widths headers rows) rows) as [lines ->].
  { destruct Hshort as (row & Hin & Hlt). exists row. split; [done|lia]. }
  by eexists.
Qed.

(** X16: [print_table] prints the title first and returns exactly when
    every row has as many cells as there are headers; otherwise it raises
    [IndexError], and before any line of the table when a row has more
    cells than there are headers.  Without rows it prints the title and
    the words (no rows), whatever the headers. *)
Theorem print_table_ragged_rows (title : string) (headers : list string)
    (rows : list (list string)) :
  exists out r,
    print_table title headers rows = (title :: out, r) /\
    (r = Ok tt <-> forall row, row ∈ rows -> length row = length headers) /\
    (r = Ok tt \/ r = Raise IndexError) /\
    ((exists row, row ∈ rows /\ (length headers < length row)%nat) -> out = []) /\
    (rows = [] -> out = ["(no rows)" +:+ newline]).
Proof.
  destruct (decide (Forall (fun row => length row = length headers) rows)) as [Hall|Hnot].
  - rewrite Forall_forall in Hall. destruct rows as [|row0 rows0] eqn:E.
    + eexists _, _. split; [apply print_table_no_rows|].
      split_and!; [done|by left| |done].
      intros (row & Hin & _). by apply elem_of_nil in Hin.
    + rewrite <- E in *. eexists _, _.
      split; [apply print_table_Ok; [by rewrite E|done]|].
      split_and!; [done|by left| |by rewrite E].
      intros (row & Hin & Hlong). specialize (Hall row Hin). lia.
  - assert (~ forall row, row ∈ rows -> length row = length headers) as Hnot'
      by (by rewrite <- Forall_forall).
    assert (rows <> []) as Hne by (intros ->; apply Hnot; constructor).
    destruct (decide (Exists (fun row => length headers < length row)%nat rows))
      as [Hlong|Hnolong].
    + apply Exists_exists in Hlong as (row & Hin & Hlong).
      eexists _, _. split; [by apply (print_table_long_row _ _ _ row)|].
      split_and!; [split; [done|by intros ?]|by right|done|done].
    + assert (forall row, row ∈ rows -> (length row <= length headers)%nat) as Hle.
      { intros row Hin. destruct (decide (length row <= length headers)%nat); [done|].
        exfalso. apply Hnolong, Exists_exists. exists row. split; [done|lia]. }
      apply not_Forall_Exists in Hnot; [|apply _].
      apply Exists_exists in Hnot as (row & Hin & Hlen). simpl in Hlen.
      destruct (print_table_short_row title headers rows Hle) as [lines Hrun].
      { exists row. split; [done|]. specialize (Hle row Hin). lia. }
      eexists _, _. split; [exact Hrun|].
      split_and!; [split; [done|by intros ?]|by right| |done].
      intros (row' & Hin' & Hlong). specialize (Hle row' Hin'). lia.
Qed.

(** X17: for rows that have as many cells as there are headers (and at
    least one row), [print_table] prints the title, the header line, a
    rule, one line per row and an empty line.  The width of a column is
    the greatest of the length of its header plus 15 and the lengths of
    its cells; the header line and the row lines are the cells
    left-justified to the widths and joined by a space; the rule is one
    dash per character of the header line; the header line, the rule and
    the row lines all have the same length. *)
Theorem print_table_layout (title : string) (headers : list string)
    (rows : list (list string)) :
  rows <> [] ->
  (forall row, row ∈ rows -> length row = length headers) ->
  exists widths header_line rule row_lines,
    print_table title headers rows
    = (title :: header_line :: rule :: row_lines ++ [""], Ok tt) /\
    length widths = length headers /\
    (forall i w,
        widths !! i = Some w ->
        (exists h, headers !! i = Some h /\ (String.length h + 15 <= w)%nat) /\
        (forall row cell, row ∈ rows -> row !! i = Some cell ->
                          (String.length cell <= w)%nat) /\
        ((exists h, headers !! i = Some h /\ w = (String.length h + 15)%nat) \/
         exists row cell, row ∈ rows /\ row !! i = Some cell /\
                          w = String.length cell)) /\
    header_line = table_line widths headers /\
    rule = py_repeat "-" (Z.of_nat (String.length header_line)) /\
    row_lines = table_line widths <$> rows /\
    Forall (fun line =>
              String.length line
              = Z.to_nat (Z.of_nat (sum_list widths) + Z.of_nat (length widths) - 1))
           (header_line :: rule :: row_lines).
Proof.
  intros Hne Hrows. set (ws := table_widths headers rows).
  assert (String.length (table_line ws headers)
          = Z.to_nat (Z.of_nat (sum_list ws) + Z.of_nat (length ws) - 1)) as Hheader.
  { apply table_line_fits; [done|]. intros i cell w Hcell Hw.
    apply table_widths_lookup in Hw as ((h & Hh & Hle) & _ & _).
    rewrite Hcell in Hh. injection Hh as <-. lia. }
  exists ws, (table_line ws headers), (table_rule ws), (table_line ws <$> rows).
  split_and!.
  - by apply print_table_Ok.
  - apply table_widths_length.
  - intros i w. apply table_widths_lookup.
  - done.
  - rewrite Hheader. unfold table_rule, py_repeat. by rewrite Nat2Z.id.
  - done.
  - repeat apply Forall_cons_2.
    + done.
    + unfold table_rule. rewrite py_repeat_length. simpl. lia.
    + apply Forall_fmap, Forall_forall. intros row Hin. simpl.
      apply table_line_fits; [by apply Hrows|]. intros i cell w Hcell Hw.
      apply table_widths_lookup in Hw as (_ & Hfit & _). by apply (Hfit row).
Qed.

(** ** The reports *)

Lemma print_table_returns (title : string) (headers : list string)
    (rows : list (list string)) :
  (forall row, row ∈ rows -> length row = length headers) ->
  exists out, print_table title headers rows = (title :: out, Ok tt).
Proof.
  intros Hrows. destruct rows as [|row0 rows0] eqn:E.
  - eexists. apply print_table_no_rows.
  - rewrite <- E in *. eexists. apply print_table_Ok; [by rewrite E|done].
Qed.

Lemma Forall_map_rows {A : Type} (f : A -> list string) (n : nat) (l : list A) :
  (forall x, length (f x) = n) ->
  forall row, row ∈ f <$> l -> length row = n.
Proof. intros Hf row (x & -> & _)%list_elem_of_fmap. apply Hf. Qed.

Lemma fold_left_rows_length {A : Type} (f : list (list string) -> A -> list (list string))
    (n : nat) (l : list A) (acc : list (list string)) :
  (forall rows x, Forall (fun row => length row = n) rows ->
                  Forall (fun row => length row = n) (f rows x)) ->
  Forall (fun row => length row = n) acc ->
  Forall (fun row => length row = n) (fold_left f l acc).
Proof.
  intros Hf. revert acc. induction l as [|x l IH]; intros acc Hacc; simpl; [done|].
  apply IH. by apply Hf.
Qed.

(** * The reports of [queries_run.py] *)

Section reports_facts.
Context (str_of_int : Z -> string) (format_float : string -> float -> string).

Lemma print_sales_returns (source : list Order) :
  exists out, print_sales str_of_int format_float source = (out, Ok tt).
Proof.
  unfold print_sales, sales_by_year_region_category.
  rewrite (aggregate_sum_by_key_fold _ _ sales) by done.
  rewrite io_bind_lift_Ok.
  edestruct print_table_returns as [out ->]; [|by eexists].
  apply Forall_map_rows. by intros [[[y r] c] s].
Qed.

Lemma print_yoy_returns (source : list Order) :
  exists out, print_yoy str_of_int format_float source = (out, Ok tt).
Proof.
  unfold print_yoy. rewrite yoy_results, io_bind_lift_Ok.
  edestruct print_table_returns as [out ->]; [|by eexists].
  apply Forall_forall. apply fold_left_rows_length; [|constructor].
  intros rows [[region category] entries] Hrows.
  apply fold_left_rows_length; [|done].
  intros rows' [[[y s] p] c] Hrows'. apply Forall_app. split; [done|].
  by repeat constructor.
Qed.

Lemma print_margins_returns (source : list Order) :
  exists out, print_margins format_float source = (out, Ok tt).
Proof.
  unfold print_margins. rewrite profit_margin_map, io_bind_lift_Ok.
  edestruct print_table_returns as [out ->]; [|by eexists].
  apply Forall_map_rows. by intros [[c s] m].
Qed.

Lemma print_top_category_margins_returns (source : list Order) (n : Z) :
  exists out,
    print_top_category_margins str_of_int format_float source n = (out, Ok tt).
Proof.
  unfold print_top_category_margins.
  destruct (top_categories_heap source n) as (heap & excl & -> & _).
  rewrite io_bind_lift_Ok.
  edestruct print_table_returns as [out ->]; [|by eexists].
  apply Forall_map_rows. by intros [[c s] m].
Qed.

Lemma print_discounted_profit_returns (source : list Order) :
  exists out, print_discounted_profit format_float source = (out, Ok tt).
Proof.
  unfold print_discounted_profit.
  rewrite total_discounted_profit_sum, io_bind_lift_Ok.
  rewrite discounted_profit_share_value, io_bind_lift_Ok.
  edestruct print_table_returns as [out ->]; [|by eexists].
  intros row Hrow. by repeat (apply elem_of_cons in Hrow as [->|Hrow]; [done|]);
    apply elem_of_nil in Hrow.
Qed.

(** [print_average_fulfillment] returns when [average_fulfillment_days]
    does, and prints nothing when it raises. *)
Lemma print_average_fulfillment_outcome (source : list Order) :
  match average_fulfillment_days source with
  | Ok _ => exists out, print_average_fulfillment format_float source = (out, Ok tt)
  | Raise e =>
      e = TypeError /\
      print_average_fulfillment format_float source = ([], Raise TypeError)
  end.
Proof.
  unfold print_average_fulfillment.
  rewrite average_fulfillment_days_value. cbv zeta.
  destruct (forallb same_awareness (date_pairs source)).
  - rewrite io_bind_lift_Ok.
    edestruct print_table_returns as [out ->]; [|by eexists].
    intros row Hrow. by repeat (apply elem_of_cons in Hrow as [->|Hrow]; [done|]);
      apply elem_of_nil in Hrow.
  - by rewrite io_bind_lift_Raise.
Qed.

(** [print_profit_volatility] returns when
    [profit_std_by_market_category] does, and prints nothing when it
    raises. *)
Lemma print_profit_volatility_outcome (source : list Order) (sample : bool) :
  match profit_std_by_market_category source sample with
  | Ok _ =>
      exists out,
        print_profit_volatility str_of_int format_float source sample = (out, Ok tt)
  | Raise e =>
      e = ValueError /\
      print_profit_volatility str_of_int format_float source sample
      = ([], Raise ValueError)
  end.
Proof.
  unfold print_profit_volatility, profit_std_by_market_category,
    profit_min_max_count_by_market_category.
  rewrite (aggregate_stddev_by_key_spec market_category (attr profit) profit) by done.
  cbv zeta. destruct (forallb _ (stats_fold market_category profit source)).
  - rewrite io_bind_lift_Ok.
    rewrite (aggregate_min_max_count_by_key_fold _ _ profit) by done.
    rewrite io_bind_lift_Ok.
    edestruct print_table_returns as [out ->]; [|by eexists].
    rewrite fold_left_snoc. apply Forall_map_rows.
    intros [[m c] sd]. unfold volatility_row.
    by destruct (dd_get _ _ _) as [[lo hi] n].
  - by rewrite io_bind_lift_Raise.
Qed.

Lemma io_bind_returns {A B : Type} (m : io A) (k : A -> io B) (out out' : list string)
    (a : A) (r : result B) :
  m = (out, Ok a) -> k a = (out', r) -> io_bind m k = (out ++ out', r).
Proof. intros -> Hk. unfold io_bind. by rewrite Hk. Qed.
End reports_facts.

(** X18: [run_all] prints the first five reports for every source,
    whatever the text of the numbers.  It ends with [TypeError] after them
    when [average_fulfillment_days] raises, with [ValueError] after the
    sixth report when [profit_std_by_market_category] raises for the
    sample standard deviation, and otherwise it returns after the seven
    reports, in order. *)
Theorem run_all_outcome (str_of_int : Z -> string)
    (format_float : string -> float -> string) (source : list Order) :
  exists sales yoy margins top discounted,
    print_sales str_of_int format_float source = (sales, Ok tt) /\
    print_yoy str_of_int format_float source = (yoy, Ok tt) /\
    print_margins format_float source = (margins, Ok tt) /\
    print_top_category_margins str_of_int format_float source 5 = (top, Ok tt) /\
    print_discounted_profit format_float source = (discounted, Ok tt) /\
    let five := sales ++ yoy ++ margins ++ top ++ discounted in
    match average_fulfillment_days source with
    | Raise e =>
        e = TypeError /\
        run_all str_of_int format_float source = (five, Raise TypeError)
    | Ok _ =>
        exists average,
          print_average_fulfillment format_float source = (average, Ok tt) /\
          match profit_std_by_market_category source true with
          | Raise e =>
              e = ValueError /\
              run_all str_of_int format_float source
              = (five ++ average, Raise ValueError)
          | Ok _ =>
              exists volatility,
                print_profit_volatility str_of_int format_float source true
                = (volatility, Ok tt) /\
                run_all str_of_int format_float source
                = (five ++ average ++ volatility, Ok tt)
          end
    end.
Proof.
  destruct (print_sales_returns str_of_int format_float source) as [sales Hsales].
  destruct (print_yoy_returns str_of_int format_float source) as [yoy Hyoy].
  destruct (print_margins_returns format_float source) as [margins Hmargins].
  destruct (print_top_category_margins_returns str_of_int format_float source 5)
    as [top Htop].
  destruct (print_discounted_profit_returns format_float source) as [disc Hdisc].
  pose proof (print_average_fulfillment_outcome format_float source) as Havg.
  pose proof (print_profit_volatility_outcome str_of_int format_float source true)
    as Hvol.
  exists sales, yoy, margins, top, disc. split_and!; [done..|]. cbv zeta.
  unfold run_all.
  destruct (average_fulfillment_days source) as [avg|e].
  - destruct Havg as [average Havg]. exists average. split; [done|].
    destruct (profit_std_by_market_category source true) as [stds|e].
    + destruct Hvol as [volatility Hvol]. exists volatility. split; [done|].
      repeat (eapply io_bind_returns; [eassumption|]).
      rewrite <- !app_assoc.
      repeat (eapply io_bind_returns; [eassumption|]). done.
    + destruct Hvol as [-> Hvol]. split; [done|].
      rewrite <- !app_assoc.
      repeat (eapply io_bind_returns; [eassumption|]).
      rewrite <- (app_nil_r average).
      eapply io_bind_returns; [eassumption|]. done.
  - destruct Havg as [-> Havg]. split; [done|].
    rewrite <- (app_nil_r disc).
    repeat (eapply io_bind_returns; [eassumption|]).
    unfold io_bind. by rewrite Havg.
Qed.

(** ** The order of the rows *)

(** The margins of the report are those of the groups. *)
Lemma margins_items (source : list Order) :
  exists margins,
    profit_margin_by_category_subcategory source = Ok margins /\
    forall c s m, (c, s, Some m) ∈ margins -> (m, c, s) ∈ candidates_of source.
Proof.
  destruct (margins_defined source) as (margins & Hmargins & _ & Hget).
  exists margins. split; [done|]. intros c s m Hin. apply Hget.
  destruct (margins_get source (c, s)) as (margins' & Hmargins' & Hnd & _).
  assert (margins' = margins) as -> by congruence.
  by apply dict_get_NoDup.
Qed.

(** X19: [print_margins] prints one row per group of
    [profit_margin_by_category_subcategory]; when no group has the margin
    NaN the rows are in descending order of the sort key, the margin of a
    group that has one and minus infinity for a group without a margin. *)
Theorem print_margins_order (format_float : string -> float -> string)
    (source : list Order) :
  exists margins items,
    profit_margin_by_category_subcategory source = Ok margins /\
    print_margins format_float source
    = print_table "Profit Margin by Category / Sub-Category"
                  ["Category"; "Sub-Category"; "Margin"]
                  (margin_row format_float <$> items) /\
    items ≡ₚ margins /\
    (no_nan_margin source = true ->
     StronglySorted
       (fun a b => (margin_sort_key a.2 <? margin_sort_key b.2) = false) items).
Proof.
  destruct (margins_items source) as (margins & Hmargins & Hitems).
  eexists margins, _. split_and!.
  - done.
  - unfold print_margins. by rewrite Hmargins, io_bind_lift_Ok.
  - apply py_sorted_perm.
  - intros HP%no_nan_candidates.
    apply (py_sorted_descending
             (fun a : string * string * option float => margin_sort_key a.2)).
    apply Forall_forall. intros [[c s] [m|]] Hin; [|done].
    rewrite Forall_forall in HP. by apply (HP (m, c, s)), Hitems.
Qed.

Lemma group_values_nonempty {A K : Type} `{EqDecision K} (key_fn : A -> K)
    (vf : A -> float) (orders : list A) (k : K) :
  k ∈ key_fn <$> orders -> vf <$> group_of key_fn k orders <> [].
Proof. intros Hin Hnil%fmap_nil_inv. by apply group_of_nil in Hnil. Qed.

Lemma min_max_count_fold_covers {A K : Type} `{EqDecision K} (key_fn : A -> K)
    (vf : A -> float) (orders : list A) (k : K) :
  covers (vf <$> group_of key_fn k orders)
         (dict_get (min_max_count_fold key_fn vf orders) k).
Proof.
  rewrite min_max_count_fold_get.
  apply (min_max_count_covers _ [] None). done.
Qed.

(** The statistics of a key of the stream. *)
Lemma min_max_count_of_key {A K : Type} `{EqDecision K} (key_fn : A -> K)
    (vf : A -> float) (orders : list A) (k : K) :
  k ∈ key_fn <$> orders ->
  exists lo hi count,
    dict_get (min_max_count_fold key_fn vf orders) k = Some (lo, hi, count) /\
    (1 <= count)%Z /\ (hi <? lo) = false.
Proof.
  intros Hk. pose proof (min_max_count_fold_covers key_fn vf orders k) as Hc.
  destruct (dict_get _ k) as [[[lo hi] c]|]; simpl in Hc.
  - destruct Hc as (Hlo & _ & -> & Hb). eexists lo, hi, _. split_and!; [done| |].
    + destruct (vf <$> group_of key_fn k orders); [by apply elem_of_nil in Hlo|].
      simpl. lia.
    + by destruct (Hb lo Hlo) as [_ ?].
  - by apply group_values_nonempty in Hc.
Qed.

(** X20: when [profit_std_by_market_category] returns,
    [print_profit_volatility] prints one row per group of its result, in
    descending order of the standard deviation when none is NaN; every
    group has an entry in [profit_min_max_count_by_market_category], with
    a count of at least 1 and a minimum that is not above the maximum, so
    that the default [(0, 0, 0)] is never printed.  When [profit_std_by_market_category] raises,
    [print_profit_volatility] raises [ValueError] and prints nothing. *)
Theorem print_profit_volatility_rows (str_of_int : Z -> string)
    (format_float : string -> float -> string) (source : list Order) (sample : bool) :
  match profit_std_by_market_category source sample with
  | Raise e =>
      e = ValueError /\
      print_profit_volatility str_of_int format_float source sample
      = ([], Raise ValueError)
  | Ok stds =>
      exists ranges items,
        profit_min_max_count_by_market_category source = Ok ranges /\
        print_profit_volatility str_of_int format_float source sample
        = print_table ("Profit StdDev by Market / Category ("
                       +:+ (if sample then "sample" else "population") +:+ ")")
                      ["Market"; "Category"; "Profit StdDev"; "Min Profit";
                       "Max Profit"; "Count"]
                      (volatility_row str_of_int format_float ranges <$> items) /\
        items ≡ₚ stds /\
        (Forall (fun item => is_nan item.2 = false) stds ->
         StronglySorted (fun a b => (a.2 <? b.2) = false) items) /\
        forall key std_dev,
          (key, std_dev) ∈ items ->
          exists min_p max_p count,
            dict_get ranges key = Some (min_p, max_p, count) /\
            (1 <= count)%Z /\ (max_p <? min_p) = false
  end.
Proof.
  pose proof (print_profit_volatility_outcome str_of_int format_float source sample)
    as Hout.
  unfold print_profit_volatility, profit_std_by_market_category,
    profit_min_max_count_by_market_category in *.
  rewrite (aggregate_stddev_by_key_spec market_category (attr profit) profit) in *
    by done.
  cbv zeta in *. destruct (forallb _ (stats_fold market_category profit source)).
  - eexists _, _. split_and!.
    + by apply (aggregate_min_max_count_by_key_fold _ _ profit).
    + rewrite io_bind_lift_Ok.
      rewrite (aggregate_min_max_count_by_key_fold _ _ profit) by done.
      rewrite io_bind_lift_Ok. by rewrite fold_left_snoc.
    + apply py_sorted_perm.
    + intros Hnn.
      by apply (py_sorted_descending (fun a : string * string * float => a.2)).
    + intros key sd. rewrite py_sorted_perm. intros Hin.
      assert (key ∈ market_category <$> source) as Hkey.
      { apply (keyed_fold_nil_keys market_category
                 (fun st o => welford_step st (profit o)) (0%Z, 0, 0)).
        fold (stats_fold market_category profit source).
        rewrite <- (dict_keys_map (fun _ st => stddev_of sample st)).
        apply list_elem_of_fmap. by exists (key, sd). }
      by apply (min_max_count_of_key market_category profit).
  - done.
Qed.

Lemma sorted_keys_strict {K V : Type} (key_lt : K -> K -> bool) (l : list (K * V)) :
  strict_total key_lt -> NoDup l.*1 ->
  StronglySorted (fun a b => key_lt b.1 a.1 = false) l ->
  StronglySorted (fun a b => key_lt a.1 b.1 = true) l.
Proof.
  intros (_ & _ & Htot) Hnd Hsorted.
  induction Hsorted as [|x l Hl IH Hx]; [constructor|].
  rewrite fmap_cons in Hnd. apply NoDup_cons in Hnd as [Hnotin Hnd].
  constructor; [by apply IH|].
  rewrite Forall_forall in *. intros y Hy. specialize (Hx y Hy).
  destruct (Htot x.1 y.1) as [|]; [|done|congruence].
  intros Heq. apply Hnotin. rewrite Heq. apply list_elem_of_fmap. eauto.
Qed.

(** The items of a dictionary, sorted by their keys. *)
Lemma sorted_items_sorted {K V : Type} (key_lt : K -> K -> bool) (d : dict K V) :
  strict_total key_lt -> NoDup (dict_keys d) ->
  sorted_items key_lt d ≡ₚ d /\
  StronglySorted (fun a b => key_lt a.1 b.1 = true) (sorted_items key_lt d).
Proof.
  intros Htotal Hnd. unfold sorted_items.
  set (before := fun a b : K * V => key_lt a.1 b.1).
  assert (py_sorted before false d ≡ₚ d) as Hperm by apply py_sorted_perm.
  split; [done|].
  apply sorted_keys_strict; [done| |].
  - unfold dict_keys in Hnd. by rewrite Hperm.
  - apply (insort_sorted_all before (fun _ => True)); [| |apply Forall_True].
    + intros x y. apply (strict_total_asym key_lt Htotal).
    + intros x y z _ _ _. apply (strict_total_le_trans key_lt Htotal).
Qed.

Lemma fold_left_nested_rows {A B : Type} (f : A -> list B) (g : A -> B -> list string)
    (l : list A) (acc : list (list string)) :
  fold_left (fun rows x => fold_left (fun rows y => rows ++ [g x y]) (f x) rows) l acc
  = acc ++ (l ≫= fun x => g x <$> f x).
Proof.
  revert acc. induction l as [|x l IH]; intros acc; simpl.
  - by rewrite app_nil_r.
  - by rewrite IH, fold_left_snoc, <- app_assoc.
Qed.

(** X21: [print_sales] prints one row per total of
    [sales_by_year_region_category], in ascending order of the year, then
    of the region, then of the category. *)
Theorem print_sales_order (str_of_int : Z -> string)
    (format_float : string -> float -> string) (source : list Order) :
  exists totals items,
    sales_by_year_region_category source = Ok totals /\
    print_sales str_of_int format_float source
    = print_table "Sales by Year / Region / Category"
                  ["Year"; "Region"; "Category"; "Total Sales"]
                  (sales_row str_of_int format_float <$> items) /\
    items ≡ₚ totals /\
    StronglySorted (fun a b => year_region_category_lt a.1 b.1 = true) items.
Proof.
  destruct (sorted_items_sorted year_region_category_lt
              (sum_fold (fun o => (year o, market o, category o)) sales source))
    as [Hperm Hsorted];
    [apply year_region_category_strict_total|apply sum_fold_NoDup|].
  eexists _, _. split_and!.
  - by apply (aggregate_sum_by_key_fold _ _ sales).
  - unfold print_sales, sales_by_year_region_category.
    rewrite (aggregate_sum_by_key_fold _ _ sales) by done.
    by rewrite io_bind_lift_Ok.
  - done.
  - done.
Qed.

(** X22: [print_yoy] prints the groups of [yoy_category_sales_trends]
    in ascending order of the region, then of the category, and the rows
    of a group together, in the order of the trend. *)
Theorem print_yoy_order (str_of_int : Z -> string)
    (format_float : string -> float -> string) (source : list Order) :
  exists trends groups,
    yoy_category_sales_trends source = Ok trends /\
    print_yoy str_of_int format_float source
    = print_table "YOY Category Sales Trends"
                  ["Region"; "Category"; "Year"; "Sales"; "Prev Sales"; "YOY Change"]
                  (groups ≫= fun group =>
                     yoy_table_row str_of_int format_float group.1.1 group.1.2
                       <$> group.2) /\
    groups ≡ₚ trends /\
    StronglySorted (fun a b => region_category_lt a.1 b.1 = true) groups.
Proof.
  set (totals := sum_fold (fun o => (year o, market o, category o)) sales source).
  set (trends := map (fun '(key, entries) =>
                        (key, yoy_rows None
                                (py_sorted (fun x y => (x.1 <? y.1)%Z) false entries)))
                     (yoy_grouped totals)).
  destruct (sorted_items_sorted region_category_lt trends) as [Hperm Hsorted];
    [apply region_category_strict_total| |].
  { subst trends.
    rewrite (dict_keys_map
               (fun _ entries =>
                  yoy_rows None
                    (py_sorted (fun x y => (x.1 <? y.1)%Z) false entries))).
    apply yoy_grouped_NoDup. }
  exists trends, (sorted_items region_category_lt trends). split_and!.
  - apply yoy_results.
  - unfold print_yoy. rewrite yoy_results, io_bind_lift_Ok. fold totals. fold trends.
    f_equal.
    etransitivity;
      [|apply (fold_left_nested_rows snd
                 (fun group =>
                    yoy_table_row str_of_int format_float group.1.1 group.1.2)
                 _ [])].
    apply fold_left_ext. by intros rows [[region category] entries].
  - done.
  - done.
Qed.
(** * Instances *)

(** The lemmas of this part evaluate the embedding on concrete orders. *)
Ltac py_eval := vm_compute; first [reflexivity | done].

(** ** Counterexamples *)

(** C1, as stated, fails.  In sample mode the key of a single observation
    is not left out: it is present with the standard deviation 0.  In
    population mode the key of the single profit [inf] has the standard
    deviation NaN, not 0.  And no mapping is returned for the profits
    2^1023 and -2^1023 of one key: [M2] is [-inf] and [math.sqrt] raises
    [ValueError]. *)
Lemma stddev_singleton_present_overflow_raises :
  profit_std_by_market_category [order_can] true
  = Ok [(("CAN", "Furniture")%string, 0)] /\
  profit_std_by_market_category [order_of "Furniture" "Chairs" 2020 "US" 1 infinity 0]
    false
  = Ok [(("US", "Furniture")%string, nan)] /\
  profit_std_by_market_category overflow_orders true = Raise ValueError /\
  profit_std_by_market_category overflow_orders false = Raise ValueError.
Proof. split_and!; py_eval. Qed.

(** C2, as stated, fails: the total of the sales 10^16, 1, -10^16 of one
    key is 0.0, their arithmetic sum is 1; the mean of three profits of
    0.1 is 0.10000000000000002, their arithmetic mean is the number that
    0.1 stands for. *)
Lemma sum_and_mean_round :
  aggregate_sum_by_key rounding_orders category (attr sales)
  = Ok [("Furniture"%string, 0)] /\
  arithmetic_sum (sales <$> rounding_orders) = Some 1%Q /\
  exact 0 = Some 0%Q /\
  aggregate_mean_by_key tenth_orders category (attr profit)
  = Ok [("Furniture"%string, 0.10000000000000002)] /\
  arithmetic_mean (profit <$> tenth_orders) = exact 0.1 /\
  exact 0.10000000000000002 <> exact 0.1.
Proof. split_and!; py_eval. Qed.

(** C3, as stated, fails: after sales of 5e-324 in one year, sales of
    2^1023 in the next year have an infinite change. *)
Lemma yoy_change_infinite :
  yoy_category_sales_trends surge_orders
  = Ok [(("US", "Furniture")%string,
         [(2020%Z, 5e-324, None, None);
          (2021%Z, 0x1p+1023, Some 5e-324, Some infinity)])].
Proof. py_eval. Qed.

(** C4, as stated, fails.  For [n = -1] every tuple is popped as soon as
    it is pushed: the result is empty and its length 0 is not at most [n].
    And when a margin is NaN the result is not a top-n set: of the groups
    C, A and B with the margins 2, NaN and 1 the result for [n = 1] is the
    group B, and the group C, whose sales are not zero, is left out with
    the greater margin 2. *)
Lemma top_categories_negative_n_nan_margin :
  top_categories_by_margin margin_orders (-1) = Ok [] /\
  ~ (Z.of_nat (length (@nil (string * string * float))) <= -1)%Z /\
  top_categories_by_margin nan_orders 1 = Ok [("F", "B", 1)]%string /\
  group_margin nan_orders ("F", "C")%string = Some 2 /\
  group_margin nan_orders ("F", "A")%string = Some nan /\
  (1 <? 2) = true.
Proof. split_and!; [py_eval|simpl; lia|py_eval..]. Qed.

(** C6, as stated, fails.  An order without discount leaves the group of
    the discounted orders empty, and [total_discounted_profit] is then the
    number 0.0, not an absent value.  A change after sales that are not
    zero can be infinite.  Two of the queries raise:
    [profit_std_by_market_category] on the profits 2^1023 and -2^1023 of
    one group, [average_fulfillment_days] on an order with an offset-aware
    order date and a naive ship date. *)
Lemma queries_sentinel_and_exceptions :
  filter (fun o => Is_true (0 <? discount o)) [order_can] = [] /\
  total_discounted_profit [order_can] = Ok 0 /\
  yoy_category_sales_trends surge_orders
  = Ok [(("US", "Furniture")%string,
         [(2020%Z, 5e-324, None, None);
          (2021%Z, 0x1p+1023, Some 5e-324, Some infinity)])] /\
  profit_std_by_market_category overflow_orders true = Raise ValueError /\
  average_fulfillment_days [order_dated (aware 0) (naive 2)] = Raise TypeError.
Proof. split_and!; py_eval. Qed.

(** C8, as stated, fails: on an order with an offset-aware order date and
    a naive ship date the subtraction raises [TypeError]; with two aware
    or two naive dates the same order has the fulfillment time of two
    days. *)
Lemma average_fulfillment_days_mixed_dates :
  average_fulfillment_days [order_dated (aware 0) (naive 2)] = Raise TypeError /\
  average_fulfillment_days [order_dated (naive 0) (aware 2)] = Raise TypeError /\
  average_fulfillment_days [order_dated (aware 0) (aware 2)] = Ok (Some 2) /\
  average_fulfillment_days [order_dated (naive 0) (naive 2)] = Ok (Some 2).
Proof. split_and!; py_eval. Qed.

(** C9, as stated, fails.  The sources [tie_orders] and [tie_orders']
    have the same four records, hence the same candidates, all with the
    margin 0.5, in a different order: with [n = 3] both results leave out
    the bookcases, the smallest of the four tied tuples, and the two
    results differ in the order of their entries.  The sources
    [nan_orders] and [nan_orders'] have the same candidates, one with the
    margin NaN: with [n = 1] the first keeps the group B with the margin
    1, the second the group C with the margin 2. *)
Lemma top_categories_order_dependent :
  tie_orders ≡ₚ tie_orders' /\
  candidates_of tie_orders ≡ₚ candidates_of tie_orders' /\
  top_categories_by_margin tie_orders 3
  = Ok [("Furniture", "Chairs", 0.5); ("Furniture", "Tables", 0.5);
        ("Furniture", "Desks", 0.5)]%string /\
  top_categories_by_margin tie_orders' 3
  = Ok [("Furniture", "Chairs", 0.5); ("Furniture", "Desks", 0.5);
        ("Furniture", "Tables", 0.5)]%string /\
  candidates_of nan_orders ≡ₚ candidates_of nan_orders' /\
  top_categories_by_margin nan_orders 1 = Ok [("F", "B", 1)]%string /\
  top_categories_by_margin nan_orders' 1 = Ok [("F", "C", 2)]%string.
Proof.
  split_and!.
  - do 2 apply Permutation_skip. apply Permutation_swap.
  - assert (candidates_of tie_orders
            = [(0.5, "Furniture", "Bookcases"); (0.5, "Furniture", "Chairs");
               (0.5, "Furniture", "Desks"); (0.5, "Furniture", "Tables")]%string)
      as -> by py_eval.
    assert (candidates_of tie_orders'
            = [(0.5, "Furniture", "Bookcases"); (0.5, "Furniture", "Chairs");
               (0.5, "Furniture", "Tables"); (0.5, "Furniture", "Desks")]%string)
      as -> by py_eval.
    do 2 apply Permutation_skip. apply Permutation_swap.
  - py_eval.
  - py_eval.
  - assert (candidates_of nan_orders
            = [(2, "F", "C"); (nan, "F", "A"); (1, "F", "B")]%string)
      as -> by py_eval.
    assert (candidates_of nan_orders'
            = [(nan, "F", "A"); (1, "F", "B"); (2, "F", "C")]%string)
      as -> by py_eval.
    apply (Permutation_cons_append [(nan, "F", "A"); (1, "F", "B")]%string).
  - py_eval.
  - py_eval.
Qed.


(** ** Instances of the theorems *)

Ltac elem_cases H :=
  repeat (apply elem_of_cons in H as [->|H]); [..|by apply elem_of_nil in H].

Lemma top_categories_top_n_witness :
  no_nan_margin margin_orders = true /\
  exists top,
    top_categories_by_margin margin_orders 2 = Ok top /\
    Z.of_nat (length top)
    = Z.min (Z.max 2 0) (Z.of_nat (length (ranked_keys margin_orders))) /\
    (Z.of_nat (length top) <= Z.max 2 0)%Z /\
    StronglySorted (fun a b => (a.2 <? b.2) = false) top /\
    NoDup top.*1 /\
    (forall c s m, (c, s, m) ∈ top -> group_margin margin_orders (c, s) = Some m) /\
    (forall c s m,
        group_margin margin_orders (c, s) = Some m -> (c, s, m) ∉ top ->
        forall c' s' m', (c', s', m') ∈ top -> (m' <? m) = false).
Proof.
  assert (no_nan_margin margin_orders = true) as Hnan by reflexivity.
  split; [exact Hnan|].
  exact (top_categories_top_n margin_orders 2 Hnan).
Defined.

Lemma top_categories_ties_witness :
  no_nan_margin tie_orders = true /\
  exists top,
    top_categories_by_margin tie_orders 3 = Ok top /\
    Z.of_nat (length top)
    = Z.min (Z.max 3 0) (Z.of_nat (length (candidates_of tie_orders))) /\
    (forall e r,
        e ∈ candidates_of tie_orders ->
        result_entry e ∉ top -> result_entry r ∈ top ->
        tuple_lt e r = true /\
        ((e.1.1 =? r.1.1) = true ->
         str_lt e.1.2 r.1.2 = true \/
         (e.1.2 = r.1.2 /\ str_lt e.2 r.2 = true))) /\
    (forall source' top',
        candidates_of source' ≡ₚ candidates_of tie_orders ->
        top_categories_by_margin source' 3 = Ok top' ->
        top' ≡ₚ top).
Proof.
  assert (no_nan_margin tie_orders = true) as Hnan by reflexivity.
  split; [exact Hnan|].
  exact (top_categories_ties tie_orders 3 Hnan).
Defined.

Lemma helpers_raise_first_exception_witness :
  (forall x, x ∈ dated_orders -> exists v, fulfillment_days x = Ok v) /\
  fulfillment_days order_can = Raise TypeError /\
  aggregate_sum_by_key (dated_orders ++ order_can :: []) market_category
    fulfillment_days = Raise TypeError /\
  aggregate_mean_by_key (dated_orders ++ order_can :: []) market_category
    fulfillment_days = Raise TypeError /\
  aggregate_stddev_by_key (dated_orders ++ order_can :: []) market_category
    fulfillment_days true = Raise TypeError /\
  aggregate_min_max_count_by_key (dated_orders ++ order_can :: []) market_category
    fulfillment_days = Raise TypeError.
Proof.
  assert (forall x, x ∈ dated_orders -> exists v, fulfillment_days x = Ok v) as Hpre.
  { intros x Hx. unfold dated_orders in Hx. elem_cases Hx; eexists; reflexivity. }
  assert (fulfillment_days order_can = Raise TypeError) as Ho by reflexivity.
  split; [exact Hpre|]. split; [exact Ho|].
  exact (helpers_raise_first_exception dated_orders [] order_can market_category
           fulfillment_days TypeError true Hpre Ho).
Defined.

Lemma top_categories_grows_with_n_witness :
  no_nan_margin margin_orders = true /\
  (1 <= 2)%Z /\
  exists top top',
    top_categories_by_margin margin_orders 1 = Ok top /\
    top_categories_by_margin margin_orders 2 = Ok top' /\
    forall entry, entry ∈ top -> entry ∈ top'.
Proof.
  assert (no_nan_margin margin_orders = true) as Hnan by reflexivity.
  assert (1 <= 2)%Z as Hn by lia.
  split; [exact Hnan|]. split; [exact Hn|].
  exact (top_categories_grows_with_n margin_orders 1 2 Hnan Hn).
Defined.

Lemma print_table_layout_witness :
  metric_rows <> [] /\
  (forall row, row ∈ metric_rows -> length row = length metric_headers) /\
  exists widths header_line rule row_lines,
    print_table "Profit from Discounted Orders" metric_headers metric_rows
    = ("Profit from Discounted Orders"%string
         :: header_line :: rule :: row_lines ++ [""%string], Ok tt) /\
    length widths = length metric_headers /\
    (forall i w,
        widths !! i = Some w ->
        (exists h, metric_headers !! i = Some h /\ (String.length h + 15 <= w)%nat) /\
        (forall row cell, row ∈ metric_rows -> row !! i = Some cell ->
                          (String.length cell <= w)%nat) /\
        ((exists h, metric_headers !! i = Some h /\ w = (String.length h + 15)%nat) \/
         exists row cell, row ∈ metric_rows /\ row !! i = Some cell /\
                          w = String.length cell)) /\
    header_line = table_line widths metric_headers /\
    rule = py_repeat "-" (Z.of_nat (String.length header_line)) /\
    row_lines = table_line widths <$> metric_rows /\
    Forall (fun line =>
              String.length line
              = Z.to_nat (Z.of_nat (sum_list widths) + Z.of_nat (length widths) - 1))
           (header_line :: rule :: row_lines).
Proof.
  assert (metric_rows <> []) as Hne by done.
  assert (forall row, row ∈ metric_rows -> length row = length metric_headers) as Hrows.
  { intros row Hrow. unfold metric_rows in Hrow. elem_cases Hrow; reflexivity. }
  split; [exact Hne|]. split; [exact Hrows|].
  exact (print_table_layout "Profit from Discounted Orders" metric_headers metric_rows
           Hne Hrows).
Defined.

(** ** The unit tests of the repository *)

Example test_aggregate_sum_by_key :
  aggregate_sum_by_key helper_orders category (attr sales)
  = Ok [("Furniture", 300); ("Office Supplies", 50)]%string.
Proof. py_eval. Qed.

Example test_aggregate_mean_by_key :
  aggregate_mean_by_key helper_orders category (attr profit)
  = Ok [("Furniture", 15); ("Office Supplies", 5)]%string.
Proof. py_eval. Qed.

Example test_aggregate_stddev_by_key :
  aggregate_stddev_by_key helper_orders category (attr sales) false
  = Ok [("Furniture", 50); ("Office Supplies", 0)]%string.
Proof. py_eval. Qed.

Example test_aggregate_min_max_count_by_key :
  aggregate_min_max_count_by_key helper_orders category (attr profit)
  = Ok [("Furniture", (10, 20, 2%Z)); ("Office Supplies", (5, 5, 1%Z))]%string.
Proof. py_eval. Qed.

Example test_sales_by_year_region_category :
  sales_by_year_region_category helper_orders
  = Ok [((2020%Z, "US", "Furniture"), 300);
        ((2021%Z, "US", "Office Supplies"), 50)]%string.
Proof. py_eval. Qed.

Example test_yoy :
  yoy_category_sales_trends yoy_orders
  = Ok [(("US", "Furniture")%string,
         [(2020%Z, 100, None, None); (2021%Z, 50, Some 100, Some (-0.5))])].
Proof. py_eval. Qed.

Example test_profit_margin :
  profit_margin_by_category_subcategory margin_orders
  = Ok [(("Furniture", "Chairs"), Some 0.1);
        (("Furniture", "Tables"), Some 0.3);
        (("Office Supplies", "Paper"), Some 0.1)]%string.
Proof. py_eval. Qed.

Example test_top_categories :
  top_categories_by_margin margin_orders 2
  = Ok [("Furniture", "Tables", 0.3); ("Office Supplies", "Paper", 0.1)]%string.
Proof. py_eval. Qed.

Example test_discounted_profit_and_share :
  total_discounted_profit discount_orders = Ok 50 /\
  discounted_profit_share discount_orders = Ok (Some 0.83333333333333337).
Proof. split; py_eval. Qed.

Example test_average_fulfillment_days :
  average_fulfillment_days dated_orders = Ok (Some 2.5).
Proof. py_eval. Qed.

Example test_profit_volatility :
  profit_std_by_market_category volatility_orders false
  = Ok [(("US", "Furniture"), 10); (("CAN", "Furniture"), 0)]%string /\
  profit_min_max_count_by_market_category volatility_orders
  = Ok [(("US", "Furniture"), (10, 30, 2%Z));
        (("CAN", "Furniture"), (20, 20, 1%Z))]%string.
Proof. split; py_eval. Qed.

(** ** Floating-point results *)

(** The totals of two orders of 1e308 are infinite and their quotient is
    NaN; the ranking with a NaN margin depends on [n] and on the order of
    the groups. *)
Example nan_margin :
  profit_margin_by_category_subcategory nan_orders
  = Ok [(("F", "C"), Some 2); (("F", "A"), Some nan); (("F", "B"), Some 1)]%string /\
  no_nan_margin nan_orders = false /\
  top_categories_by_margin nan_orders 2 = Ok [("F", "A", nan); ("F", "C", 2)]%string /\
  top_categories_by_margin nan_orders 3
  = Ok [("F", "B", 1); ("F", "A", nan); ("F", "C", 2)]%string.
Proof. split_and!; py_eval. Qed.

(** The heap of the ranking after the three groups, for [n = 3]: its
    first tuple has the margin 1, and the comparison with the margin NaN
    below it is false in both directions. *)
Example nan_heap :
  for_each (top_step (sum_fold cat_subcat profit nan_orders) 3)
           (sum_fold cat_subcat sales nan_orders) []
  = Ok [(1, "F", "B"); (nan, "F", "A"); (2, "F", "C")]%string.
Proof. py_eval. Qed.

(** The discounted profit of 10^16 is all that is left of the total
    profit 10^16 + 1 - 10^16 in floating-point arithmetic: the total is
    0.0 and the share is [None]. *)
Example discounted_profit_rounded :
  total_discounted_profit rounding_orders = Ok 1e16 /\
  discounted_profit_share rounding_orders = Ok None /\
  profit_margin_by_category_subcategory rounding_orders
  = Ok [(("Furniture", "Chairs")%string, None)].
Proof. split_and!; py_eval. Qed.

(** Two different profits with the standard deviation 0.0: the product of
    the two deviations underflows. *)
Example stddev_underflow :
  profit_std_by_market_category
    [ order_of "Furniture" "Chairs" 2020 "US" 1 0x1p-600 0;
      order_of "Furniture" "Chairs" 2020 "US" 1 0x1p-599 0 ] false
  = Ok [(("US", "Furniture")%string, 0)].
Proof. py_eval. Qed.

(** A margin of minus infinity, the sort key of a group without margin. *)
Example margin_minus_infinity :
  profit_margin_by_category_subcategory
    [ order_of "Furniture" "Chairs" 2020 "US" 0 1 0;
      order_of "Furniture" "Tables" 2020 "US" 1e-308 (-1e308) 0 ]
  = Ok [(("Furniture", "Chairs"), None);
        (("Furniture", "Tables"), Some neg_infinity)]%string /\
  margin_sort_key None = neg_infinity.
Proof. split; py_eval. Qed.

(** ** Tables *)

(** The table of the discounted profit, as [print_table] prints it. *)
Example print_table_metrics :
  print_table "Profit from Discounted Orders" metric_headers metric_rows
  = ([ "Profit from Discounted Orders";
       "Metric                  Value               ";
       "--------------------------------------------";
       "Total Discounted Profit 50.00               ";
       "Share of Total Profit   83.33%              ";
       "" ]%string, Ok tt).
Proof. py_eval. Qed.

Example print_table_ragged :
  print_table "T" ["A"; "B"] [ ["x"; "y"]; ["z"] ]
  = ([ "T"; "A                B               ";
       "---------------------------------"; "x                y               " ]%string,
     Raise IndexError).
Proof. py_eval. Qed.
